(** * AB3DMOT real-time wrapper: detection normalizer, session state,
      resilience policy and CSV export

    A shallow embedding of
    - [src/realtime_tracker.py]                       (module [RT]),
    - [src/rtmaps_components/rtmaps_ab3dmot_tracker.py] (module [Live]),
    - [src/rtmaps_ab3dmot_tracker.py]                 (module [Bridge]),
    - [src/AB3DMOT_libs/csv_export.py]                (module [Csv]),
    followed by the properties of these components.

    Conventions of the embedding.
    - A numpy float64 scalar is a rational [Q]. The code paths embedded
      here copy, slice and compare scalars; the only arithmetic is on
      wall-clock time and on integer frame counters.
    - A numpy array is an [ndarray] of rank 0, 1 or 2.
    - A raised Python exception is the [Raise] case of [result]; inside a
      [try: ... except Exception] whose handler discards the exception an
      [option] is enough.
    - Python dictionaries used as maps are stdpp [gmap]s; [det_id2str],
      which the code iterates in insertion order, is an association list. *)

From Stdlib Require Import ZArith QArith List String Ascii Lia DecimalString.
From stdpp Require Import base option list gmap strings pretty fin_maps.
Import ListNotations.

Local Open Scope Z_scope.
Local Open Scope string_scope.
Local Open Scope list_scope.

(** ** numpy arrays *)

Module Np.

Inductive ndarray :=
| Arr0                                      (* shape (), e.g. np.array(obj) *)
| Vec (data : list Q)                       (* shape (len data,) *)
| Mat (ncols : nat) (rows : list (list Q)). (* shape (len rows, ncols) *)

(** A rank-2 array is rectangular. *)
Definition wf (a : ndarray) : Prop :=
  match a with
  | Mat c rows => Forall (fun r => length r = c) rows
  | _ => True
  end.

(** [a.shape] *)
Definition shape (a : ndarray) : list nat :=
  match a with
  | Arr0 => []
  | Vec l => [length l]
  | Mat c rows => [length rows; c]
  end.

(** [a.shape[i]]; [None] is the IndexError of the tuple access. *)
Definition shape_at (a : ndarray) (i : nat) : option nat := shape a !! i.

(** [len(a.shape)] *)
Definition ndim (a : ndarray) : nat := length (shape a).

(** The row-major buffer behind the array. *)
Definition flat (a : ndarray) : list Q :=
  match a with
  | Arr0 => []
  | Vec l => l
  | Mat _ rows => concat rows
  end.

(** [n] consecutive rows of [k] entries. *)
Fixpoint chunks (k n : nat) (l : list Q) : list (list Q) :=
  match n with
  | O => []
  | S n' => take k l :: chunks k n' (drop k l)
  end.

(** [a.reshape(n, k)]; [None] is numpy's ValueError when the sizes differ. *)
Definition reshape (n k : nat) (a : ndarray) : option ndarray :=
  if Nat.eqb (length (flat a)) (n * k)
  then Some (Mat k (chunks k n (flat a)))
  else None.

(** [a.reshape(1, -1)] *)
Definition reshape_row (a : ndarray) : ndarray :=
  Mat (length (flat a)) [flat a].

(** [a[:, lo:hi]] on a rank-2 array. *)
Definition slice_cols (lo hi : nat) (a : ndarray) : option ndarray :=
  match a with
  | Mat c rows =>
      Some (Mat (Nat.min hi c - Nat.min lo c)
                (map (fun r => take (hi - lo) (drop lo r)) rows))
  | _ => None
  end.

(** [np.empty((0, c))] *)
Definition empty (c : nat) : ndarray := Mat c [].

(** [np.full((n, c), v)], with [np.ones] and [np.zeros] as instances. *)
Definition full (n c : nat) (v : Q) : ndarray := Mat c (repeat (repeat v c) n).
Definition ones (n c : nat) : ndarray := full n c 1%Q.
Definition zeros (n c : nat) : ndarray := full n c 0%Q.

(** Row-wise juxtaposition of two blocks with the same number of rows. *)
Fixpoint zip_rows (xs ys : list (list Q)) : option (list (list Q)) :=
  match xs, ys with
  | [], [] => Some []
  | x :: xs', y :: ys' => cons (x ++ y) <$> zip_rows xs' ys'
  | _, _ => None
  end.

(** [np.concatenate([a; b], axis=1)]; [None] is the ValueError raised for
    operands that are not rank 2 or differ in their number of rows. *)
Definition hcat2 (a b : ndarray) : option ndarray :=
  match a, b with
  | Mat ca ra, Mat cb rb => Mat (ca + cb) <$> zip_rows ra rb
  | _, _ => None
  end.

(** [np.concatenate(blocks, axis=1)] for a non-empty list of blocks. *)
Fixpoint concatenate_axis1 (blocks : list ndarray) : option ndarray :=
  match blocks with
  | [] => None
  | [a] => match a with Mat _ _ => Some a | _ => None end
  | a :: rest => b ← concatenate_axis1 rest; hcat2 a b
  end.

(** [len(a)]; [None] is the TypeError on a rank-0 array. *)
Definition len (a : ndarray) : option nat := shape_at a 0.

(** The rows seen when iterating a rank-2 array. *)
Definition rows_of (a : ndarray) : list (list Q) :=
  match a with
  | Mat _ rows => rows
  | _ => []
  end.

End Np.
Import Np.

(** ** Exceptions *)

Inductive exn :=
| ValueError (msg : string)
| KeyError
| IndexError
| TypeError
| AttributeError
| CoreFault.       (* anything raised inside the external tracking core *)

Inductive result (A : Type) :=
| Ok (a : A)
| Raise (e : exn).
Arguments Ok {A} a.
Arguments Raise {A} e.

Definition bind {A B} (m : result A) (k : A -> result B) : result B :=
  match m with
  | Ok a => k a
  | Raise e => Raise e
  end.

Notation "'do' x <- m ; k" := (bind m (fun x => k))
  (at level 10, x name, m at level 100, k at level 200).

(** An [option] read as a computation that raises [e] on [None]. *)
Definition or_raise {A} (e : exn) (o : option A) : result A :=
  match o with
  | Some a => Ok a
  | None => Raise e
  end.

Definition raised {A} (m : result A) : Prop :=
  match m with
  | Raise _ => True
  | Ok _ => False
  end.

(** The dictionary [{'dets': ..., 'info': ...}] handed to the tracking core. *)
Record dets_all := { dets : ndarray; info : ndarray }.

Definition as_dict (d : dets_all) : gmap string ndarray :=
  <["dets" := dets d]> (<["info" := info d]> ∅).

(** ** The external tracking core

    [AB3DMOT_libs.model.AB3DMOT] is an external collaborator: the wrapper
    only constructs it, calls [track], reads [trackers] and [ID_count] and
    overwrites [trackers] and [frame_count]. It is an interface here. *)

Record tracker_args := {
  arg_dataset : string;
  arg_det_name : string;
  arg_category : string;
  arg_config_override : list (string * bool);
  arg_ID_init : Z
}.

Class TrackingCore (C : Type) := {
  (** [AB3DMOT(cfg=..., cat=..., ID_init=...)] on the configuration that
      [_load_config] builds from the arguments *)
  core_new : tracker_args -> result C;
  (** [tracker.track(dets_all, frame_idx, seq_name)]: the core after the
      call and either the per-hypothesis results or the fault raised *)
  core_track : C -> dets_all -> Z -> string -> C * result (list ndarray);
  (** [[trk.id for trk in tracker.trackers]] *)
  core_trackers : C -> list Z;
  (** [tracker.ID_count[0]] *)
  core_ID_count : C -> Z;
  (** [tracker.trackers = []; tracker.frame_count = 0] *)
  core_clear : C -> C;
  core_clear_trackers : forall c, core_trackers (core_clear c) = []
}.

(** ** src/realtime_tracker.py *)

Module RT.
Section WithCore.
Context {C : Type} {core : TrackingCore C}.

Record RealtimeTracker := {
  dataset : string;
  det_name : string;
  category : string;
  frame_count : Z;
  tracker : C;
  det_id2str : list (Z * string)
}.

Definition kitti_id2str : list (Z * string) :=
  [(1, "Pedestrian"); (2, "Car"); (3, "Cyclist")].

Definition nuscenes_id2str : list (Z * string) :=
  [(1, "Pedestrian"); (2, "Car"); (3, "Bicycle"); (4, "Motorcycle");
   (5, "Bus"); (6, "Trailer"); (7, "Truck"); (8, "Construction_vehicle");
   (9, "Barrier"); (10, "Traffic_cone")].

(** [RealtimeTracker.__init__] *)
Definition __init__ (args : tracker_args) : result RealtimeTracker :=
  do core <- core_new args;
  do table <-
    (if String.eqb (arg_dataset args) "KITTI" then Ok kitti_id2str
     else if String.eqb (arg_dataset args) "nuScenes" then Ok nuscenes_id2str
     else Raise (ValueError "Unknown dataset"));
  Ok {| dataset := arg_dataset args;
        det_name := arg_det_name args;
        category := arg_category args;
        frame_count := 0;
        tracker := core;
        det_id2str := table |}.

(** The loop of [_get_type_id] over [det_id2str.items()]. *)
Fixpoint first_type_id (items : list (Z * string)) (cat : string) : option Z :=
  match items with
  | [] => None
  | (type_id, type_name) :: rest =>
      if String.eqb type_name cat then Some type_id
      else first_type_id rest cat
  end.

Definition _get_type_id (self : RealtimeTracker) : Z :=
  default 2 (first_type_id (det_id2str self) (category self)).

Definition get_active_tracks (self : RealtimeTracker) : list Z :=
  core_trackers (tracker self).

Definition get_track_count (self : RealtimeTracker) : Z :=
  core_ID_count (tracker self).

Definition set_frame_count (n : Z) (self : RealtimeTracker) : RealtimeTracker :=
  {| dataset := dataset self; det_name := det_name self;
     category := category self; frame_count := n;
     tracker := tracker self; det_id2str := det_id2str self |}.

Definition set_tracker (c : C) (self : RealtimeTracker) : RealtimeTracker :=
  {| dataset := dataset self; det_name := det_name self;
     category := category self; frame_count := frame_count self;
     tracker := c; det_id2str := det_id2str self |}.

(** [reset] *)
Definition reset (self : RealtimeTracker) : RealtimeTracker :=
  set_frame_count 0 (set_tracker (core_clear (tracker self)) self).

(** The [else] branch of [track_frame] that prepares a non-empty input:
    the 7 box columns and the co-indexed info block. *)
Definition prepare (self : RealtimeTracker) (dets0 : ndarray)
    (additional_info : option ndarray) : result dets_all :=
  do c <- or_raise IndexError (shape_at dets0 1);
  do n <- or_raise IndexError (shape_at dets0 0);
  do ds <-
    (if Nat.eqb c 8 then
       do scores <- or_raise IndexError (slice_cols 7 8 dets0);
       do d <- or_raise IndexError (slice_cols 0 7 dets0);
       Ok (d, scores)
     else if Nat.eqb c 7 then Ok (dets0, ones n 1)
     else Raise (ValueError "Invalid detection shape"));
  let '(d, scores) := ds in
  match additional_info with
  | None =>
      do ori_array <- or_raise IndexError (slice_cols 6 7 d);
      let bbox_2d := zeros n 4 in
      let type_id := _get_type_id self in
      do i <- or_raise (ValueError "concatenate")
                (concatenate_axis1
                   [ori_array; bbox_2d; full n 1 (inject_Z type_id); scores]);
      Ok {| dets := d; info := i |}
  | Some ai => Ok {| dets := d; info := ai |}
  end.

(** [results[0]] when [len(results) > 0 and len(results[0]) > 0]. *)
Definition extract (results : list ndarray) : result ndarray :=
  match results with
  | [] => Ok (empty 15)
  | r0 :: _ =>
      do n <- or_raise TypeError (len r0);
      Ok (if Nat.ltb 0 n then r0 else empty 15)
  end.

(** [track_frame]: the tracker after the call and what the call returns
    or raises. *)
Definition track_frame (self : RealtimeTracker) (dets0 : ndarray)
    (frame_idx : option Z) (additional_info : option ndarray)
    : RealtimeTracker * result ndarray :=
  let frame_idx := default (frame_count self) frame_idx in
  match len dets0 with
  | None => (self, Raise TypeError)
  | Some n0 =>
      let prepared :=
        if Nat.eqb n0 0
        then Ok {| dets := empty 7; info := empty 7 |}
        else prepare self dets0 additional_info in
      match prepared with
      | Raise e => (self, Raise e)
      | Ok d =>
          match core_track (tracker self) d frame_idx "realtime" with
          | (core', Raise e) => (set_tracker core' self, Raise e)
          | (core', Ok results) =>
              let self' :=
                set_frame_count (frame_count self + 1) (set_tracker core' self) in
              (self', extract results)
          end
      end
  end.

End WithCore.
Arguments RealtimeTracker C : clear implicits.
End RT.

(** ** Payloads received on the detections input *)

Inductive payload :=
| PyDict (d : gmap string ndarray)   (* a dict; its values as np.array sees them *)
| PyArray (a : ndarray)              (* an np.ndarray *)
| PyOther (as_array : ndarray).      (* any other object x, with np.array(x) *)

Definition empty_dets_all : dets_all := {| dets := empty 7; info := empty 7 |}.

(** [a.reshape(1, -1)] when [len(a.shape) == 1]. *)
Definition ensure_2d (a : ndarray) : ndarray :=
  if Nat.eqb (ndim a) 1 then reshape_row a else a.

Definition Qltb (x y : Q) : bool := negb (Qle_bool y x).

Definition is_Some_b {A} (o : option A) : bool :=
  match o with
  | Some _ => true
  | None => false
  end.

(** ** src/rtmaps_components/rtmaps_ab3dmot_tracker.py *)

Module Live.

Record properties := {
  p_dataset : string;
  p_det_name : string;
  p_category : string;
  p_ID_init : Z;
  p_enable_ego_motion : bool;
  p_verbose : bool;
  p_max_fps : Q;
  p_max_errors : Z;
  p_max_output_tracks : Z
}.

Inductive out_data :=
| Tracks (a : ndarray)
| NumTracks (n : nat)
| TrackIds (ids : list Z).

(** One [self.outputs[port].write(ioelt)]. *)
Record output_write := { port : string; ts : Z; data : out_data }.

(** What the host runtime presents to one call of [Core]. *)
Record frame_env := {
  now : Q;                                   (* time.time() *)
  det_has_data : bool;                       (* inputs["detections"].has_data *)
  det_ioelt : option (Z * option payload);   (* .ioelt: its ts and data *)
  frame_idx_in : option Z;                   (* inputs["frame_idx"], when present *)
  input_fault : bool;          (* the host raises while the inputs are read *)
  tracking_block_fault : bool; (* the tracking call or its log line raises *)
  output_fault : bool;         (* the host raises while the output is prepared *)
  first_track_log_fault : bool;  (* the log line of lines 227-232 raises, as
                                    int() does on a height that is NaN or
                                    infinite *)
  tracks_write_fault : bool;   (* outputs["tracks"].write raises *)
  minimal_write_fault : bool;  (* the retry with the empty element raises too *)
  num_tracks_block_fault : bool; (* the host raises in the guarded block of
                                    lines 263-269 *)
  track_ids_block_fault : bool   (* the host raises in the guarded block of
                                    lines 271-278 *)
}.

(** What one call of [Core] did, as seen from outside. *)
Inductive outcome :=
| RateLimited
| CircuitOpen
| NoData
| Processed (frame_idx : Z) (invoked : bool) (tracking_results : ndarray)
| Failed (invoked : bool).

Definition tracking_invoked (o : outcome) : bool :=
  match o with
  | Processed _ b _ => b
  | Failed b => b
  | _ => false
  end.

Definition is_processed (o : outcome) : bool :=
  match o with
  | Processed _ _ _ => true
  | _ => false
  end.

Section WithCore.
Context {C : Type} {core : TrackingCore C}.

Record rtmaps_python := {
  tracker : option (nat * RT.RealtimeTracker C);  (* object identity, object *)
  frame_count : Z;
  last_process_time : Q;
  min_process_interval : Q;
  error_count : Z;
  max_errors : Z;
  verbose : option bool;             (* no such attribute before Birth *)
  max_output_tracks : option Z;      (* no such attribute before Birth *)
  props : properties;                (* get_property *)
  constructed : nat;                 (* RealtimeTracker objects built so far *)
  outputs : list output_write        (* everything written, oldest first *)
}.

Definition set_error_count (n : Z) (s : rtmaps_python) : rtmaps_python :=
  {| tracker := tracker s; frame_count := frame_count s;
     last_process_time := last_process_time s;
     min_process_interval := min_process_interval s;
     error_count := n; max_errors := max_errors s; verbose := verbose s;
     max_output_tracks := max_output_tracks s; props := props s;
     constructed := constructed s; outputs := outputs s |}.

Definition write (w : output_write) (s : rtmaps_python) : rtmaps_python :=
  {| tracker := tracker s; frame_count := frame_count s;
     last_process_time := last_process_time s;
     min_process_interval := min_process_interval s;
     error_count := error_count s; max_errors := max_errors s;
     verbose := verbose s; max_output_tracks := max_output_tracks s;
     props := props s; constructed := constructed s;
     outputs := outputs s ++ [w] |}.

Definition set_timing (t : Q) (n : Z) (s : rtmaps_python) : rtmaps_python :=
  {| tracker := tracker s; frame_count := n; last_process_time := t;
     min_process_interval := min_process_interval s;
     error_count := error_count s; max_errors := max_errors s;
     verbose := verbose s; max_output_tracks := max_output_tracks s;
     props := props s; constructed := constructed s; outputs := outputs s |}.

(** [self.tracker = RealtimeTracker(...)]: a fresh object replaces the
    reference held so far. *)
Definition set_new_tracker (t : RT.RealtimeTracker C) (s : rtmaps_python)
    : rtmaps_python :=
  {| tracker := Some (constructed s, t); frame_count := frame_count s;
     last_process_time := last_process_time s;
     min_process_interval := min_process_interval s;
     error_count := error_count s; max_errors := max_errors s;
     verbose := verbose s; max_output_tracks := max_output_tracks s;
     props := props s; constructed := S (constructed s);
     outputs := outputs s |}.

Definition tracker_args_of (p : properties) : tracker_args :=
  {| arg_dataset := p_dataset p;
     arg_det_name := p_det_name p;
     arg_category := p_category p;
     arg_config_override :=
       [("ego_com", p_enable_ego_motion p); ("vis", false); ("affi_pro", true)];
     arg_ID_init := p_ID_init p |}.

(** [__init__], on the properties declared by [Dynamic]; it leaves
    [verbose] and [max_output_tracks] undefined. *)
Definition __init__ (p : properties) : rtmaps_python :=
  {| tracker := None; frame_count := 0; last_process_time := 0%Q;
     min_process_interval := (2 # 100)%Q; error_count := 0; max_errors := 10;
     verbose := None; max_output_tracks := None; props := p;
     constructed := O; outputs := [] |}.

(** [Birth]; it re-raises a failure of the tracker's constructor. *)
Definition Birth (self : rtmaps_python) : result rtmaps_python :=
  let p := props self in
  let max_fps := p_max_fps p in
  do t <- RT.__init__ (tracker_args_of p);
  Ok {| tracker := Some (constructed self, t);
        frame_count := 0;
        last_process_time := last_process_time self;
        min_process_interval :=
          if Qltb 0 max_fps then (1 / max_fps)%Q else (1 # 100)%Q;
        error_count := error_count self;
        max_errors := p_max_errors p;
        verbose := Some (p_verbose p);
        max_output_tracks := Some (p_max_output_tracks p);
        props := p;
        constructed := S (constructed self);
        outputs := outputs self |}.

(** [self.tracker._get_type_id()]; [None] when [self.tracker] is [None]. *)
Definition type_id_of (trk : option (nat * RT.RealtimeTracker C)) : option Z :=
  RT._get_type_id ∘ snd <$> trk.

(** [_generate_default_info]; [None] stands for a raised exception. *)
Definition _generate_default_info (trk : option (nat * RT.RealtimeTracker C))
    (N : nat) (d : ndarray) (scores : option ndarray) : option ndarray :=
  let scores := default (ones N 1) scores in
  ori_array ← slice_cols 6 7 d;
  let bbox_2d := zeros N 4 in
  type_id ← type_id_of trk;
  concatenate_axis1 [ori_array; bbox_2d; full N 1 (inject_Z type_id); scores].

(** The flattened-buffer heuristics of case 2 of [_parse_detection_input]:
    a (1, 8k) array and a 1-D array of 8k entries become (k, 8); any other
    1-D array becomes a single row. *)
Definition unflatten (input_data : ndarray) : option ndarray :=
  n0 ← shape_at input_data 0;
  a1 ← (if Nat.eqb (ndim input_data) 2 && Nat.eqb n0 1 then
          total_elements ← shape_at input_data 1;
          if Nat.eqb (total_elements mod 8) 0
          then reshape (total_elements / 8) 8 input_data
          else Some input_data
        else Some input_data);
  if Nat.eqb (ndim a1) 1 then
    total_elements ← shape_at a1 0;
    if Nat.eqb (total_elements mod 8) 0
    then reshape (total_elements / 8) 8 a1
    else Some (reshape_row a1)
  else Some a1.

(** The dispatch of case 2 on [input_data.shape[1]]. *)
Definition by_columns (trk : option (nat * RT.RealtimeTracker C))
    (a : ndarray) : option dets_all :=
  N ← shape_at a 0;
  c ← shape_at a 1;
  if Nat.eqb c 7 then
    i ← _generate_default_info trk N a None;
    Some {| dets := a; info := i |}
  else if Nat.eqb c 8 then
    d ← slice_cols 0 7 a;
    scores ← slice_cols 7 8 a;
    i ← _generate_default_info trk N d (Some scores);
    Some {| dets := d; info := i |}
  else if Nat.eqb c 15 then
    d ← slice_cols 6 13 a;
    scores ← slice_cols 14 15 a;
    ori ← slice_cols 13 14 a;
    bbox ← slice_cols 1 5 a;
    type_id ← type_id_of trk;
    i ← concatenate_axis1 [ori; bbox; full N 1 (inject_Z type_id); scores];
    Some {| dets := d; info := i |}
  else
    d ← slice_cols 0 7 a;
    i ← _generate_default_info trk N d None;
    Some {| dets := d; info := i |}.

(** Case 2 of [_parse_detection_input], before the enclosing handler. *)
Definition parse_ndarray (trk : option (nat * RT.RealtimeTracker C))
    (input_data : ndarray) : option dets_all :=
  n0 ← shape_at input_data 0;
  if Nat.eqb n0 0 then Some empty_dets_all else
  a ← unflatten input_data;
  by_columns trk a.

(** [_parse_detection_input]: the whole body sits in a [try] whose handler
    returns the empty detections. A dict without both keys and any other
    object go through [np.array] and the recursive call. *)
Definition _parse_detection_input (trk : option (nat * RT.RealtimeTracker C))
    (input_data : payload) : dets_all :=
  default empty_dets_all
    match input_data with
    | PyDict d =>
        match d !! "dets", d !! "info" with
        | Some a, Some b => Some {| dets := ensure_2d a; info := ensure_2d b |}
        | _, _ => Some (default empty_dets_all (parse_ndarray trk Arr0))
        end
    | PyArray a => parse_ndarray trk a
    | PyOther a => Some (default empty_dets_all (parse_ndarray trk a))
    end.

(** The elements met when iterating an array: the rows of a rank-2 array,
    scalars (which cannot be unpacked, [None]) for a rank-1 array; a
    rank-0 array cannot be iterated. *)
Definition elements (a : ndarray) : option (list (option (list Q))) :=
  match a with
  | Arr0 => None
  | Vec l => Some (map (fun _ => None) l)
  | Mat _ rows => Some (map Some rows)
  end.

(** [h, w, l, x, y, z, theta = det] *)
Definition unpack7 (r : option (list Q)) : option (Q * Q * Q * Q * Q * Q * Q) :=
  match r with
  | Some [a; b; c; d; e; f; g] => Some (a, b, c, d, e, f, g)
  | _ => None
  end.

(** The loop of [_simple_tracking_fallback] over [enumerate(zip(dets, info))]. *)
Fixpoint fallback_rows (frame_idx i : Z) (ds infs : list (option (list Q)))
    : option (list (list Q)) :=
  match ds, infs with
  | det :: ds', inf :: infs' =>
      '(h, w, l, x, y, z, theta) ← unpack7 det;
      '(ori, bbox_x1, bbox_y1, bbox_x2, bbox_y2, type_id, score) ← unpack7 inf;
      let track_id := frame_idx * 100 + i in
      rest ← fallback_rows frame_idx (i + 1) ds' infs';
      Some ([h; w; l; x; y; z; theta; inject_Z track_id; ori; type_id;
             bbox_x1; bbox_y1; bbox_x2; bbox_y2; score] :: rest)
  | _, _ => Some []
  end.

(** [np.array(rows)] for rows of 15 scalars; without rows it has shape (0,). *)
Definition array_of_rows (rows : list (list Q)) : ndarray :=
  match rows with
  | [] => Vec []
  | _ => Mat 15 rows
  end.

(** [_simple_tracking_fallback]; its own handler returns the empty result. *)
Definition _simple_tracking_fallback (d i : ndarray) (frame_idx : Z) : ndarray :=
  default (empty 15)
    (num_detections ← len d;
     if Nat.eqb num_detections 0 then Some (empty 15) else
     ds ← elements d;
     infs ← elements i;
     rows ← fallback_rows frame_idx 0 ds infs;
     Some (array_of_rows rows)).

(** [a[:n]] *)
Definition take_rows (n : nat) (a : ndarray) : ndarray :=
  match a with
  | Arr0 => Arr0
  | Vec l => Vec (take n l)
  | Mat c rows => Mat c (take n rows)
  end.

(** Lines 173-200: the tracking step inside its own [try]. The pair is the
    value of [tracking_results] and whether the tracking call was reached. *)
Definition tracking_step (e : frame_env) (dets_data : dets_all) (frame_idx : Z)
    : ndarray * bool :=
  match shape_at (dets dets_data) 1, shape_at (info dets_data) 1 with
  | None, _ => (empty 15, false)               (* IndexError, handled *)
  | Some cd, ci =>
      if negb (Nat.eqb cd 7) then (empty 15, false)
      else match ci with
           | None => (empty 15, false)         (* IndexError, handled *)
           | Some ci =>
               if negb (Nat.eqb ci 7) then (empty 15, false)
               else if tracking_block_fault e then (empty 15, true)
               else (_simple_tracking_fallback (dets dets_data) (info dets_data)
                       frame_idx, true)
           end
  end.

(** Lines 209-246: the cap on the number of rows and the two guards behind
    it. The result is [tracks_output.data] and [num_tracks]. *)
Definition limit_output (tracking_results : ndarray) : result (ndarray * nat) :=
  do original_count <- or_raise TypeError (len tracking_results);
  let max_safe_tracks := 1%nat in
  let r1 := if Nat.ltb max_safe_tracks original_count
            then take_rows max_safe_tracks tracking_results
            else tracking_results in
  do n1 <- or_raise TypeError (len r1);
  let r2 := if Nat.ltb 1 n1 then empty 15 else r1 in
  do num_tracks <- or_raise TypeError (len r2);
  let out := if Nat.ltb 1 num_tracks then empty 15 else r2 in
  Ok (out, num_tracks).

(** The values [np.array(ids, dtype=np.int32)] converts; on any other
    integer the conversion raises OverflowError. *)
Definition fits_int32 (i : Z) : bool :=
  Z.leb (- 2 ^ 31) i && Z.ltb i (2 ^ 31).

(** Lines 226-232: the log line on the first result, [first_track[0]] to
    [first_track[3]]; [false] when the indexing raises. *)
Definition first_track_indexable (tracking_results : ndarray) : bool :=
  match tracking_results with
  | Mat _ (first_track :: _) => Nat.ltb 3 (length first_track)
  | Mat _ [] => true
  | _ => false                                  (* a scalar has no [0] *)
  end.

(** Lines 235-278: the three guarded writes. An exception in the second
    or the third block leaves that element out; the third block also
    converts the track ids to int32. *)
Definition write_outputs (e : frame_env) (timestamp : Z) (out : ndarray)
    (num_tracks : nat) (active_track_ids : list Z) (s : rtmaps_python)
    : rtmaps_python :=
  let s1 :=
    if tracks_write_fault e then
      if minimal_write_fault e then s
      else write {| port := "tracks"; ts := timestamp; data := Tracks (empty 15) |} s
    else write {| port := "tracks"; ts := timestamp; data := Tracks out |} s in
  let s2 :=
    if num_tracks_block_fault e then s1
    else write {| port := "num_tracks"; ts := timestamp;
                  data := NumTracks num_tracks |} s1 in
  if track_ids_block_fault e || negb (forallb fits_int32 active_track_ids)
  then s2
  else write {| port := "track_ids"; ts := timestamp;
                data := TrackIds active_track_ids |} s2.

(** Lines 294-311: every 100 frames a new [RealtimeTracker] is built; when
    its constructor raises, the handler keeps the old one. *)
Definition periodic_reset (s : rtmaps_python) : rtmaps_python :=
  if Z.eqb (frame_count s mod 100) 0 then
    match RT.__init__ (tracker_args_of (props s)) with
    | Ok t => set_new_tracker t s
    | Raise _ => s
    end
  else s.

(** What the body of the outer [try] comes to: it completes, or an
    exception escapes to the outer handler, before or after the tracking
    call was reached. *)
Inductive body_result :=
| Done (s : rtmaps_python) (o : outcome)
| Escaped (invoked : bool).

(** The body of the outer [try] of [Core] from line 145 on, entered with the
    error count already cleared. *)
Definition Core_body (s : rtmaps_python) (e : frame_env) : body_result :=
  if input_fault e then Escaped false else
  if negb (det_has_data e) then Done s NoData else
  match det_ioelt e with
  | None => Done s NoData
  | Some (_, None) => Done s NoData
  | Some (timestamp, Some input_data) =>
      let frame_idx := default (frame_count s) (frame_idx_in e) in
      let dets_data := _parse_detection_input (tracker s) input_data in
      match verbose s with
      | None => Escaped false                   (* AttributeError *)
      | Some v =>
      if v && negb (is_Some_b (len (dets dets_data)))
      then Escaped false                        (* TypeError of len() *)
      else
      let '(tracking_results, invoked) := tracking_step e dets_data frame_idx in
      let active_track_ids :=
        default [] (RT.get_active_tracks ∘ snd <$> tracker s) in
      if output_fault e then Escaped invoked else
      match limit_output tracking_results with
      | Raise _ => Escaped invoked
      | Ok (out, num_tracks) =>
          if Nat.ltb 0 num_tracks
             && (first_track_log_fault e || negb (first_track_indexable out))
          then Escaped invoked                  (* lines 226-232 *)
          else
          let s1 := write_outputs e timestamp out num_tracks active_track_ids s in
          let s2 := set_timing (now e) (frame_count s1 + 1) s1 in
          Done (periodic_reset s2) (Processed frame_idx invoked tracking_results)
      end
      end
  end.

(** Lines 313-344: the outer handler. The first failing write ends the
    attempt to emit the empty results. *)
Definition on_error (s : rtmaps_python) (e : frame_env) : rtmaps_python :=
  let s1 := set_error_count (error_count s + 1) s in
  let t := if det_has_data e
           then match det_ioelt e with Some (t, _) => t | None => 0 end
           else 0 in
  if tracks_write_fault e then s1
  else
    write {| port := "track_ids"; ts := t; data := TrackIds [] |}
      (write {| port := "num_tracks"; ts := t; data := NumTracks 0 |}
         (write {| port := "tracks"; ts := t; data := Tracks (empty 15) |} s1)).

(** [Core] *)
Definition Core (self : rtmaps_python) (e : frame_env) : rtmaps_python * outcome :=
  let current_time := now e in
  if Qltb (current_time - last_process_time self) (min_process_interval self)
  then (self, RateLimited)
  else if Z.leb (max_errors self) (error_count self) then (self, CircuitOpen)
  else
    let s0 := set_error_count 0 self in
    match Core_body s0 e with
    | Done s1 o => (s1, o)
    | Escaped invoked => (on_error s0 e, Failed invoked)
    end.

(** Lines 248-311 on a frame entered in state [s]: the state [Core] leaves
    behind when it completes the frame. *)
Definition completed (s : rtmaps_python) (e : frame_env) (timestamp : Z)
    (out : ndarray) (num_tracks : nat) : rtmaps_python :=
  let s1 :=
    write_outputs e timestamp out num_tracks
      (default [] (RT.get_active_tracks ∘ snd <$> tracker s))
      (set_error_count 0 s) in
  periodic_reset (set_timing (now e) (frame_count s + 1) s1).

(** The scheduler calls [Core] once per arriving payload. *)
Fixpoint run (self : rtmaps_python) (es : list frame_env)
    : rtmaps_python * list outcome :=
  match es with
  | [] => (self, [])
  | e :: es' =>
      let '(s1, o) := Core self e in
      let '(s2, os) := run s1 es' in
      (s2, o :: os)
  end.

End WithCore.
Arguments rtmaps_python C : clear implicits.
End Live.

(** ** src/rtmaps_ab3dmot_tracker.py

    The first version of the component. Its [_generate_default_info] and
    the dispatch on the column count are the same text as in [Live]. *)

Module Bridge.
Section WithCore.
Context {C : Type} {core : TrackingCore C}.

(** Case 2 of [_parse_detection_input]; [None] is a raised exception. *)
Definition parse_ndarray (trk : option (nat * RT.RealtimeTracker C))
    (input_data : ndarray) : option dets_all :=
  n0 ← shape_at input_data 0;
  if Nat.eqb n0 0 then Some empty_dets_all else
  Live.by_columns trk (ensure_2d input_data).

(** [_parse_detection_input]: only case 3 sits in a [try]; an exception of
    case 2 reaches the caller ([None]). *)
Definition _parse_detection_input (trk : option (nat * RT.RealtimeTracker C))
    (input_data : payload) : option dets_all :=
  match input_data with
  | PyDict d =>
      match d !! "dets", d !! "info" with
      | Some a, Some b => Some {| dets := ensure_2d a; info := ensure_2d b |}
      | _, _ => Some (default empty_dets_all (parse_ndarray trk Arr0))
      end
  | PyArray a => parse_ndarray trk a
  | PyOther a => Some (default empty_dets_all (parse_ndarray trk a))
  end.

(** The first version keeps a tracker, a frame counter and a verbosity
    flag; [outputs] is everything written, oldest first. *)
Record rtmaps_python := {
  tracker : option (nat * RT.RealtimeTracker C);
  frame_count : Z;
  verbose : bool;
  outputs : list Live.output_write
}.

Definition write (w : Live.output_write) (s : rtmaps_python) : rtmaps_python :=
  {| tracker := tracker s; frame_count := frame_count s; verbose := verbose s;
     outputs := outputs s ++ [w] |}.

Definition set_tracker (t : nat * RT.RealtimeTracker C) (s : rtmaps_python)
    : rtmaps_python :=
  {| tracker := Some t; frame_count := frame_count s; verbose := verbose s;
     outputs := outputs s |}.

Definition set_frame_count (n : Z) (s : rtmaps_python) : rtmaps_python :=
  {| tracker := tracker s; frame_count := n; verbose := verbose s;
     outputs := outputs s |}.

(** [obj[7]] and [obj[14]] exist for every [obj] of [tracking_results]:
    what the verbose loop of [Core] needs in order not to raise. *)
Definition loggable (tracking_results : ndarray) : bool :=
  match Live.elements tracking_results with
  | Some objs =>
      forallb (fun obj => match obj with
                          | Some r => Nat.ltb 14 (length r)
                          | None => false
                          end) objs
  | None => false
  end.

(** The handler of [Core]: one empty element on the tracks output, with
    the timestamp of the input. *)
Definition on_error (timestamp : Z) (s : rtmaps_python) : rtmaps_python :=
  write {| Live.port := "tracks"; Live.ts := timestamp;
           Live.data := Live.Tracks (empty 15) |} s.

(** [Core]. The host is taken not to raise on its own here; of the frame
    only the input element and the frame index are read. The second
    component is the exception that leaves [Core], if any: without an input
    element both the body and the handler fail on [ioelt.ts]. An input
    element without data is [np.array(None)], a rank-0 array, to the
    parser. *)
Definition Core (self : rtmaps_python) (e : Live.frame_env)
    : rtmaps_python * option exn :=
  match Live.det_ioelt e with
  | None => (self, Some AttributeError)
  | Some (timestamp, data) =>
      let frame_idx := default (frame_count self) (Live.frame_idx_in e) in
      match _parse_detection_input (tracker self)
              (default (PyOther Arr0) data) with
      | None => (on_error timestamp self, None)
      | Some dets_data =>
          if verbose self && negb (is_Some_b (len (dets dets_data)))
          then (on_error timestamp self, None)
          else
          match tracker self with
          | None => (on_error timestamp self, None)
          | Some (oid, t) =>
              match RT.track_frame t (dets dets_data) (Some frame_idx)
                      (Some (info dets_data)) with
              | (t', Raise _) =>
                  (on_error timestamp (set_tracker (oid, t') self), None)
              | (t', Ok tracking_results) =>
                  let s1 := set_tracker (oid, t') self in
                  let active_track_ids := RT.get_active_tracks t' in
                  match len tracking_results with
                  | None => (on_error timestamp s1, None)
                  | Some num_tracks =>
                      if verbose self && Nat.ltb 0 num_tracks
                         && negb (loggable tracking_results)
                      then (on_error timestamp s1, None)
                      else
                      let s2 := write {| Live.port := "tracks";
                                         Live.ts := timestamp;
                                         Live.data := Live.Tracks tracking_results |}
                                  s1 in
                      let s3 := write {| Live.port := "num_tracks";
                                         Live.ts := timestamp;
                                         Live.data := Live.NumTracks num_tracks |}
                                  s2 in
                      if negb (forallb Live.fits_int32 active_track_ids)
                      then (on_error timestamp s3, None)   (* OverflowError *)
                      else
                      let s4 := write {| Live.port := "track_ids";
                                         Live.ts := timestamp;
                                         Live.data := Live.TrackIds active_track_ids |}
                                  s3 in
                      (set_frame_count (frame_count self + 1) s4, None)
                  end
              end
          end
      end
  end.

End WithCore.
Arguments rtmaps_python C : clear implicits.
End Bridge.

(** ** src/AB3DMOT_libs/csv_export.py *)

Module Csv.

(** A value handed to [csv.writer.writerow]. *)
Inductive cell :=
| CInt (n : Z)
| CStr (s : string)
| CNum (q : Q).

Definition row := list cell.

(** A file on disk: how it was opened and the rows written so far. *)
Record file := { encoding : string; rows : list row; closed : bool }.

Record CSVExporter := {
  save_dir : string;
  num_hypo : Z;
  csv_files : gmap Z string;      (* hypothesis -> path of the open file *)
  csv_writers : gmap Z string     (* hypothesis -> path its writer appends to *)
}.

(** [CSVExporter.__init__] *)
Definition __init__ (dir : string) (n : Z) : CSVExporter :=
  {| save_dir := dir; num_hypo := n; csv_files := ∅; csv_writers := ∅ |}.

Definition get_csv_header : list string :=
  [ "frame"; "track_id"; "object_type"; "truncated"; "occluded"; "alpha";
    "bbox_left"; "bbox_top"; "bbox_right"; "bbox_bottom";
    "height_3d"; "width_3d"; "length_3d"; "x_3d"; "y_3d"; "z_3d";
    "rotation_y"; "confidence_score" ].

(** The line [csv.writer] emits for fields that need no quoting. *)
Definition csv_line (fields : list string) : string := String.concat "," fields.

(** [f'tracking_results_H{hypo}_{seq_name}.csv'] *)
Definition csv_filename (hypo : Z) (seq_name : string) : string :=
  "tracking_results_H" +:+ pretty hypo +:+ "_" +:+ seq_name +:+ ".csv".

Definition ends_with_slash (s : string) : bool :=
  match String.rev s with
  | String c _ => Ascii.eqb c "/"
  | EmptyString => false
  end.

(** [os.path.join(a, b)] (posixpath) *)
Definition path_join (a b : string) : string :=
  match b with
  | String "/" _ => b
  | _ => if String.eqb a "" || ends_with_slash a then a +:+ b
         else a +:+ "/" +:+ b
  end.

Definition close_file (f : file) : file :=
  {| encoding := encoding f; rows := rows f; closed := true |}.

(** [close_files] *)
Definition close_files (self : CSVExporter) (disk : gmap string file)
    : CSVExporter * gmap string file :=
  let disk' :=
    map_fold (fun (_ : Z) path d => alter close_file path d) disk (csv_files self) in
  ({| save_dir := save_dir self; num_hypo := num_hypo self;
      csv_files := ∅; csv_writers := ∅ |}, disk').

(** One turn of the loop of [init_sequence_files]: open for writing
    (truncating), write the header, keep the handle and the writer. *)
Definition open_one (seq_name : string) (st : CSVExporter * gmap string file)
    (hypo : Z) : CSVExporter * gmap string file :=
  let '(self, disk) := st in
  let csv_path := path_join (save_dir self) (csv_filename hypo seq_name) in
  let csv_file := {| encoding := "utf-8";
                     rows := [map CStr get_csv_header];
                     closed := false |} in
  ({| save_dir := save_dir self; num_hypo := num_hypo self;
      csv_files := <[hypo := csv_path]> (csv_files self);
      csv_writers := <[hypo := csv_path]> (csv_writers self) |},
   <[csv_path := csv_file]> disk).

(** [init_sequence_files] *)
Definition init_sequence_files (self : CSVExporter) (disk : gmap string file)
    (seq_name : string) : CSVExporter * gmap string file :=
  foldl (open_one seq_name) (close_files self disk) (seqZ 0 (num_hypo self)).

(** [det_id2str[key]] for a float key: the entry whose integer key equals it. *)
Fixpoint lookup_type (det_id2str : list (Z * string)) (key : Q) : option string :=
  match det_id2str with
  | [] => None
  | (k, v) :: rest =>
      if Qeq_bool (inject_Z k) key then Some v else lookup_type rest key
  end.

(** [int(x)]: truncation towards zero. *)
Definition int (x : Q) : Z := Z.quot (Qnum x) (Zpos (Qden x)).

Definition append_row (r : row) (f : file) : file :=
  {| encoding := encoding f; rows := rows f ++ [r]; closed := closed f |}.

(** The row built by [export_result], or the exception of an index or key
    that is missing; [None] when the confidence is under the threshold. *)
Definition csv_row (result_data : list Q) (det_id2str : list (Z * string))
    (frame : Z) (score_threshold : Q) : result (option row) :=
  let bbox3d_tmp := take 7 result_data in
  do id_tmp <- or_raise IndexError (result_data !! 7%nat);
  do ori_tmp <- or_raise IndexError (result_data !! 8%nat);
  do type_key <- or_raise IndexError (result_data !! 9%nat);
  do type_tmp <- or_raise KeyError (lookup_type det_id2str type_key);
  let bbox2d_tmp := take 4 (drop 10 result_data) in
  do conf_tmp <- or_raise IndexError (result_data !! 14%nat);
  if Qle_bool score_threshold conf_tmp then
    do bbox_left <- or_raise IndexError (bbox2d_tmp !! 0%nat);
    do bbox_top <- or_raise IndexError (bbox2d_tmp !! 1%nat);
    do bbox_right <- or_raise IndexError (bbox2d_tmp !! 2%nat);
    do bbox_bottom <- or_raise IndexError (bbox2d_tmp !! 3%nat);
    do height_3d <- or_raise IndexError (bbox3d_tmp !! 0%nat);
    do width_3d <- or_raise IndexError (bbox3d_tmp !! 1%nat);
    do length_3d <- or_raise IndexError (bbox3d_tmp !! 2%nat);
    do x_3d <- or_raise IndexError (bbox3d_tmp !! 3%nat);
    do y_3d <- or_raise IndexError (bbox3d_tmp !! 4%nat);
    do z_3d <- or_raise IndexError (bbox3d_tmp !! 5%nat);
    do rotation_y <- or_raise IndexError (bbox3d_tmp !! 6%nat);
    Ok (Some [CInt frame; CInt (int id_tmp); CStr type_tmp; CInt 0; CInt 0;
              CNum ori_tmp; CNum bbox_left; CNum bbox_top; CNum bbox_right;
              CNum bbox_bottom; CNum height_3d; CNum width_3d; CNum length_3d;
              CNum x_3d; CNum y_3d; CNum z_3d; CNum rotation_y; CNum conf_tmp])
  else Ok None.

(** [export_result]: the disk afterwards, or the exception raised. *)
Definition export_result (self : CSVExporter) (disk : gmap string file)
    (result_data : list Q) (hypo : Z) (det_id2str : list (Z * string))
    (frame : Z) (score_threshold : Q) : result (gmap string file) :=
  match csv_writers self !! hypo with
  | None => Ok disk
  | Some path =>
      do r <- csv_row result_data det_id2str frame score_threshold;
      match r with
      | Some r => Ok (alter (append_row r) path disk)
      | None => Ok disk
      end
  end.

(** [create_csv_exporter] *)
Definition create_csv_exporter (dir : string) (n : Z) : CSVExporter :=
  __init__ dir n.

(** The inner loop of [export_tracking_results_csv]: the results of one
    hypothesis, one [export_result] each, up to the first exception. *)
Fixpoint export_results (self : CSVExporter) (disk : gmap string file)
    (results : list (list Q)) (hypo : Z) (det_id2str : list (Z * string))
    (frame : Z) (score_threshold : Q) : result (gmap string file) :=
  match results with
  | [] => Ok disk
  | r :: rest =>
      do disk' <- export_result self disk r hypo det_id2str frame score_threshold;
      export_results self disk' rest hypo det_id2str frame score_threshold
  end.

(** The outer loop of [export_tracking_results_csv] over the hypotheses;
    a hypothesis beyond [len(results_data)] is passed over. *)
Fixpoint export_hypotheses (self : CSVExporter) (disk : gmap string file)
    (hypos : list Z) (results_data : list (list (list Q)))
    (det_id2str : list (Z * string)) (frame : Z) (score_threshold : Q)
    : result (gmap string file) :=
  match hypos with
  | [] => Ok disk
  | hypo :: rest =>
      do disk' <-
        (if Z.ltb hypo (Z.of_nat (length results_data))
         then export_results self disk
                (default [] (results_data !! Z.to_nat hypo)) hypo det_id2str
                frame score_threshold
         else Ok disk);
      export_hypotheses self disk' rest results_data det_id2str frame
        score_threshold
  end.

(** [export_tracking_results_csv]: a fresh exporter opens the files of the
    sequence, exports the results of each hypothesis and closes the files.
    An exception ends the call before the files are closed. *)
Definition export_tracking_results_csv (dir seq_name : string)
    (results_data : list (list (list Q))) (det_id2str : list (Z * string))
    (frame : Z) (score_threshold : Q) (n : Z) (disk : gmap string file)
    : result (gmap string file) :=
  let exporter := __init__ dir n in
  let '(exporter, disk1) := init_sequence_files exporter disk seq_name in
  do disk2 <- export_hypotheses exporter disk1 (seqZ 0 n) results_data
                det_id2str frame score_threshold;
  Ok (snd (close_files exporter disk2)).

End Csv.

(** ** A stand-in for the external core

    Closed examples need some tracking core. This one keeps no tracks and
    returns one empty hypothesis; [faulty_core] raises on every call. *)

Definition idle_core : TrackingCore unit :=
  {| core_new := fun _ => Ok tt;
     core_track := fun c _ _ _ => (c, Ok [empty 15]);
     core_trackers := fun _ => [];
     core_ID_count := fun _ => 0;
     core_clear := fun c => c;
     core_clear_trackers := fun _ => eq_refl |}.

Definition faulty_core : TrackingCore unit :=
  {| core_new := fun _ => Ok tt;
     core_track := fun c _ _ _ => (c, Raise CoreFault);
     core_trackers := fun _ => [];
     core_ID_count := fun _ => 0;
     core_clear := fun c => c;
     core_clear_trackers := fun _ => eq_refl |}.

(** The properties [Dynamic] declares. *)
Definition default_properties : Live.properties :=
  {| Live.p_dataset := "KITTI"; Live.p_det_name := "pointrcnn";
     Live.p_category := "Car"; Live.p_ID_init := 0;
     Live.p_enable_ego_motion := false; Live.p_verbose := false;
     Live.p_max_fps := 50%Q; Live.p_max_errors := 10;
     Live.p_max_output_tracks := 5 |}.

(** ** Vocabulary of the properties *)

(** The inputs the normalizer documents: a rank-2 array of 7, 8 or 15
    columns, or a rank-1 buffer of 8k entries. *)
Definition supported (a : ndarray) : Prop :=
  wf a /\
  match a with
  | Mat c _ => c = 7%nat \/ c = 8%nat \/ c = 15%nat
  | Vec l => (length l mod 8 = 0)%nat
  | Arr0 => False
  end.

(** The objects encoded in a supported input, one list of scalars each. *)
Definition logical_rows (a : ndarray) : list (list Q) :=
  match a with
  | Mat _ rows => rows
  | Vec l => chunks 8 (length l / 8) l
  | Arr0 => []
  end.

Definition logical_objects (a : ndarray) : nat := length (logical_rows a).

(** Where the box [h, w, l, x, y, z, theta] starts in an input row. *)
Definition box_offset (a : ndarray) : nat :=
  match a with
  | Mat 15 _ => 6
  | _ => 0
  end.

(** Height, width and length, the first three fields, are not negative. *)
Definition dims_nonneg (boxes : list (list Q)) : Prop :=
  Forall (fun r => Forall (fun q => (0 <= q)%Q) (take 3 r)) boxes.

(** The column count the normalizer sees after undoing the flattening. *)
Definition columns_seen (a : ndarray) : nat :=
  match a with
  | Mat c _ => c
  | _ => 8
  end.

(** The tracker [Birth] builds from the default properties, over
    [idle_core], with object identity 0. *)
Definition kitti_car : nat * RT.RealtimeTracker unit :=
  (O, {| RT.dataset := "KITTI"; RT.det_name := "pointrcnn";
         RT.category := "Car"; RT.frame_count := 0; RT.tracker := tt;
         RT.det_id2str := RT.kitti_id2str |}).


(** A batch caller: one [track_frame] call per frame, each with its
    detections, an optional frame index and optional info. *)
Fixpoint track_frames {C : Type} {core : TrackingCore C}
    (self : RT.RealtimeTracker C)
    (calls : list (ndarray * option Z * option ndarray))
    : RT.RealtimeTracker C * list (result ndarray) :=
  match calls with
  | [] => (self, [])
  | (d, frame_idx, additional_info) :: rest =>
      let '(self1, r) := RT.track_frame self d frame_idx additional_info in
      let '(self2, rs) := track_frames self1 rest in
      (self2, r :: rs)
  end.


(** The component after [__init__] and [Birth] on the default properties. *)
Definition born : Live.rtmaps_python unit :=
  match Live.Birth (core := idle_core) (Live.__init__ default_properties) with
  | Ok s => s
  | Raise _ => Live.__init__ default_properties
  end.

(** A frame that arrives at time [t] with payload [p], timestamp 0 and no
    frame index of its own; the host raises nowhere. *)
Definition frame (t : Q) (p : payload) : Live.frame_env :=
  {| Live.now := t; Live.det_has_data := true;
     Live.det_ioelt := Some (0, Some p); Live.frame_idx_in := None;
     Live.input_fault := false; Live.tracking_block_fault := false;
     Live.output_fault := false; Live.first_track_log_fault := false;
     Live.tracks_write_fault := false; Live.minimal_write_fault := false;
     Live.num_tracks_block_fault := false;
     Live.track_ids_block_fault := false |}.

(** The same frame with a fault raised inside the tracking step. *)
Definition frame_tracking_fault (t : Q) (p : payload) : Live.frame_env :=
  {| Live.now := t; Live.det_has_data := true;
     Live.det_ioelt := Some (0, Some p); Live.frame_idx_in := None;
     Live.input_fault := false; Live.tracking_block_fault := true;
     Live.output_fault := false; Live.first_track_log_fault := false;
     Live.tracks_write_fault := false; Live.minimal_write_fault := false;
     Live.num_tracks_block_fault := false;
     Live.track_ids_block_fault := false |}.

(** The same frame with an exception that reaches the outer handler of
    [Core], raised while the output is prepared. *)
Definition frame_output_fault (t : Q) (p : payload) : Live.frame_env :=
  {| Live.now := t; Live.det_has_data := true;
     Live.det_ioelt := Some (0, Some p); Live.frame_idx_in := None;
     Live.input_fault := false; Live.tracking_block_fault := false;
     Live.output_fault := true; Live.first_track_log_fault := false;
     Live.tracks_write_fault := false; Live.minimal_write_fault := false;
     Live.num_tracks_block_fault := false;
     Live.track_ids_block_fault := false |}.

(** One car, as a 1x7 array. *)
Definition one_car : payload :=
  PyArray (Mat 7 [[1.5; 1.8; 4.5; 10; 0; 30; 0.1]%Q]).

(** Two cars, as a 2x7 array. *)
Definition two_cars : payload :=
  PyArray (Mat 7 [[1.5; 1.8; 4.5; 10; 0; 30; 0.1]%Q;
                  [1.6; 1.9; 4.8; 15; 0; 35; 0.2]%Q]).

(** A write on the tracks output carries at most one row. *)
Definition at_most_one_row (w : Live.output_write) : Prop :=
  match Live.data w with
  | Live.Tracks a => exists n, len a = Some n /\ (n <= 1)%nat
  | _ => True
  end.


(** [n] frames built by [mk] with payload [p], one second apart, the first
    at time [t0]. *)
Definition frames (mk : Q -> payload -> Live.frame_env) (t0 : Z) (n : nat)
    (p : payload) : list Live.frame_env :=
  map (fun k => mk (inject_Z (t0 + Z.of_nat k)) p) (seq 0 n).

(** The result row the fallback tracking builds for [one_car] at a frame
    index: the box, the track id [frame_idx * 100], the info. *)
Definition one_car_result (frame_idx : Z) : ndarray :=
  Mat 15 [[1.5; 1.8; 4.5; 10; 0; 30; 0.1; inject_Z (frame_idx * 100);
           0.1; 2; 0; 0; 0; 0; 1]%Q].


(** The 15 fields of a tracking result, in the order of the result array. *)
Record TrackingResult := {
  tr_h : Q; tr_w : Q; tr_l : Q; tr_x : Q; tr_y : Q; tr_z : Q; tr_theta : Q;
  tr_id : Q; tr_ori : Q; tr_type_id : Q;
  tr_bbox_left : Q; tr_bbox_top : Q; tr_bbox_right : Q; tr_bbox_bottom : Q;
  tr_conf : Q
}.

Definition as_array (r : TrackingResult) : list Q :=
  [tr_h r; tr_w r; tr_l r; tr_x r; tr_y r; tr_z r; tr_theta r; tr_id r;
   tr_ori r; tr_type_id r; tr_bbox_left r; tr_bbox_top r; tr_bbox_right r;
   tr_bbox_bottom r; tr_conf r].

(** The 18 cells [export_result] writes for a result it exports. *)
Definition export_row (r : TrackingResult) (frame : Z) (object_type : string)
    : Csv.row :=
  [Csv.CInt frame; Csv.CInt (Csv.int (tr_id r)); Csv.CStr object_type;
   Csv.CInt 0; Csv.CInt 0; Csv.CNum (tr_ori r);
   Csv.CNum (tr_bbox_left r); Csv.CNum (tr_bbox_top r);
   Csv.CNum (tr_bbox_right r); Csv.CNum (tr_bbox_bottom r);
   Csv.CNum (tr_h r); Csv.CNum (tr_w r); Csv.CNum (tr_l r);
   Csv.CNum (tr_x r); Csv.CNum (tr_y r); Csv.CNum (tr_z r);
   Csv.CNum (tr_theta r); Csv.CNum (tr_conf r)].

(** The arguments of one [export_result] call. *)
Record export_call := {
  ec_result : list Q;
  ec_hypo : Z;
  ec_det_id2str : list (Z * string);
  ec_frame : Z;
  ec_threshold : Q
}.

(** A caller that exports one result after the other and stops at the
    first exception. *)
Fixpoint export_all (self : Csv.CSVExporter) (disk : gmap string Csv.file)
    (calls : list export_call) : result (gmap string Csv.file) :=
  match calls with
  | [] => Ok disk
  | c :: rest =>
      do disk' <- Csv.export_result self disk (ec_result c) (ec_hypo c)
                    (ec_det_id2str c) (ec_frame c) (ec_threshold c);
      export_all self disk' rest
  end.

(** The truncated and occluded columns of a data row hold 0. *)
Definition zero_flags (r : Csv.row) : Prop :=
  r !! 3%nat = Some (Csv.CInt 0) /\ r !! 4%nat = Some (Csv.CInt 0).

(** An export file: UTF-8, the header row first, then data rows. *)
Definition export_file (f : Csv.file) : Prop :=
  Csv.encoding f = "utf-8"
  /\ exists data, Csv.rows f = map Csv.CStr Csv.get_csv_header :: data
                  /\ Forall zero_flags data.

(** The path of the file of a hypothesis. *)
Definition export_path (dir : string) (hypo : Z) (seq_name : string) : string :=
  Csv.path_join dir (Csv.csv_filename hypo seq_name).

(** One car tracked with confidence 0.9. *)
Definition car_result : TrackingResult :=
  {| tr_h := 1.5; tr_w := 1.8; tr_l := 4.5; tr_x := 10; tr_y := 0; tr_z := 30;
     tr_theta := 0.1; tr_id := 1; tr_ori := 0.1; tr_type_id := 2;
     tr_bbox_left := 0; tr_bbox_top := 0; tr_bbox_right := 0;
     tr_bbox_bottom := 0; tr_conf := 0.9 |}%Q.


(** A file as [init_sequence_files] leaves it: opened as UTF-8, holding
    the header row. *)
Definition header_file : Csv.file :=
  {| Csv.encoding := "utf-8";
     Csv.rows := [map Csv.CStr Csv.get_csv_header];
     Csv.closed := false |}.


(** The info row the normalizer builds for an input row, by the column
    count it sees: orientation, 2D box, type id, score. *)
Definition info_of (columns : nat) (type_id : Z) (r : list Q) : list Q :=
  match columns with
  | 15%nat => take 1 (drop 13 r) ++ take 4 (drop 1 r) ++ [inject_Z type_id]
          ++ take 1 (drop 14 r)
  | 8%nat => take 1 (drop 6 r) ++ [0; 0; 0; 0]%Q ++ [inject_Z type_id]
         ++ take 1 (drop 7 r)
  | _ => take 1 (drop 6 r) ++ [0; 0; 0; 0]%Q ++ [inject_Z type_id] ++ [1%Q]
  end.


(** The frame passes both gates of [Core]: the rate limiter and the
    circuit breaker. *)
Definition accepted {C : Type} (s : Live.rtmaps_python C) (e : Live.frame_env)
    : Prop :=
  Qltb (Live.now e - Live.last_process_time s) (Live.min_process_interval s)
  = false
  /\ Z.leb (Live.max_errors s) (Live.error_count s) = false.

(** The host raises nowhere during the frame. *)
Definition quiet (e : Live.frame_env) : Prop :=
  Live.input_fault e = false /\ Live.tracking_block_fault e = false
  /\ Live.output_fault e = false /\ Live.tracks_write_fault e = false
  /\ Live.num_tracks_block_fault e = false
  /\ Live.track_ids_block_fault e = false.


(** The default properties with the error threshold lowered to 1. *)
Definition strict_properties : Live.properties :=
  {| Live.p_dataset := "KITTI"; Live.p_det_name := "pointrcnn";
     Live.p_category := "Car"; Live.p_ID_init := 0;
     Live.p_enable_ego_motion := false; Live.p_verbose := false;
     Live.p_max_fps := 50%Q; Live.p_max_errors := 1;
     Live.p_max_output_tracks := 5 |}.

(** The component born on [strict_properties], after one frame whose
    exception reached the outer handler. *)
Definition tripped : Live.rtmaps_python unit :=
  match Live.Birth (core := idle_core) (Live.__init__ strict_properties) with
  | Ok s => fst (Live.Core (core := idle_core) s (frame_output_fault 100 one_car))
  | Raise _ => Live.__init__ strict_properties
  end.


(** The score the normalizer reads from an input row, by the column count
    it sees: column 14 of the 15-column layout, the 8th column, or the
    default 1. *)
Definition score_of (columns : nat) (r : list Q) : option Q :=
  match columns with
  | 15%nat => r !! 14%nat
  | 8%nat => r !! 7%nat
  | _ => Some 1%Q
  end.


(** The category name [export_result] writes for a result. *)
Definition object_type_of (det_id2str : list (Z * string)) (r : TrackingResult)
    : string :=
  default "" (Csv.lookup_type det_id2str (tr_type_id r)).

(** The rows exported for the results of one hypothesis: one row per
    result whose confidence reaches the threshold, in the order given. *)
Definition exported_rows (det_id2str : list (Z * string)) (frame : Z) (T : Q)
    (rs : list TrackingResult) : list Csv.row :=
  map (fun r => export_row r frame (object_type_of det_id2str r))
    (List.filter (fun r => Qle_bool T (tr_conf r)) rs).

(** Every result has a type id of the table. *)
Definition known_types (det_id2str : list (Z * string))
    (rs : list TrackingResult) : Prop :=
  Forall (fun r => is_Some (Csv.lookup_type det_id2str (tr_type_id r))) rs.

(** A file with further rows appended. *)
Definition with_rows (f : Csv.file) (more : list Csv.row) : Csv.file :=
  {| Csv.encoding := Csv.encoding f; Csv.rows := Csv.rows f ++ more;
     Csv.closed := Csv.closed f |}.


(** A result of confidence 0.3 with a type id of the KITTI table. *)
Definition faint_result : TrackingResult :=
  {| tr_h := 1.6; tr_w := 1.9; tr_l := 4.8; tr_x := 15; tr_y := 0; tr_z := 35;
     tr_theta := 0.2; tr_id := 2; tr_ori := 0.2; tr_type_id := 2;
     tr_bbox_left := 0; tr_bbox_top := 0; tr_bbox_right := 0;
     tr_bbox_bottom := 0; tr_conf := 0.3 |}%Q.

(** The first version of the component after [Birth] on the default
    properties. *)
Definition bridge_born : Bridge.rtmaps_python unit :=
  {| Bridge.tracker := Some kitti_car; Bridge.frame_count := 0;
     Bridge.verbose := false; Bridge.outputs := [] |}.

(** A core that keeps one track whose id is 2^31, one past int32, as a
    tracker started with ID_init = 2^31 gives. *)
Definition wide_id_core : TrackingCore (list Z) :=
  {| core_new := fun _ => Ok [2 ^ 31];
     core_track := fun c _ _ _ => (c, Ok [empty 15]);
     core_trackers := fun c => c;
     core_ID_count := fun _ => 2 ^ 31 + 1;
     core_clear := fun _ => [];
     core_clear_trackers := fun _ => eq_refl |}.

Definition wide_id_tracker : RT.RealtimeTracker (list Z) :=
  {| RT.dataset := "KITTI"; RT.det_name := "pointrcnn";
     RT.category := "Car"; RT.frame_count := 0; RT.tracker := [2 ^ 31];
     RT.det_id2str := RT.kitti_id2str |}.

(** The first version of the component holding that tracker. *)
Definition bridge_wide_id : Bridge.rtmaps_python (list Z) :=
  {| Bridge.tracker := Some (O, wide_id_tracker); Bridge.frame_count := 0;
     Bridge.verbose := false; Bridge.outputs := [] |}.


(** * Properties *)

(** ** Arrays *)

Lemma chunks_length k n l : length (chunks k n l) = n.
Proof. revert l; induction n as [|n IH]; intros l; simpl; [done|]. by rewrite IH. Qed.

Lemma chunks_one_row k (r : list Q) :
  length r = k -> chunks k 1 (concat [r]) = [r].
Proof.
  intros Hk. simpl. rewrite app_nil_r. f_equal.
  apply firstn_all2. lia.
Qed.

Lemma zip_rows_Some xs ys :
  length xs = length ys ->
  exists zs, zip_rows xs ys = Some zs /\ length zs = length xs.
Proof.
  revert ys; induction xs as [|x xs IH]; intros [|y ys] Hlen; simplify_eq/=.
  - by exists [].
  - destruct (IH ys Hlen) as (zs & -> & Hzs). exists ((x ++ y) :: zs).
    split; [done|]. simpl. by rewrite Hzs.
Qed.

Lemma hcat2_Some ca ra cb rb :
  length ra = length rb ->
  exists rs, hcat2 (Mat ca ra) (Mat cb rb) = Some (Mat (ca + cb) rs)
             /\ length rs = length ra.
Proof.
  intros Hlen. destruct (zip_rows_Some ra rb Hlen) as (zs & Hzs & Hl).
  exists zs. split; [|done]. unfold hcat2. by rewrite Hzs.
Qed.

(** Four rank-2 blocks with the same number of rows concatenate to a block
    with that number of rows. *)
Lemma concatenate4_Some c1 r1 c2 r2 c3 r3 c4 r4 n :
  length r1 = n -> length r2 = n -> length r3 = n -> length r4 = n ->
  exists rs,
    concatenate_axis1 [Mat c1 r1; Mat c2 r2; Mat c3 r3; Mat c4 r4]
    = Some (Mat (c1 + (c2 + (c3 + c4))) rs) /\ length rs = n.
Proof.
  intros H1 H2 H3 H4.
  destruct (hcat2_Some c3 r3 c4 r4) as (r34 & E34 & L34); [congruence|].
  destruct (hcat2_Some c2 r2 (c3 + c4) r34) as (r234 & E234 & L234); [congruence|].
  destruct (hcat2_Some c1 r1 (c2 + (c3 + c4)) r234) as (rs & E & L); [congruence|].
  exists rs. split; [|congruence].
  cbn [concatenate_axis1 mbind option_bind].
  rewrite E34. cbn [mbind option_bind]. rewrite E234. cbn [mbind option_bind].
  exact E.
Qed.

Lemma full_rows n c v : length (rows_of (full n c v)) = n.
Proof. simpl. apply repeat_length. Qed.

Lemma ensure_2d_idemp a : ensure_2d (ensure_2d a) = ensure_2d a.
Proof. by destruct a. Qed.

Lemma ensure_2d_rank2 a : ndim a = 2%nat -> ensure_2d a = a.
Proof. by destruct a. Qed.

(** ** The detection normalizer *)

Section Normalizer.
Context {C : Type} {core : TrackingCore C}.
Implicit Types (trk : nat * RT.RealtimeTracker C) (a d : ndarray).

Lemma generate_default_info_Some trk N cd rows scores :
  length rows = N ->
  match scores with
  | Some (Mat _ rs) => length rs = N
  | Some _ => False
  | None => True
  end ->
  exists ci ri,
    Live._generate_default_info (Some trk) N (Mat cd rows) scores
    = Some (Mat ci ri) /\ length ri = N.
Proof.
  intros Hn Hs. unfold Live._generate_default_info.
  cbn [slice_cols mbind option_bind Live.type_id_of fmap option_fmap option_map].
  destruct scores as [[| |cs rs]|]; try done; cbn [from_option id];
    unfold ones, zeros, full.
  - edestruct (concatenate4_Some) as (ri & E & L);
      [| | | | rewrite E; eauto]; rewrite ?length_map, ?repeat_length; done.
  - edestruct (concatenate4_Some) as (ri & E & L);
      [| | | | rewrite E; eauto]; rewrite ?length_map, ?repeat_length; done.
Qed.

Lemma take7_wf (rows : list (list Q)) :
  Forall (fun r => length r = 7%nat) rows ->
  map (fun r => take 7 (drop 0 r)) rows = rows.
Proof.
  induction 1 as [|r rows Hr _ IH]; simpl; [done|].
  rewrite IH. f_equal. apply firstn_all2. lia.
Qed.

(** The dispatch on the column count keeps one detection per input row and
    copies the box from its offset. *)
Lemma by_columns_supported trk c rows :
  Forall (fun r => length r = c) rows ->
  c = 7%nat \/ c = 8%nat \/ c = 15%nat ->
  exists out,
    Live.by_columns (Some trk) (Mat c rows) = Some out
    /\ dets out
       = Mat 7 (map (fun r => take 7 (drop (box_offset (Mat c rows)) r)) rows)
    /\ length (rows_of (info out)) = length rows.
Proof.
  intros Hwf [-> | [-> | ->]]; unfold Live.by_columns;
    cbn [shape_at shape lookup list_lookup mbind option_bind Nat.eqb slice_cols].
  - destruct (generate_default_info_Some trk (length rows) 7 rows None eq_refl I)
      as (ci & ri & E & L).
    rewrite E. cbn [mbind option_bind]. eexists; split; [done|].
    cbn [dets info rows_of box_offset]. by rewrite take7_wf.
  - match goal with
    | |- context [Live._generate_default_info ?t ?n (Mat ?c ?r) ?s] =>
        destruct (generate_default_info_Some trk n c r s) as (ci & ri & E & L);
          [by rewrite ?length_map..|rewrite E]
    end.
    cbn [mbind option_bind]. eexists; split; [done|].
    by cbn [dets info rows_of box_offset].
  - cbn [Live.type_id_of fmap option_fmap option_map mbind option_bind].
    unfold full.
    edestruct (concatenate4_Some) as (ri & E & L);
      [| | | | rewrite E]; rewrite ?length_map, ?repeat_length; try done.
    cbn [mbind option_bind]. eexists; split; [done|].
    by cbn [dets info rows_of box_offset].
Qed.

Lemma chunks_wf k n (l : list Q) :
  length l = (n * k)%nat -> Forall (fun r => length r = k) (chunks k n l).
Proof.
  revert l; induction n as [|n IH]; intros l Hl; simpl; [constructor|].
  constructor.
  - rewrite length_take. lia.
  - apply IH. rewrite length_drop. lia.
Qed.

Lemma unflatten_supported a :
  supported a -> logical_rows a <> [] ->
  Live.unflatten a = Some (Mat (columns_seen a) (logical_rows a)).
Proof.
  intros [Hwf Hsup] Hne. destruct a as [|l|c rows]; [done| |].
  - (* a rank-1 buffer of 8k entries *)
    change (length l mod 8 = 0)%nat in Hsup. unfold Live.unflatten.
    cbn [shape_at shape lookup list_lookup mbind option_bind ndim length
         Nat.eqb andb].
    rewrite Hsup. cbn [Nat.eqb]. unfold reshape. cbn [flat].
    assert (length l = (length l / 8 * 8)%nat) as Hlen
      by (pose proof (Nat.div_mod_eq (length l) 8); lia).
    rewrite <- Hlen, Nat.eqb_refl. done.
  - (* a rank-2 array of 7, 8 or 15 columns *)
    cbn [wf logical_rows] in Hwf, Hne. unfold Live.unflatten.
    cbn [shape_at shape lookup list_lookup mbind option_bind ndim length
         Nat.eqb andb columns_seen logical_rows].
    destruct rows as [|r [|r' rows]]; [done| |done].
    apply Forall_cons in Hwf as [Hr _].
    destruct Hsup as [-> | [-> | ->]]; [done| |done].
    cbn [length Nat.eqb]. unfold reshape. cbn [flat].
    replace (length (concat [r])) with 8%nat
      by (simpl; rewrite app_nil_r; done).
    change (8 mod 8)%nat with 0%nat. change (8 / 8)%nat with 1%nat.
    cbn [Nat.eqb Nat.mul Nat.add]. by rewrite chunks_one_row.
Qed.

Lemma logical_rows_wf a :
  supported a -> Forall (fun r => length r = columns_seen a) (logical_rows a).
Proof.
  intros [Hwf Hsup]. destruct a as [|l|c rows]; [done| |done].
  change (length l mod 8 = 0)%nat in Hsup.
  cbn [logical_rows columns_seen]. apply chunks_wf.
  pose proof (Nat.div_mod_eq (length l) 8). lia.
Qed.

Lemma logical_rows_nonempty a :
  supported a -> shape_at a 0 <> Some 0%nat -> logical_rows a <> [].
Proof.
  intros [Hwf Hsup] Hn. destruct a as [|l|c rows]; [done| |].
  - change (length l mod 8 = 0)%nat in Hsup. cbn in Hn.
    cbn [logical_rows]. intros Hc.
    apply (f_equal length) in Hc. rewrite chunks_length in Hc.
    cbn [length] in Hc.
    pose proof (Nat.div_mod_eq (length l) 8).
    assert (length l = 0%nat) as Hl by lia. by rewrite Hl in Hn.
  - cbn in Hn. cbn [logical_rows]. intros ->. done.
Qed.

Lemma logical_rows_empty a :
  supported a -> shape_at a 0 = Some 0%nat -> logical_rows a = [].
Proof.
  intros [Hwf Hsup] Hn. destruct a as [|l|c rows]; [done| |].
  - cbn in Hn. destruct l; [done|]. by simplify_eq/=.
  - cbn in Hn. destruct rows; [done|]. by simplify_eq/=.
Qed.

Lemma dims_nonneg_box off (rows : list (list Q)) :
  dims_nonneg (map (drop off) rows) ->
  dims_nonneg (map (fun r => take 7 (drop off r)) rows).
Proof.
  unfold dims_nonneg. rewrite !Forall_map. intros Hin.
  eapply Forall_impl; [exact Hin|].
  intros r Hr. simpl in *. by rewrite take_take.
Qed.

(** Before the handler: a supported input parses, with one detection per
    logical object and the box copied from the input. *)
Lemma parse_ndarray_supported trk a :
  supported a ->
  exists out,
    Live.parse_ndarray (Some trk) a = Some out
    /\ dets out
       = Mat 7 (map (fun r => take 7 (drop (box_offset a) r)) (logical_rows a))
    /\ length (rows_of (info out)) = logical_objects a.
Proof.
  intros Hsup. unfold Live.parse_ndarray, logical_objects.
  destruct (shape_at a 0) as [n0|] eqn:Hn0;
    [|by destruct Hsup as [_ Hsup]; destruct a].
  cbn [mbind option_bind]. destruct (Nat.eqb_spec n0 0) as [->|Hnz].
  - (* no object: the empty detections *)
    exists empty_dets_all. by rewrite (logical_rows_empty a Hsup Hn0).
  - assert (logical_rows a <> []) as Hne
      by (apply logical_rows_nonempty; [done|congruence]).
    rewrite (unflatten_supported a Hsup Hne). cbn [mbind option_bind].
    destruct (by_columns_supported trk (columns_seen a) (logical_rows a))
      as (out & E & Hd & Hi).
    + by apply logical_rows_wf.
    + destruct Hsup as [_ Hsup]. destruct a as [|l|c rows]; [done| |done].
      cbn. tauto.
    + exists out. split; [done|]. split; [|done].
      rewrite Hd. do 2 f_equal.
      destruct Hsup as [_ Hsup].
      destruct a as [|l|c rows]; [done|done|]. done.
Qed.

(** C3, as the code has it: for every supported input the normalizer
    returns one detection, and one info row, per logical object of the
    input; the box of each detection, its height, width and length
    included, is copied unchanged from the input, so the dimensions are
    non-negative whenever those of the input are. *)
Theorem normalizer_count_and_passthrough trk a :
  supported a ->
  let out := Live._parse_detection_input (Some trk) (PyArray a) in
  dets out = Mat 7 (map (fun r => take 7 (drop (box_offset a) r)) (logical_rows a))
  /\ length (rows_of (dets out)) = logical_objects a
  /\ length (rows_of (info out)) = logical_objects a
  /\ (dims_nonneg (map (drop (box_offset a)) (logical_rows a)) ->
      dims_nonneg (rows_of (dets out))).
Proof.
  intros Hsup out.
  destruct (parse_ndarray_supported trk a Hsup) as (o & E & Hd & Hi).
  assert (out = o) as -> by (unfold out, Live._parse_detection_input; by rewrite E).
  split; [done|]. split; [|split; [done|]].
  - rewrite Hd. cbn [rows_of]. by rewrite length_map.
  - rewrite Hd. cbn [rows_of]. apply dims_nonneg_box.
Qed.

(** C9: a payload that is already the canonical structure, a dict whose
    "dets" and "info" are rank-2 arrays, comes back unchanged: both fields
    are returned as they are, and the returned dict is the input itself
    when the input has just these two fields. Both versions of the
    component agree on it. *)
Theorem normalize_canonical_unchanged
    (trk : option (nat * RT.RealtimeTracker C)) (p : gmap string ndarray) a b :
  p !! "dets" = Some a -> p !! "info" = Some b ->
  ndim a = 2%nat -> ndim b = 2%nat ->
  let out := Live._parse_detection_input trk (PyDict p) in
  dets out = a /\ info out = b
  /\ (dom p = ({["dets"; "info"]} : gset string) -> as_dict out = p)
  /\ Bridge._parse_detection_input trk (PyDict p) = Some out.
Proof.
  intros Ha Hb Hra Hrb out.
  assert (out = {| dets := a; info := b |}) as ->.
  { unfold out, Live._parse_detection_input. rewrite Ha, Hb.
    by rewrite !ensure_2d_rank2. }
  split; [done|]. split; [done|]. split.
  - intros Hdom. apply map_eq. intros k. unfold as_dict. cbn [dets info].
    destruct (decide (k = "dets")) as [->|Hk1]; [by rewrite lookup_insert_eq|].
    rewrite lookup_insert_ne by done.
    destruct (decide (k = "info")) as [->|Hk2]; [by rewrite lookup_insert_eq|].
    rewrite lookup_insert_ne by done. rewrite lookup_empty. symmetry.
    apply not_elem_of_dom.
    rewrite Hdom, elem_of_union, !elem_of_singleton. tauto.
  - unfold Bridge._parse_detection_input. rewrite Ha, Hb.
    by rewrite !ensure_2d_rank2.
Qed.

(** Normalizing the normalizer's own output changes nothing, whatever the
    first payload was. *)
Lemma normalize_idempotent (trk : option (nat * RT.RealtimeTracker C)) p :
  let out := Live._parse_detection_input trk p in
  ndim (dets out) = 2%nat -> ndim (info out) = 2%nat ->
  Live._parse_detection_input trk (PyDict (as_dict out)) = out.
Proof.
  intros out Hd Hi. unfold Live._parse_detection_input at 1, as_dict.
  rewrite lookup_insert_eq, lookup_insert_ne, lookup_insert_eq by done.
  cbn [from_option id]. rewrite !ensure_2d_rank2 by done. by destruct out.
Qed.

End Normalizer.

Lemma normalizer_count_and_passthrough_witness :
  let a := Vec [1.5; 1.8; 4.5; 10; 0; 30; 0.1; 0.9;
                1.6; 1.9; 4.8; 15; 0; 35; 0.2; 0.8]%Q in
  supported a
  /\ length (rows_of (dets (Live._parse_detection_input (Some kitti_car)
                             (PyArray a)))) = 2%nat.
Proof.
  intros a.
  assert (supported a) as Hsup by (split; [exact I|reflexivity]).
  split; [exact Hsup|].
  exact (proj1 (proj2 (normalizer_count_and_passthrough kitti_car a Hsup))).
Defined.

(** C3 as stated fails: the normalizer does not look at the sign of a
    dimension. A 7-column row with height -1 yields a detection with
    height -1. *)
Lemma normalizer_negative_dimension :
  let a := Mat 7 [[-1; 1.8; 4.5; 10; 0; 30; 0.1]%Q] in
  supported a
  /\ dets (Live._parse_detection_input (Some kitti_car) (PyArray a)) = a
  /\ ~ dims_nonneg
        (rows_of (dets (Live._parse_detection_input (Some kitti_car)
                          (PyArray a)))).
Proof.
  intros a. split; [|split].
  - split; [by repeat constructor|by left].
  - reflexivity.
  - change (~ dims_nonneg [[-1; 1.8; 4.5; 10; 0; 30; 0.1]%Q]).
    intros Hd. apply Forall_cons in Hd as [Hd _].
    apply Forall_cons in Hd as [Hd _]. by compute in Hd.
Qed.

Lemma normalize_canonical_unchanged_witness :
  let a := Mat 7 [[1.5; 1.8; 4.5; 10; 0; 30; 0.1]%Q] in
  let b := Mat 7 [[0.1; 0; 0; 0; 0; 2; 0.9]%Q] in
  let p : gmap string ndarray := <["dets" := a]> (<["info" := b]> ∅) in
  dets (Live._parse_detection_input (Some kitti_car) (PyDict p)) = a
  /\ info (Live._parse_detection_input (Some kitti_car) (PyDict p)) = b.
Proof.
  intros a b p.
  pose proof (normalize_canonical_unchanged (Some kitti_car) p a b
                eq_refl eq_refl eq_refl eq_refl) as Hn.
  exact (conj (proj1 Hn) (proj1 (proj2 Hn))).
Defined.

(** ** The session of [RealtimeTracker] *)

Section Session.
Context {C : Type} {core : TrackingCore C}.
Implicit Types (self : RT.RealtimeTracker C).

Lemma init_frame_count args self :
  RT.__init__ args = Ok self -> RT.frame_count self = 0.
Proof.
  unfold RT.__init__. destruct (core_new args) as [c|]; [|done]. cbn [bind].
  repeat case_match; cbn [bind]; intros; by simplify_eq.
Qed.

(** A call that does not raise advances the counter by one, whatever
    frame index the caller supplied. *)
Lemma track_frame_advances self d frame_idx additional_info self' r :
  RT.track_frame self d frame_idx additional_info = (self', r) ->
  ~ raised r ->
  RT.frame_count self' = RT.frame_count self + 1.
Proof.
  unfold RT.track_frame. intros Ht Hr.
  destruct (len d) as [n0|]; [|by simplify_eq].
  match type of Ht with
  | context [match ?prep with Ok _ => _ | Raise _ => _ end] =>
      destruct prep as [da|]; [|by simplify_eq]
  end.
  destruct (core_track _ _ _ _) as [core' [results|]]; by simplify_eq.
Qed.

(** Without a frame index the call uses the counter: it is the call with
    the counter's value as the index. *)
Lemma track_frame_default_index self d additional_info :
  RT.track_frame self d None additional_info
  = RT.track_frame self d (Some (RT.frame_count self)) additional_info.
Proof. reflexivity. Qed.

Lemma track_frames_count self calls self' rs :
  track_frames self calls = (self', rs) ->
  Forall (fun r => ~ raised r) rs ->
  RT.frame_count self' = RT.frame_count self + Z.of_nat (length calls).
Proof.
  revert self self' rs.
  induction calls as [|[[d fi] ai] calls IH]; intros self self' rs Hrun Hok.
  - simpl in *. simplify_eq. lia.
  - cbn [track_frames] in Hrun.
    destruct (RT.track_frame self d fi ai) as [self1 r] eqn:Hstep.
    destruct (track_frames self1 calls) as [self2 rs'] eqn:Hrest.
    simplify_eq. apply Forall_cons in Hok as [Hr Hrs].
    rewrite (IH _ _ _ Hrest Hrs), (track_frame_advances _ _ _ _ _ _ Hstep Hr).
    cbn [length]. lia.
Qed.

(** C8: in a fresh session, N frames processed without a reset leave the
    counter at N, whether or not the caller supplied frame indices of its
    own; after [reset] the counter is 0. *)
Theorem session_frame_counter args self0 calls self rs :
  RT.__init__ args = Ok self0 ->
  track_frames self0 calls = (self, rs) ->
  Forall (fun r => ~ raised r) rs ->
  RT.frame_count self = Z.of_nat (length calls)
  /\ RT.frame_count (RT.reset self) = 0.
Proof.
  intros Hinit Hrun Hok. split; [|done].
  rewrite (track_frames_count _ _ _ _ Hrun Hok), (init_frame_count _ _ Hinit).
  lia.
Qed.

End Session.

Lemma session_frame_counter_witness :
  let d := Mat 7 [[1.5; 1.8; 4.5; 10; 0; 30; 0.1]%Q] in
  let calls := [(d, None, None); (d, Some 41, None); (empty 7, None, None)] in
  RT.frame_count (fst (track_frames (core := idle_core) (snd kitti_car) calls)) = 3
  /\ RT.frame_count
       (RT.reset (core := idle_core)
          (fst (track_frames (core := idle_core) (snd kitti_car) calls))) = 0.
Proof.
  intros d calls.
  refine (session_frame_counter (core := idle_core)
            (Live.tracker_args_of default_properties) (snd kitti_car) calls
            _ (snd (track_frames (core := idle_core) (snd kitti_car) calls))
            eq_refl _ _).
  - reflexivity.
  - repeat (constructor; [exact (fun x => x)|]). constructor.
Defined.

(** ** Faults of the tracking step *)

Section Faults.
Context {C : Type} {core : TrackingCore C}.

Lemma limit_output_empty : Live.limit_output (empty 15) = Ok (empty 15, O).
Proof. reflexivity. Qed.

Lemma tracking_step_fault (e : Live.frame_env) dets_data frame_idx :
  Live.tracking_block_fault e = true ->
  exists invoked, Live.tracking_step e dets_data frame_idx = (empty 15, invoked).
Proof.
  intros Hfault. unfold Live.tracking_step. rewrite Hfault.
  repeat case_match; eauto.
Qed.

Lemma periodic_reset_error_count (s : Live.rtmaps_python C) :
  Live.error_count (Live.periodic_reset s) = Live.error_count s.
Proof. unfold Live.periodic_reset. by repeat case_match. Qed.

Lemma periodic_reset_outputs (s : Live.rtmaps_python C) :
  Live.outputs (Live.periodic_reset s) = Live.outputs s.
Proof. unfold Live.periodic_reset. by repeat case_match. Qed.

Lemma write_outputs_error_count (e : Live.frame_env) t out n ids
    (s : Live.rtmaps_python C) :
  Live.error_count (Live.write_outputs e t out n ids s) = Live.error_count s.
Proof. unfold Live.write_outputs. by repeat case_match. Qed.

Lemma write_outputs_frame_count (e : Live.frame_env) t out n ids
    (s : Live.rtmaps_python C) :
  Live.frame_count (Live.write_outputs e t out n ids s) = Live.frame_count s.
Proof. unfold Live.write_outputs. by repeat case_match. Qed.

Lemma write_outputs_outputs (e : Live.frame_env) t out n ids
    (s : Live.rtmaps_python C) :
  Live.outputs (Live.write_outputs e t out n ids s)
  = Live.outputs s
    ++ (if Live.tracks_write_fault e then
          if Live.minimal_write_fault e then []
          else [{| Live.port := "tracks"; Live.ts := t;
                   Live.data := Live.Tracks (empty 15) |}]
        else [{| Live.port := "tracks"; Live.ts := t;
                 Live.data := Live.Tracks out |}])
    ++ (if Live.num_tracks_block_fault e then []
        else [{| Live.port := "num_tracks"; Live.ts := t;
                 Live.data := Live.NumTracks n |}])
    ++ (if Live.track_ids_block_fault e || negb (forallb Live.fits_int32 ids)
        then []
        else [{| Live.port := "track_ids"; Live.ts := t;
                 Live.data := Live.TrackIds ids |}]).
Proof.
  unfold Live.write_outputs.
  repeat case_match; cbn [Live.outputs Live.write];
    by rewrite <- ?app_assoc, ?app_nil_r.
Qed.

(** C4, as the code has it. In the live component a fault raised in the
    tracking step is handled on the spot, for every frame that gets there:
    one that passes the rate limiter and the breaker, after [Birth], whose
    input element has data, with nothing raised before or after the step.
    [Core] completes the frame with the empty 0x15 result, emits it when
    the write on the tracks output succeeds, and counts no error. The
    batch entry point [track_frame] has no handler: it raises ValueError
    on a rank-2 input of at least one row whose column count is neither 7
    nor 8, and whenever the core raises on the prepared input, the same
    exception leaves [track_frame]. *)
Theorem tracking_fault_recovered (s : Live.rtmaps_python C) (e : Live.frame_env)
    timestamp input_data v
    (self : RT.RealtimeTracker C) frame_idx additional_info :
  Qltb (Live.now e - Live.last_process_time s) (Live.min_process_interval s) = false ->
  Z.leb (Live.max_errors s) (Live.error_count s) = false ->
  Live.input_fault e = false -> Live.output_fault e = false ->
  Live.det_has_data e = true ->
  Live.det_ioelt e = Some (timestamp, Some input_data) ->
  Live.verbose s = Some v ->
  (v = true ->
   is_Some (len (dets (Live._parse_detection_input (Live.tracker s) input_data)))) ->
  Live.tracking_block_fault e = true ->
  (exists s' invoked,
      Live.Core s e
      = (s', Live.Processed (default (Live.frame_count s) (Live.frame_idx_in e))
                invoked (empty 15))
      /\ Live.error_count s' = 0
      /\ (Live.tracks_write_fault e = false ->
          Live.outputs s' !! length (Live.outputs s)
          = Some {| Live.port := "tracks"; Live.ts := timestamp;
                    Live.data := Live.Tracks (empty 15) |}))
  /\ (forall c (rows : list (list Q)),
        rows <> [] -> c <> 7%nat -> c <> 8%nat ->
        RT.track_frame self (Mat c rows) frame_idx additional_info
        = (self, Raise (ValueError "Invalid detection shape")))
  /\ (forall d n0 prepared core' x,
        len d = Some n0 ->
        (if Nat.eqb n0 0 then Ok {| dets := empty 7; info := empty 7 |}
         else RT.prepare self d additional_info) = Ok prepared ->
        core_track (RT.tracker self) prepared
          (default (RT.frame_count self) frame_idx) "realtime"
        = (core', Raise x) ->
        RT.track_frame self d frame_idx additional_info
        = (RT.set_tracker core' self, Raise x)).
Proof.
  intros Hrate Hbreak Hin Hout Hdata Hio Hverb Hlen Hfault. split; [|split].
  - unfold Live.Core. rewrite Hrate, Hbreak.
    unfold Live.Core_body.
    cbn [Live.input_fault Live.det_has_data Live.det_ioelt Live.verbose
         Live.set_error_count Live.output_fault Live.frame_idx_in
         Live.tracker Live.frame_count].
    rewrite Hin, Hdata, Hio, Hverb, Hout. cbn [negb].
    assert (v && negb (is_Some_b
                         (len (dets (Live._parse_detection_input
                                       (Live.tracker s) input_data))))
            = false) as ->.
    { destruct v; [|done]. by destruct (Hlen eq_refl) as [n ->]. }
    match goal with
    | |- context [Live.tracking_step e ?dd ?fi] =>
        destruct (tracking_step_fault e dd fi Hfault) as [inv ->]
    end.
    rewrite limit_output_empty. cbn [Nat.ltb Nat.leb andb].
    eexists _, inv. split; [reflexivity|]. split.
    + by rewrite periodic_reset_error_count; cbn [Live.error_count Live.set_timing];
        rewrite write_outputs_error_count.
    + intros Hw. rewrite periodic_reset_outputs.
      cbn [Live.outputs Live.set_timing].
      rewrite write_outputs_outputs, Hw.
      cbn [Live.outputs Live.set_error_count].
      by rewrite lookup_app_r, Nat.sub_diag by lia.
  - intros c rows Hne H7 H8. unfold RT.track_frame.
    destruct rows as [|r0 rows]; [done|].
    cbn [len shape_at shape lookup list_lookup length Nat.eqb].
    unfold RT.prepare.
    cbn [shape_at shape lookup list_lookup or_raise bind].
    destruct (Nat.eqb_spec c 8); [done|]. by destruct (Nat.eqb_spec c 7).
  - intros d n0 prepared core' x Hd Hprep Hcore. unfold RT.track_frame.
    by rewrite Hd, Hprep, Hcore.
Qed.

End Faults.

Lemma tracking_fault_recovered_witness :
  (exists s' invoked,
      Live.Core (core := faulty_core) born (frame_tracking_fault 100 two_cars)
      = (s', Live.Processed 0 invoked (empty 15))
      /\ Live.error_count s' = 0)
  /\ RT.track_frame (core := faulty_core) (snd kitti_car)
       (Mat 5 [[1; 2; 3; 4; 5]%Q]) None None
     = (snd kitti_car, Raise (ValueError "Invalid detection shape"))
  /\ snd (RT.track_frame (core := faulty_core) (snd kitti_car)
            (Mat 7 [[1.5; 1.8; 4.5; 10; 0; 30; 0.1]%Q]) None None)
     = Raise CoreFault.
Proof.
  destruct (tracking_fault_recovered (core := faulty_core) born
              (frame_tracking_fault 100 two_cars) 0 two_cars false
              (snd kitti_car) None None
              eq_refl eq_refl eq_refl eq_refl eq_refl eq_refl eq_refl
              ltac:(discriminate) eq_refl)
    as [(s' & invoked & Hcore & Herr & _) [Hshape Hbatch]].
  split; [|split].
  - exists s', invoked. exact (conj Hcore Herr).
  - apply Hshape; discriminate.
  - rewrite (Hbatch (Mat 7 [[1.5; 1.8; 4.5; 10; 0; 30; 0.1]%Q]) 1%nat _ tt CoreFault
               eq_refl eq_refl eq_refl).
    reflexivity.
Defined.

(** C4 as stated fails for batch callers: [track_frame] raises ValueError
    on an input of 5 columns, and a fault of the core comes out of
    [track_frame] as it was raised. *)
Lemma batch_caller_receives_exception :
  snd (RT.track_frame (core := idle_core) (snd kitti_car)
         (Mat 5 [[1; 2; 3; 4; 5]%Q]) None None)
  = Raise (ValueError "Invalid detection shape")
  /\ snd (RT.track_frame (core := faulty_core) (snd kitti_car)
            (Mat 7 [[1.5; 1.8; 4.5; 10; 0; 30; 0.1]%Q]) None None)
     = Raise CoreFault.
Proof. split; reflexivity. Qed.

(** ** The resilience policy of the live component *)

Lemma Qltb_lt x y : Qltb x y = true <-> (x < y)%Q.
Proof.
  unfold Qltb. rewrite negb_true_iff. split.
  - intros Hb. apply Qnot_le_lt. intros Hle%Qle_bool_iff. congruence.
  - intros Hlt. apply not_true_is_false. intros Hle%Qle_bool_iff.
    by apply Qle_not_lt in Hle.
Qed.

Section Resilience.
Context {C : Type} {core : TrackingCore C}.
Implicit Types (s : Live.rtmaps_python C) (e : Live.frame_env).

(** The five ways through [Core]. *)
Lemma Core_cases s e :
  (Qltb (Live.now e - Live.last_process_time s) (Live.min_process_interval s) = true
   /\ Live.Core s e = (s, Live.RateLimited))
  \/ (Qltb (Live.now e - Live.last_process_time s) (Live.min_process_interval s) = false
      /\ (Z.leb (Live.max_errors s) (Live.error_count s) = true
          /\ Live.Core s e = (s, Live.CircuitOpen)
          \/ Z.leb (Live.max_errors s) (Live.error_count s) = false
             /\ (Live.Core s e = (Live.set_error_count 0 s, Live.NoData)
                 \/ (exists invoked,
                        Live.Core s e
                        = (Live.on_error (Live.set_error_count 0 s) e,
                           Live.Failed invoked))
                 \/ (exists timestamp input_data invoked tracking_results out n,
                        Live.det_ioelt e = Some (timestamp, Some input_data)
                        /\ Live.limit_output tracking_results = Ok (out, n)
                        /\ Live.Core s e
                           = (Live.completed s e timestamp out n,
                              Live.Processed
                                (default (Live.frame_count s) (Live.frame_idx_in e))
                                invoked tracking_results))))).
Proof.
  unfold Live.Core.
  destruct (Qltb _ _); [by left|right; split; [done|]].
  destruct (Z.leb _ _); [by left|right; split; [done|]].
  unfold Live.Core_body.
  destruct (Live.input_fault e); [right; left; eauto|].
  destruct (Live.det_has_data e); cbn [negb]; [|by left].
  destruct (Live.det_ioelt e) as [[timestamp [input_data|]]|]; [|by left..].
  cbn [Live.verbose Live.set_error_count].
  destruct (Live.verbose s) as [v|]; [|right; left; eauto].
  destruct (v && _); [right; left; eauto|].
  destruct (Live.tracking_step _ _ _) as [tracking_results invoked].
  destruct (Live.output_fault e); [right; left; eauto|].
  destruct (Live.limit_output tracking_results) as [[out n]|] eqn:Hlim;
    [|right; left; eauto].
  destruct (_ && _); [right; left; eauto|].
  right; right. exists timestamp, input_data, invoked, tracking_results, out, n.
  split; [done|]. split; [done|].
  unfold Live.completed. cbn [Live.frame_count Live.tracker Live.set_error_count].
  by rewrite write_outputs_frame_count.
Qed.

(** What a completed frame leaves in each field. *)
Lemma completed_fields s e timestamp out n :
  let s' := Live.completed s e timestamp out n in
  Live.last_process_time s' = Live.now e
  /\ Live.min_process_interval s' = Live.min_process_interval s
  /\ Live.max_errors s' = Live.max_errors s
  /\ Live.error_count s' = 0
  /\ Live.frame_count s' = Live.frame_count s + 1
  /\ Live.props s' = Live.props s.
Proof.
  unfold Live.completed, Live.periodic_reset, Live.write_outputs.
  by repeat case_match.
Qed.

Lemma completed_outputs s e timestamp out n :
  Live.outputs (Live.completed s e timestamp out n)
  = Live.outputs s
    ++ (if Live.tracks_write_fault e then
          if Live.minimal_write_fault e then []
          else [{| Live.port := "tracks"; Live.ts := timestamp;
                   Live.data := Live.Tracks (empty 15) |}]
        else [{| Live.port := "tracks"; Live.ts := timestamp;
                 Live.data := Live.Tracks out |}])
    ++ (if Live.num_tracks_block_fault e then []
        else [{| Live.port := "num_tracks"; Live.ts := timestamp;
                 Live.data := Live.NumTracks n |}])
    ++ (if Live.track_ids_block_fault e
           || negb (forallb Live.fits_int32
                      (default [] (RT.get_active_tracks ∘ snd <$> Live.tracker s)))
        then []
        else [{| Live.port := "track_ids"; Live.ts := timestamp;
                 Live.data :=
                   Live.TrackIds
                     (default [] (RT.get_active_tracks ∘ snd <$> Live.tracker s)) |}]).
Proof.
  unfold Live.completed. rewrite periodic_reset_outputs.
  cbn [Live.outputs Live.set_timing]. by rewrite write_outputs_outputs.
Qed.

Lemma completed_tracker s e timestamp out n :
  let s' := Live.completed s e timestamp out n in
  match RT.__init__ (Live.tracker_args_of (Live.props s)) with
  | Ok t =>
      if Z.eqb ((Live.frame_count s + 1) mod 100) 0
      then Live.tracker s' = Some (Live.constructed s, t)
           /\ Live.constructed s' = S (Live.constructed s)
      else Live.tracker s' = Live.tracker s
           /\ Live.constructed s' = Live.constructed s
  | Raise _ =>
      Live.tracker s' = Live.tracker s
      /\ Live.constructed s' = Live.constructed s
  end.
Proof.
  intros s'. subst s'. unfold Live.completed.
  set (s1 := Live.write_outputs _ _ _ _ _ _).
  assert (Live.props s1 = Live.props s /\ Live.tracker s1 = Live.tracker s
          /\ Live.constructed s1 = Live.constructed s) as (Hp & Ht & Hc)
    by (unfold s1, Live.write_outputs; by repeat case_match).
  unfold Live.periodic_reset.
  cbn [Live.frame_count Live.set_timing Live.props]. rewrite Hp.
  destruct (RT.__init__ _) as [t|x]; destruct (Z.eqb _ 0);
    cbn [Live.tracker Live.constructed Live.set_new_tracker Live.set_timing];
    by rewrite ?Ht, ?Hc.
Qed.

(** A frame that is not completed changes at most the error count and the
    outputs. *)
Lemma on_error_fields s e :
  let s' := Live.on_error (Live.set_error_count 0 s) e in
  Live.last_process_time s' = Live.last_process_time s
  /\ Live.min_process_interval s' = Live.min_process_interval s
  /\ Live.max_errors s' = Live.max_errors s
  /\ Live.error_count s' = 1
  /\ Live.frame_count s' = Live.frame_count s
  /\ Live.tracker s' = Live.tracker s.
Proof. unfold Live.on_error. by repeat case_match. Qed.

Lemma on_error_outputs s e :
  Forall at_most_one_row (Live.outputs s) ->
  Forall at_most_one_row (Live.outputs (Live.on_error (Live.set_error_count 0 s) e)).
Proof.
  intros Hs. unfold Live.on_error.
  case_match; cbn [Live.outputs Live.set_error_count Live.write]; try done.
  rewrite <- !app_assoc. apply Forall_app. split; [done|].
  repeat constructor. exists O. split; [done|lia].
Qed.

Lemma limit_output_at_most_one r out k :
  Live.limit_output r = Ok (out, k) ->
  exists n, len out = Some n /\ (n <= 1)%nat.
Proof.
  unfold Live.limit_output.
  destruct (len r) as [n0|]; [|done]. cbn [or_raise bind].
  match goal with |- context [len ?r1] => destruct (len r1) as [n1|] end;
    [|done].
  cbn [or_raise bind].
  match goal with |- context [len ?r2] => destruct (len r2) as [n2|] eqn:Hr2 end;
    [|done].
  cbn [or_raise bind]. intros [= <- <-].
  destruct (Nat.ltb_spec 1 n2); [exists O; split; [done|lia]|].
  exists n2. split; [done|lia].
Qed.

(** With more than one result, what is emitted is the first result alone. *)
Lemma limit_output_first r n :
  len r = Some n -> (1 < n)%nat ->
  Live.limit_output r = Ok (Live.take_rows 1 r, 1%nat).
Proof.
  intros Hlen Hn. destruct r as [|l|c rows]; [done| |].
  - destruct l as [|x [|y l]]; cbn in Hlen; simplify_eq; [lia..|done].
  - destruct rows as [|x [|y rows]]; cbn in Hlen; simplify_eq; [lia..|done].
Qed.

Lemma Core_outputs s e :
  Forall at_most_one_row (Live.outputs s) ->
  Forall at_most_one_row (Live.outputs (fst (Live.Core s e))).
Proof.
  intros Hs.
  destruct (Core_cases s e)
    as [[_ ->]|[_ [[_ ->]|[_ [->|[[inv ->]|
          (ts & input & inv & r & out & n & _ & Hlim & ->)]]]]]];
    cbn [fst]; try done.
  - by apply on_error_outputs.
  - rewrite completed_outputs. apply Forall_app. split; [done|].
    apply Forall_app. split; [|apply Forall_app; split; by repeat case_match;
                                 repeat constructor].
    repeat case_match; repeat constructor.
    + exists O. split; [done|lia].
    + by apply (limit_output_at_most_one r out n).
Qed.

(** C10: no element written on the tracks output carries more than one
    row, however many detections came in; when the tracking step yields
    more than one result, the element emitted for the frame is the first
    result alone. *)
Theorem tracks_output_capped s es :
  Forall at_most_one_row (Live.outputs s) ->
  Forall at_most_one_row (Live.outputs (fst (Live.run s es)))
  /\ (forall e s' frame_idx invoked tracking_results n,
        Live.Core s e = (s', Live.Processed frame_idx invoked tracking_results) ->
        len tracking_results = Some n -> (1 < n)%nat ->
        Live.tracks_write_fault e = false ->
        exists timestamp,
          Live.outputs s' !! length (Live.outputs s)
          = Some {| Live.port := "tracks"; Live.ts := timestamp;
                    Live.data := Live.Tracks (Live.take_rows 1 tracking_results) |}).
Proof.
  intros Hs. split.
  - revert s Hs. induction es as [|e es IH]; intros s Hs; [done|].
    cbn [Live.run]. pose proof (Core_outputs s e Hs) as H1.
    destruct (Live.Core s e) as [s1 o]. specialize (IH s1 H1).
    by destruct (Live.run s1 es).
  - intros e s' idx inv r n Hcore Hlen Hn Hw.
    destruct (Core_cases s e)
      as [[_ E]|[_ [[_ E]|[_ [E|[[inv' E]|
            (ts & input & inv' & r' & out & k & _ & Hlim & E)]]]]]];
      rewrite E in Hcore; simplify_eq.
    rewrite (limit_output_first _ _ Hlen Hn) in Hlim. simplify_eq.
    exists ts. rewrite completed_outputs, Hw.
    by rewrite lookup_app_r, Nat.sub_diag by lia.
Qed.

(** C2, as the code has it: a completed frame advances the component's
    frame counter by one and never restarts it; the frame index of the
    frame is the counter's value on entry unless the host supplied one.
    When the advanced counter is a multiple of 100 and the constructor of
    [RealtimeTracker] succeeds on the properties, the component drops the
    tracker it held for the newly constructed object, whose own frame
    counter is 0; otherwise it keeps the tracker it held. *)
Theorem periodic_reset_new_instance s e s' frame_idx invoked tracking_results t :
  Live.Core s e = (s', Live.Processed frame_idx invoked tracking_results) ->
  RT.__init__ (Live.tracker_args_of (Live.props s)) = Ok t ->
  frame_idx = default (Live.frame_count s) (Live.frame_idx_in e)
  /\ Live.frame_count s' = Live.frame_count s + 1
  /\ ((Live.frame_count s + 1) mod 100 = 0 ->
      Live.tracker s' = Some (Live.constructed s, t)
      /\ Live.constructed s' = S (Live.constructed s)
      /\ RT.frame_count t = 0)
  /\ ((Live.frame_count s + 1) mod 100 <> 0 ->
      Live.tracker s' = Live.tracker s
      /\ Live.constructed s' = Live.constructed s).
Proof.
  intros Hcore Hinit.
  destruct (Core_cases s e)
    as [[_ E]|[_ [[_ E]|[_ [E|[[inv' E]|
          (ts & input & inv' & r' & out & k & _ & Hlim & E)]]]]]];
    rewrite E in Hcore; simplify_eq.
  split; [done|].
  destruct (completed_fields s e ts out k) as (_ & _ & _ & _ & Hfc & _).
  split; [done|].
  pose proof (completed_tracker s e ts out k) as Ht. cbn zeta in Ht.
  rewrite Hinit in Ht.
  destruct (Z.eqb_spec ((Live.frame_count s + 1) mod 100) 0) as [Hz|Hnz].
  - split; [|done]. intros _. destruct Ht as [Ht Hc].
    split; [done|]. split; [done|]. by apply (init_frame_count _ _ Hinit).
  - split; [done|]. by intros _.
Qed.

(** A step that is skipped keeps the state; any other step leaves the
    error count at 0 or at 1. *)
Lemma Core_error_count s e :
  fst (Live.Core s e) = s
  \/ Live.error_count (fst (Live.Core s e)) = 0
  \/ Live.error_count (fst (Live.Core s e)) = 1.
Proof.
  destruct (Core_cases s e)
    as [[_ ->]|[_ [[_ ->]|[_ [->|[[inv ->]|
          (ts & input & inv & r & out & n & _ & _ & ->)]]]]]];
    cbn [fst]; auto.
  - right; right. apply on_error_fields.
  - right; left. apply completed_fields.
Qed.

Lemma Core_max_errors s e :
  Live.max_errors (fst (Live.Core s e)) = Live.max_errors s.
Proof.
  destruct (Core_cases s e)
    as [[_ ->]|[_ [[_ ->]|[_ [->|[[inv ->]|
          (ts & input & inv & r & out & n & _ & _ & ->)]]]]]];
    cbn [fst]; auto.
  - apply on_error_fields.
  - apply completed_fields.
Qed.

(** With a threshold of two or more the breaker never opens: every frame
    the rate limiter lets through clears the error count before it is processed,
    so the count never passes 1. *)
Lemma breaker_never_opens s es :
  Live.error_count s <= 1 -> 2 <= Live.max_errors s ->
  Forall (fun o => o <> Live.CircuitOpen) (snd (Live.run s es))
  /\ Live.error_count (fst (Live.run s es)) <= 1.
Proof.
  revert s. induction es as [|e es IH]; intros s Hs Hmax; [by split|].
  cbn [Live.run].
  pose proof (Core_error_count s e) as Hec.
  pose proof (Core_max_errors s e) as Hme.
  assert (snd (Live.Core s e) <> Live.CircuitOpen) as Ho.
  { destruct (Core_cases s e)
      as [[_ ->]|[_ [[Hb _]|[_ [->|[[inv ->]|
            (ts & input & inv & r & out & n & _ & _ & ->)]]]]]]; try done.
    apply Z.leb_le in Hb. lia. }
  destruct (Live.Core s e) as [s1 o]. cbn [fst snd] in *.
  destruct (IH s1) as [IH1 IH2]; [|lia|].
  { destruct Hec as [->|[->| ->]]; lia. }
  destruct (Live.run s1 es) as [s2 os]. cbn [fst snd] in *.
  split; [by constructor|done].
Qed.

(** C5, as the code has it: once a frame is completed, every frame that
    arrives less than the minimum interval after it is dropped, with the
    tracking step not reached, nothing written and no state changed, so
    nothing is queued or retried. *)
Theorem rate_limiter_drops_followers s e1 s1 frame_idx invoked tracking_results es :
  Live.Core s e1 = (s1, Live.Processed frame_idx invoked tracking_results) ->
  Forall (fun e => (Live.now e - Live.now e1 < Live.min_process_interval s)%Q) es ->
  Live.run s1 es = (s1, repeat Live.RateLimited (length es))
  /\ Forall (fun o => Live.tracking_invoked o = false /\ Live.is_processed o = false)
        (snd (Live.run s1 es)).
Proof.
  intros Hcore Hes.
  assert (Live.last_process_time s1 = Live.now e1
          /\ Live.min_process_interval s1 = Live.min_process_interval s)
    as [Hlast Hint].
  { destruct (Core_cases s e1)
      as [[_ E]|[_ [[_ E]|[_ [E|[[inv' E]|
            (ts & input & inv' & r' & out & k & _ & Hlim & E)]]]]]];
      rewrite E in Hcore; simplify_eq.
    split; apply completed_fields. }
  assert (Live.run s1 es = (s1, repeat Live.RateLimited (length es))) as Hrun.
  { induction Hes as [|e es He _ IH]; [done|].
    cbn [Live.run length repeat].
    assert (Live.Core s1 e = (s1, Live.RateLimited)) as ->.
    { unfold Live.Core. rewrite Hlast, Hint.
      apply Qltb_lt in He. by rewrite He. }
    by rewrite IH. }
  split; [done|]. rewrite Hrun. cbn [snd].
  apply Forall_forall. intros o Ho%list_elem_of_In%repeat_spec. by subst o.
Qed.

End Resilience.

Lemma tracks_output_capped_witness :
  Forall at_most_one_row
    (Live.outputs
       (fst (Live.run (core := idle_core) born
               [frame 100 two_cars; frame 101 two_cars]))).
Proof.
  exact (proj1 (tracks_output_capped (core := idle_core) born
                  [frame 100 two_cars; frame 101 two_cars] (List.Forall_nil _))).
Defined.

Lemma periodic_reset_new_instance_witness :
  let s99 := fst (Live.run (core := idle_core) born (frames frame 100 99 one_car)) in
  let s100 := fst (Live.Core (core := idle_core) s99 (frame 199 one_car)) in
  Live.frame_count s100 = 99 + 1
  /\ Live.tracker s100 = Some (1%nat, snd kitti_car).
Proof.
  intros s99 s100.
  assert (Live.Core (core := idle_core) s99 (frame 199 one_car)
          = (s100, Live.Processed 99 true (one_car_result 99))) as Hcore
    by (vm_compute; reflexivity).
  assert (RT.__init__ (core := idle_core) (Live.tracker_args_of (Live.props s99))
          = Ok (snd kitti_car)) as Hinit
    by (vm_compute; reflexivity).
  destruct (periodic_reset_new_instance (core := idle_core) s99
              (frame 199 one_car) s100 99 true (one_car_result 99)
              (snd kitti_car) Hcore Hinit) as (_ & Hfc & Hnew & _).
  split.
  - rewrite Hfc. vm_compute. reflexivity.
  - destruct Hnew as [Ht _]; [vm_compute; reflexivity|].
    rewrite Ht. vm_compute. reflexivity.
Defined.

(** C2 as stated fails: the tracker installed after the 100th frame is a
    new object, but the frame counter that numbers the records goes on.
    The 101st frame is recorded with frame index 100 and track id 10000. *)
Lemma periodic_reset_keeps_frame_counter :
  let s100 := fst (Live.run (core := idle_core) born (frames frame 100 100 one_car)) in
  fst <$> Live.tracker s100 = Some 1%nat
  /\ Live.frame_count s100 = 100
  /\ snd (Live.Core (core := idle_core) s100 (frame 200 one_car))
     = Live.Processed 100 true (one_car_result 100).
Proof. vm_compute. repeat split. Qed.

Lemma rate_limiter_drops_followers_witness :
  let s1 := fst (Live.Core (core := idle_core) born (frame 100 one_car)) in
  Live.run (core := idle_core) s1
    [frame 100.005 one_car; frame 100.010 one_car]
  = (s1, [Live.RateLimited; Live.RateLimited]).
Proof.
  intros s1.
  refine (proj1 (rate_limiter_drops_followers (core := idle_core) born
                   (frame 100 one_car) s1 0 true (one_car_result 0)
                   [frame 100.005 one_car; frame 100.010 one_car] _ _)).
  - vm_compute. reflexivity.
  - repeat constructor.
Defined.

(** C5 as stated fails: two frames less than the minimum interval apart
    are both dropped when a frame was completed shortly before them. With
    the default 50 frames per second, after a frame at 100 s the frames at
    100.005 s and 100.010 s are 5 ms apart and neither is processed. *)
Lemma rate_limiter_both_dropped :
  let s := fst (Live.Core (core := idle_core) born (frame 100 one_car)) in
  let e1 := frame 100.005 one_car in
  let e2 := frame 100.010 one_car in
  (Live.now e2 - Live.now e1 < Live.min_process_interval s)%Q
  /\ snd (Live.Core (core := idle_core) s e1) = Live.RateLimited
  /\ snd (Live.Core (core := idle_core) (fst (Live.Core (core := idle_core) s e1)) e2)
     = Live.RateLimited.
Proof. vm_compute. repeat split. Qed.

(** C1 on the code, with the default threshold of 10. Ten consecutive
    frames with a fault in the tracking step leave the error count at 0;
    ten consecutive frames whose exception reaches the outer handler leave
    it at 1. In both runs the eleventh frame is accepted and tracked. *)
Theorem circuit_breaker_stays_closed :
  let faults1 := frames frame_tracking_fault 100 10 one_car in
  let faults2 := frames frame_output_fault 100 10 one_car in
  let s1 := fst (Live.run (core := idle_core) born faults1) in
  let s2 := fst (Live.run (core := idle_core) born faults2) in
  Live.max_errors born = 10
  /\ Live.error_count s1 = 0
  /\ snd (Live.Core (core := idle_core) s1 (frame 110 one_car))
     = Live.Processed 10 true (one_car_result 10)
  /\ snd (Live.run (core := idle_core) born faults2) = repeat (Live.Failed true) 10
  /\ Live.error_count s2 = 1
  /\ snd (Live.Core (core := idle_core) s2 (frame 110 one_car))
     = Live.Processed 0 true (one_car_result 0).
Proof. vm_compute. repeat split. Qed.

(** ** The CSV exporter *)

Lemma csv_row_result r det_id2str frame T object_type :
  Csv.lookup_type det_id2str (tr_type_id r) = Some object_type ->
  Csv.csv_row (as_array r) det_id2str frame T
  = Ok (if Qle_bool T (tr_conf r) then Some (export_row r frame object_type)
        else None).
Proof.
  intros Hty. unfold Csv.csv_row, as_array.
  cbn [lookup list_lookup or_raise bind take drop]. rewrite Hty.
  cbn [or_raise bind]. by destruct (Qle_bool T (tr_conf r)).
Qed.

Lemma csv_row_zero_flags result_data det_id2str frame T r :
  Csv.csv_row result_data det_id2str frame T = Ok (Some r) -> zero_flags r.
Proof.
  unfold Csv.csv_row.
  repeat match goal with
         | |- context [or_raise ?e ?o] => destruct o; cbn [or_raise bind]; [|done]
         | |- context [Qle_bool ?a ?b] => destruct (Qle_bool a b); [|done]
         end.
  intros [= <-]. by split.
Qed.

Lemma alter_present (m : gmap string Csv.file) g path f :
  m !! path = Some f -> alter g path m = <[path := g f]> m.
Proof.
  intros Hf. apply map_eq. intros k. destruct (decide (k = path)) as [->|Hk].
  - by rewrite lookup_alter_eq, lookup_insert_eq, Hf.
  - by rewrite lookup_alter_ne, lookup_insert_ne.
Qed.

(** C6, as the code has it. For a hypothesis with an open sink and a
    result whose type id is in the category table, [export_result] appends
    exactly one row when the confidence is at least the threshold, the
    boundary included, and changes nothing when it is below; the last cell
    of the row is the confidence itself. For a hypothesis without an open
    sink nothing is written, whatever the confidence. *)
Theorem export_result_threshold self disk r hypo det_id2str frame T :
  (Csv.csv_writers self !! hypo = None ->
   Csv.export_result self disk (as_array r) hypo det_id2str frame T = Ok disk)
  /\ (forall path f object_type,
        Csv.csv_writers self !! hypo = Some path ->
        disk !! path = Some f ->
        Csv.lookup_type det_id2str (tr_type_id r) = Some object_type ->
        let row := export_row r frame object_type in
        row !! 17%nat = Some (Csv.CNum (tr_conf r))
        /\ ((T <= tr_conf r)%Q ->
            Csv.export_result self disk (as_array r) hypo det_id2str frame T
            = Ok (<[path := Csv.append_row row f]> disk))
        /\ ((tr_conf r < T)%Q ->
            Csv.export_result self disk (as_array r) hypo det_id2str frame T
            = Ok disk)).
Proof.
  split.
  - intros Hw. unfold Csv.export_result. by rewrite Hw.
  - intros path f object_type Hw Hf Hty row. split; [done|].
    unfold Csv.export_result. rewrite Hw, (csv_row_result _ _ _ _ _ Hty).
    cbn [bind]. split.
    + intros Hle%Qle_bool_iff. rewrite Hle. by rewrite (alter_present _ _ _ f).
    + intros Hlt. destruct (Qle_bool T (tr_conf r)) eqn:Hb; [|done].
      apply Qle_bool_iff in Hb. by apply Qle_not_lt in Hb.
Qed.

Lemma export_result_threshold_witness :
  let st := Csv.init_sequence_files (Csv.__init__ "out" 1) ∅ "0001" in
  let header_file :=
    {| Csv.encoding := "utf-8";
       Csv.rows := [map Csv.CStr Csv.get_csv_header];
       Csv.closed := false |} in
  Csv.export_result (fst st) (snd st) (as_array car_result) 0
    RT.kitti_id2str 7 0.9%Q
  = Ok (<[export_path "out" 0 "0001" :=
            Csv.append_row (export_row car_result 7 "Car") header_file]> (snd st)).
Proof.
  intros st header_file.
  assert (Csv.csv_writers (fst st) !! 0 = Some (export_path "out" 0 "0001"))
    as Hw by (vm_compute; reflexivity).
  assert (snd st !! export_path "out" 0 "0001" = Some header_file)
    as Hf by (vm_compute; reflexivity).
  destruct (proj2 (export_result_threshold (fst st) (snd st) car_result 0
                     RT.kitti_id2str 7 0.9%Q)
              (export_path "out" 0 "0001") header_file "Car" Hw Hf eq_refl)
    as (_ & Hge & _).
  apply Hge. apply Qle_refl.
Defined.

(** C6 as stated fails for a hypothesis index without an open sink: with
    one hypothesis configured, a result of confidence 0.9 exported for
    hypothesis 1 under threshold 0.5 leaves every file as it was. *)
Lemma export_without_sink_writes_nothing :
  let st := Csv.init_sequence_files (Csv.__init__ "out" 1) ∅ "0001" in
  (0.5 <= tr_conf car_result)%Q
  /\ Csv.export_result (fst st) (snd st) (as_array car_result) 1
       RT.kitti_id2str 7 0.5%Q
     = Ok (snd st).
Proof. vm_compute. split; [discriminate|reflexivity]. Qed.

Lemma string_length_app (s t : string) :
  String.length (s +:+ t) = (String.length s + String.length t)%nat.
Proof. induction s as [|a s IH]; simpl; [done|]. by rewrite IH. Qed.

Lemma string_app_inj_r (s1 s2 t : string) : s1 +:+ t = s2 +:+ t -> s1 = s2.
Proof.
  revert s2. induction s1 as [|a s1 IH]; intros [|b s2] Heq; simpl in Heq.
  - done.
  - apply (f_equal String.length) in Heq.
    rewrite !string_length_app in Heq. simpl in Heq. lia.
  - apply (f_equal String.length) in Heq.
    rewrite !string_length_app in Heq. simpl in Heq. lia.
  - injection Heq as -> Heq. f_equal. by apply IH.
Qed.

Lemma string_app_assoc (s t u : string) : (s +:+ t) +:+ u = s +:+ (t +:+ u).
Proof.
  induction s as [|a s IH]; [done|].
  change (String a ((s +:+ t) +:+ u) = String a (s +:+ (t +:+ u))).
  by rewrite IH.
Qed.

(** Each hypothesis has a file name of its own. *)
Lemma csv_filename_inj h1 h2 seq_name :
  Csv.csv_filename h1 seq_name = Csv.csv_filename h2 seq_name -> h1 = h2.
Proof.
  unfold Csv.csv_filename. intros Heq.
  apply (inj (String.append "tracking_results_H")) in Heq.
  apply string_app_inj_r in Heq. by apply (inj pretty) in Heq.
Qed.

Lemma path_join_filename dir seq_name :
  exists prefix, forall h',
    export_path dir h' seq_name = prefix +:+ Csv.csv_filename h' seq_name.
Proof.
  exists (if String.eqb dir "" || Csv.ends_with_slash dir then dir
          else dir +:+ "/").
  intros h'. unfold export_path, Csv.path_join.
  change (Csv.csv_filename h' seq_name)
    with (String "t" ("racking_results_H" +:+ pretty h' +:+ "_" +:+ seq_name
                        +:+ ".csv")).
  cbv iota.
  destruct (String.eqb dir "" || Csv.ends_with_slash dir); [done|].
  generalize (String "t" ("racking_results_H" +:+ pretty h' +:+ "_" +:+ seq_name
                            +:+ ".csv")).
  intros b. symmetry. apply string_app_assoc.
Qed.

Lemma export_path_inj dir h1 h2 seq_name :
  export_path dir h1 seq_name = export_path dir h2 seq_name -> h1 = h2.
Proof.
  destruct (path_join_filename dir seq_name) as [prefix Hp].
  rewrite !Hp. intros Heq%(inj (String.append prefix)).
  by apply csv_filename_inj in Heq.
Qed.

Lemma open_one_fields seq_name st h :
  let st' := Csv.open_one seq_name st h in
  let path := export_path (Csv.save_dir (fst st)) h seq_name in
  Csv.save_dir (fst st') = Csv.save_dir (fst st)
  /\ Csv.csv_writers (fst st') = <[h := path]> (Csv.csv_writers (fst st))
  /\ snd st' = <[path := header_file]> (snd st).
Proof. by destruct st. Qed.

(** Opening the files of other hypotheses leaves the file of [h] alone. *)
Lemma foldl_open_keeps seq_name hs st h :
  h ∉ hs ->
  let st' := foldl (Csv.open_one seq_name) st hs in
  let path := export_path (Csv.save_dir (fst st)) h seq_name in
  Csv.save_dir (fst st') = Csv.save_dir (fst st)
  /\ Csv.csv_writers (fst st') !! h = Csv.csv_writers (fst st) !! h
  /\ snd st' !! path = snd st !! path.
Proof.
  revert st. induction hs as [|h0 hs IH]; intros st Hh; [done|].
  apply not_elem_of_cons in Hh as [Hne Hh]. cbn [foldl].
  destruct (open_one_fields seq_name st h0) as (Hd & Hw & Hdisk).
  destruct (IH (Csv.open_one seq_name st h0) Hh) as (Hd' & Hw' & Hdisk').
  cbn zeta in *. rewrite Hd in Hd', Hdisk'. split; [congruence|]. split.
  - rewrite Hw', Hw. by rewrite lookup_insert_ne.
  - rewrite Hdisk', Hdisk. rewrite lookup_insert_ne; [done|].
    intros Heq%export_path_inj. done.
Qed.

Lemma foldl_open_creates seq_name hs st h :
  NoDup hs -> h ∈ hs ->
  let st' := foldl (Csv.open_one seq_name) st hs in
  let path := export_path (Csv.save_dir (fst st)) h seq_name in
  Csv.csv_writers (fst st') !! h = Some path
  /\ snd st' !! path = Some header_file.
Proof.
  revert st. induction hs as [|h0 hs IH]; intros st Hnd Hin;
    [by apply elem_of_nil in Hin|].
  apply NoDup_cons in Hnd as [Hh0 Hnd]. cbn [foldl].
  destruct (open_one_fields seq_name st h0) as (Hd & Hw & Hdisk).
  cbn zeta in *.
  destruct (decide (h = h0)) as [->|Hne].
  - destruct (foldl_open_keeps seq_name hs (Csv.open_one seq_name st h0) h0 Hh0)
      as (_ & Hw' & Hdisk').
    cbn zeta in *. rewrite Hd in Hdisk'.
    rewrite Hw', Hdisk', Hw, Hdisk. by rewrite !lookup_insert_eq.
  - apply elem_of_cons in Hin as [?|Hin]; [done|].
    destruct (IH (Csv.open_one seq_name st h0) Hnd Hin) as [Hw' Hdisk'].
    by rewrite Hd in Hw', Hdisk'.
Qed.

(** [init_sequence_files] leaves, for every configured hypothesis, a
    writer on the file of that hypothesis, and the file holds the header. *)
Lemma init_sequence_files_creates self disk seq_name h :
  0 <= h < Csv.num_hypo self ->
  let st := Csv.init_sequence_files self disk seq_name in
  let path := export_path (Csv.save_dir self) h seq_name in
  Csv.csv_writers (fst st) !! h = Some path
  /\ snd st !! path = Some header_file.
Proof.
  intros Hh. unfold Csv.init_sequence_files.
  apply (foldl_open_creates seq_name (seqZ 0 (Csv.num_hypo self))
           (Csv.close_files self disk) h).
  - apply NoDup_seqZ.
  - apply elem_of_seqZ. lia.
Qed.

Lemma export_file_append f r :
  export_file f -> zero_flags r -> export_file (Csv.append_row r f).
Proof.
  intros (Henc & data & Hrows & Hdata) Hr. split; [done|].
  exists (data ++ [r]). cbn [Csv.rows Csv.append_row]. rewrite Hrows.
  split; [done|]. apply Forall_app. split; [done|]. by constructor.
Qed.

Lemma export_result_preserves self disk result_data hypo det_id2str frame T
    disk' path f :
  Csv.export_result self disk result_data hypo det_id2str frame T = Ok disk' ->
  disk !! path = Some f -> export_file f ->
  exists f', disk' !! path = Some f' /\ export_file f'.
Proof.
  unfold Csv.export_result. intros Hex Hf Hok.
  destruct (Csv.csv_writers self !! hypo) as [p|]; [|simplify_eq; eauto].
  destruct (Csv.csv_row _ _ _ _) as [[r|]|] eqn:Hrow; cbn [bind] in Hex;
    simplify_eq; eauto.
  destruct (decide (p = path)) as [->|Hne].
  - exists (Csv.append_row r f). rewrite lookup_alter_eq, Hf. split; [done|].
    apply export_file_append; [done|]. by eapply csv_row_zero_flags.
  - exists f. by rewrite lookup_alter_ne.
Qed.

Lemma export_all_preserves self calls disk disk' path f :
  export_all self disk calls = Ok disk' ->
  disk !! path = Some f -> export_file f ->
  exists f', disk' !! path = Some f' /\ export_file f'.
Proof.
  revert disk f. induction calls as [|c calls IH]; intros disk f Hex Hf Hok.
  - cbn in Hex. simplify_eq. eauto.
  - cbn [export_all] in Hex.
    destruct (Csv.export_result _ _ _ _ _ _ _) as [disk1|] eqn:H1; [|done].
    cbn [bind] in Hex.
    destruct (export_result_preserves _ _ _ _ _ _ _ _ _ _ H1 Hf Hok)
      as (f1 & Hf1 & Hok1).
    by apply (IH disk1 f1).
Qed.

(** C7: for every session label and every configured hypothesis the
    exporter creates the file tracking_results_H{hypothesis}_{label}.csv in
    its directory, a file of its own for each hypothesis, opened as UTF-8,
    whose first row is the 18-column header, comma-separated; whatever is
    exported afterwards, the header stays the first row and every data row
    has 0 in the truncated and occluded columns. *)
Theorem csv_export_format self disk seq_name hypo calls disk_final :
  0 <= hypo < Csv.num_hypo self ->
  let st := Csv.init_sequence_files self disk seq_name in
  let path :=
    Csv.path_join (Csv.save_dir self)
      ("tracking_results_H" +:+ pretty hypo +:+ "_" +:+ seq_name +:+ ".csv") in
  export_all (fst st) (snd st) calls = Ok disk_final ->
  Csv.csv_line Csv.get_csv_header
  = "frame,track_id,object_type,truncated,occluded,alpha,bbox_left,bbox_top,bbox_right,bbox_bottom,height_3d,width_3d,length_3d,x_3d,y_3d,z_3d,rotation_y,confidence_score"
  /\ length Csv.get_csv_header = 18%nat
  /\ Csv.csv_writers (fst st) !! hypo = Some path
  /\ snd st !! path = Some header_file
  /\ (forall hypo', export_path (Csv.save_dir self) hypo' seq_name = path ->
                    hypo' = hypo)
  /\ exists f, disk_final !! path = Some f /\ export_file f.
Proof.
  intros Hh st path Hex.
  destruct (init_sequence_files_creates self disk seq_name hypo Hh) as [Hw Hf].
  split; [reflexivity|]. split; [reflexivity|]. split; [exact Hw|].
  split; [exact Hf|]. split; [intros h'; apply export_path_inj|].
  apply (export_all_preserves _ _ _ _ _ _ Hex Hf).
  split; [done|]. exists []. by split.
Qed.

Lemma csv_export_format_witness :
  let st := Csv.init_sequence_files (Csv.__init__ "out" 2) ∅ "0001" in
  let calls :=
    [{| ec_result := as_array car_result; ec_hypo := 1;
        ec_det_id2str := RT.kitti_id2str; ec_frame := 0;
        ec_threshold := 0.5%Q |};
     {| ec_result := as_array car_result; ec_hypo := 0;
        ec_det_id2str := RT.kitti_id2str; ec_frame := 1;
        ec_threshold := 0.95%Q |}] in
  exists disk_final,
    export_all (fst st) (snd st) calls = Ok disk_final
    /\ exists f, disk_final !! export_path "out" 1 "0001" = Some f
                 /\ export_file f.
Proof.
  intros st calls.
  assert (exists disk_final, export_all (fst st) (snd st) calls = Ok disk_final)
    as [disk_final Hex] by (eexists; vm_compute; reflexivity).
  exists disk_final. split; [exact Hex|].
  assert (0 <= 1 < Csv.num_hypo (Csv.__init__ "out" 2)) as Hh by (cbn; lia).
  exact (proj2 (proj2 (proj2 (proj2 (proj2
           (csv_export_format (Csv.__init__ "out" 2) ∅ "0001" 1 calls
              disk_final Hh Hex)))))).
Defined.

(** * Further properties of the code *)

(** ** [RealtimeTracker]: construction, type ids, frames that fail *)

Section Tracker.
Context {C : Type} {core : TrackingCore C}.
Implicit Types (self : RT.RealtimeTracker C).

Lemma init_table args self :
  RT.__init__ args = Ok self ->
  RT.category self = arg_category args
  /\ (arg_dataset args = "KITTI" /\ RT.det_id2str self = RT.kitti_id2str
      \/ arg_dataset args = "nuScenes"
         /\ RT.det_id2str self = RT.nuscenes_id2str).
Proof.
  unfold RT.__init__. destruct (core_new args) as [c|]; [|done]. cbn [bind].
  destruct (String.eqb_spec (arg_dataset args) "KITTI") as [Hk|_].
  { cbn [bind]. intros [= <-]. auto. }
  destruct (String.eqb_spec (arg_dataset args) "nuScenes") as [Hn|_]; [|done].
  cbn [bind]. intros [= <-]. auto.
Qed.

(** The type id a tracker puts into its info rows leads back to its
    category in the tracker's own table; a category the table does not
    hold gets type id 2, which the table names "Car". *)
Theorem type_id_round_trip args self :
  RT.__init__ args = Ok self ->
  (forall k, (k, RT.category self) ∈ RT.det_id2str self ->
     RT._get_type_id self = k
     /\ Csv.lookup_type (RT.det_id2str self) (inject_Z (RT._get_type_id self))
        = Some (RT.category self))
  /\ (RT.category self ∉ (RT.det_id2str self).*2 ->
      RT._get_type_id self = 2
      /\ Csv.lookup_type (RT.det_id2str self) (inject_Z (RT._get_type_id self))
         = Some "Car").
Proof.
  intros Hinit. destruct (init_table _ _ Hinit) as [_ Htbl].
  unfold RT._get_type_id.
  destruct Htbl as [[_ ->]|[_ ->]]; split.
  - intros k Hk. unfold RT.kitti_id2str in Hk.
    repeat (apply elem_of_cons in Hk as [Hk|Hk]);
      [injection Hk as -> Hc; rewrite Hc; by split..|by apply elem_of_nil in Hk].
  - intros Hnot. unfold RT.kitti_id2str in *. cbn [fmap list_fmap snd] in Hnot.
    cbn [RT.first_type_id].
    repeat match goal with
           | |- context [String.eqb ?a ?b] =>
               destruct (String.eqb_spec a b) as [Heq|_];
                 [exfalso; apply Hnot; rewrite <- Heq; set_solver|]
           end.
    by split.
  - intros k Hk. unfold RT.nuscenes_id2str in Hk.
    repeat (apply elem_of_cons in Hk as [Hk|Hk]);
      [injection Hk as -> Hc; rewrite Hc; by split..|by apply elem_of_nil in Hk].
  - intros Hnot. unfold RT.nuscenes_id2str in *. cbn [fmap list_fmap snd] in Hnot.
    cbn [RT.first_type_id].
    repeat match goal with
           | |- context [String.eqb ?a ?b] =>
               destruct (String.eqb_spec a b) as [Heq|_];
                 [exfalso; apply Hnot; rewrite <- Heq; set_solver|]
           end.
    by split.
Qed.

End Tracker.

(** ** The info rows of the normalizer *)

Lemma zip_rows_map {A} (f g : A -> list Q) (xs : list A) :
  zip_rows (map f xs) (map g xs) = Some (map (fun x => f x ++ g x) xs).
Proof.
  induction xs as [|x xs IH]; [done|]. cbn [map zip_rows]. by rewrite IH.
Qed.

Lemma repeat_as_map {A B} (v : B) (xs : list A) :
  repeat v (length xs) = map (fun _ => v) xs.
Proof. induction xs as [|x xs IH]; [done|]. cbn. by rewrite IH. Qed.

(** Four blocks computed row by row from the same rows concatenate to the
    block of the appended rows. *)
Lemma concatenate4_map {A} (f1 f2 f3 f4 : A -> list Q) c1 c2 c3 c4 (xs : list A) :
  concatenate_axis1
    [Mat c1 (map f1 xs); Mat c2 (map f2 xs); Mat c3 (map f3 xs); Mat c4 (map f4 xs)]
  = Some (Mat (c1 + (c2 + (c3 + c4)))
            (map (fun x => f1 x ++ f2 x ++ f3 x ++ f4 x) xs)).
Proof.
  cbn [concatenate_axis1 mbind option_bind hcat2].
  rewrite zip_rows_map. cbn [fmap option_fmap option_map mbind option_bind hcat2].
  rewrite (zip_rows_map f2 (fun x => f3 x ++ f4 x)).
  cbn [fmap option_fmap option_map mbind option_bind hcat2].
  by rewrite (zip_rows_map f1 (fun x => f2 x ++ f3 x ++ f4 x)).
Qed.

Section NormalizerInfo.
Context {C : Type} {core : TrackingCore C}.
Implicit Types (trk : nat * RT.RealtimeTracker C) (a d : ndarray).

Lemma by_columns_info trk c (rows : list (list Q)) :
  Forall (fun r => length r = c) rows ->
  c = 7%nat \/ c = 8%nat \/ c = 15%nat ->
  exists out,
    Live.by_columns (Some trk) (Mat c rows) = Some out
    /\ info out = Mat 7 (map (info_of c (RT._get_type_id (snd trk))) rows).
Proof.
  intros Hwf [-> | [-> | ->]]; unfold Live.by_columns;
    cbn [shape_at shape lookup list_lookup mbind option_bind Nat.eqb slice_cols];
    unfold Live._generate_default_info;
    cbn [slice_cols mbind option_bind Live.type_id_of fmap option_fmap
         option_map from_option id];
    unfold ones, zeros, full; rewrite !repeat_as_map.
  - rewrite concatenate4_map. cbn [mbind option_bind].
    eexists; split; [done|]. cbn [info]. f_equal.
  - rewrite map_map.
    rewrite (concatenate4_map
               (fun r => take (7 - 6) (drop 6 (take (7 - 0) (drop 0 r))))
               (fun _ => repeat 0%Q 4)
               (fun _ => repeat (inject_Z ((RT._get_type_id ∘ snd) trk)) 1)
               (fun r => take (8 - 7) (drop 7 r))).
    cbn [mbind option_bind]. eexists; split; [done|]. cbn [info]. f_equal.
    apply map_ext_in. intros r Hr%list_elem_of_In.
    rewrite Forall_forall in Hwf. specialize (Hwf r Hr).
    unfold info_of. do 1 f_equal.
    do 9 (destruct r as [|? r]; try done).
  - rewrite (concatenate4_map
               (fun r => take (14 - 13) (drop 13 r))
               (fun r => take (5 - 1) (drop 1 r))
               (fun _ => repeat (inject_Z ((RT._get_type_id ∘ snd) trk)) 1)
               (fun r => take (15 - 14) (drop 14 r))).
    cbn [mbind option_bind]. eexists; split; [done|]. cbn [info]. f_equal.
Qed.

Lemma parsed_supported trk a :
  supported a ->
  Live._parse_detection_input (Some trk) (PyArray a)
  = {| dets := Mat 7 (map (fun r => take 7 (drop (box_offset a) r))
                        (logical_rows a));
       info := Mat 7 (map (info_of (columns_seen a) (RT._get_type_id (snd trk)))
                        (logical_rows a)) |}.
Proof.
  intros Hsup.
  destruct (parse_ndarray_supported trk a Hsup) as (o & E & Hd & _).
  unfold Live._parse_detection_input. rewrite E. cbn [from_option id].
  destruct o as [d i]. cbn [dets] in Hd. subst d. f_equal.
  revert E. unfold Live.parse_ndarray.
  destruct (shape_at a 0) as [n0|] eqn:Hn0;
    [|by destruct Hsup as [_ Hsup]; destruct a].
  cbn [mbind option_bind]. destruct (Nat.eqb_spec n0 0) as [->|Hnz].
  - rewrite (logical_rows_empty a Hsup Hn0). unfold empty_dets_all.
    intros E. by simplify_eq.
  - assert (logical_rows a <> []) as Hne
      by (apply logical_rows_nonempty; [done|congruence]).
    rewrite (unflatten_supported a Hsup Hne). cbn [mbind option_bind].
    destruct (by_columns_info trk (columns_seen a) (logical_rows a))
      as (out & -> & Hi).
    + by apply logical_rows_wf.
    + destruct Hsup as [_ Hsup]. destruct a as [|l|c rows]; [done| |done].
      cbn. tauto.
    + intros [= ->]. exact Hi.
Qed.

(** For every supported input the info rows are co-indexed with the
    detections and built as documented: the yaw as orientation, a zero 2D
    box, the type id of the tracker's category and the score of the 8th
    column, or 1 when there is none; for the 15-column layout the
    orientation, the 2D box and the score come from columns 13, 1-4 and
    14. *)
Theorem normalizer_info_rows trk a :
  supported a ->
  info (Live._parse_detection_input (Some trk) (PyArray a))
  = Mat 7 (map (info_of (columns_seen a) (RT._get_type_id (snd trk)))
             (logical_rows a)).
Proof. intros Hsup. by rewrite parsed_supported. Qed.

End NormalizerInfo.

Lemma normalizer_info_rows_witness :
  info (Live._parse_detection_input (Some kitti_car)
          (PyArray (Vec [1.5; 1.8; 4.5; 10; 0; 30; 0.1; 0.9;
                         1.6; 1.9; 4.8; 15; 0; 35; 0.2; 0.8]%Q)))
  = Mat 7 [[0.1; 0; 0; 0; 0; 2; 0.9]%Q; [0.2; 0; 0; 0; 0; 2; 0.8]%Q].
Proof.
  refine (normalizer_info_rows kitti_car
            (Vec [1.5; 1.8; 4.5; 10; 0; 30; 0.1; 0.9;
                  1.6; 1.9; 4.8; 15; 0; 35; 0.2; 0.8]%Q) _).
  split; [exact I|reflexivity].
Defined.

(** ** The normalizer off the documented shapes *)

Section NormalizerEdges.
Context {C : Type} {core : TrackingCore C}.
Implicit Types (trk : nat * RT.RealtimeTracker C) (a d : ndarray).

(** A single row of 8k scalars is taken for k flattened detections of 8
    columns each, not for one detection: the (1, 16) array of the docstring
    gives two detections. *)
Theorem flattened_row_is_split trk c (r : list Q) :
  length r = c -> (c mod 8 = 0)%nat -> c <> 0%nat ->
  let out := Live._parse_detection_input (Some trk) (PyArray (Mat c [r])) in
  dets out = Mat 7 (map (take 7) (chunks 8 (c / 8) r))
  /\ length (rows_of (dets out)) = (c / 8)%nat
  /\ length (rows_of (info out)) = (c / 8)%nat.
Proof.
  intros Hr Hmod Hnz out.
  assert (c = (c / 8 * 8)%nat) as Hc
    by (pose proof (Nat.div_mod_eq c 8); lia).
  assert (Live.unflatten (Mat c [r]) = Some (Mat 8 (chunks 8 (c / 8) r))) as Hun.
  { unfold Live.unflatten.
    cbn [shape_at shape lookup list_lookup mbind option_bind ndim length
         Nat.eqb andb].
    rewrite Hmod. cbn [Nat.eqb]. unfold reshape. cbn [flat concat].
    rewrite app_nil_r, Hr, <- Hc, Nat.eqb_refl. done. }
  destruct (by_columns_supported trk 8 (chunks 8 (c / 8) r))
    as (o & E & Hd & Hi); [apply chunks_wf; lia|tauto|].
  assert (out = o) as ->.
  { unfold out, Live._parse_detection_input, Live.parse_ndarray.
    cbn [shape_at shape lookup list_lookup mbind option_bind length Nat.eqb].
    rewrite Hun. cbn [mbind option_bind]. by rewrite E. }
  rewrite Hd, Hi. cbn [rows_of box_offset].
  rewrite length_map, chunks_length. done.
Qed.

(** A non-empty array of 1 to 6 columns is not refused by the normalizer,
    but its detections fail the shape check of [Core]: the tracking step
    yields the empty result without the tracking call being reached. *)
Theorem narrow_input_not_tracked trk c (rows : list (list Q)) e frame_idx :
  (1 <= c <= 6)%nat -> rows <> [] ->
  Live.tracking_step e
    (Live._parse_detection_input (Some trk) (PyArray (Mat c rows))) frame_idx
  = (empty 15, false).
Proof.
  intros Hc Hne.
  assert (exists i, Live._parse_detection_input (Some trk) (PyArray (Mat c rows))
                    = {| dets := Mat c (map (fun r => take 7 (drop 0 r)) rows);
                         info := i |}) as [i ->].
  { unfold Live._parse_detection_input, Live.parse_ndarray.
    assert (Live.unflatten (Mat c rows) = Some (Mat c rows)) as ->.
    { unfold Live.unflatten.
      cbn [shape_at shape lookup list_lookup mbind option_bind ndim length].
      destruct rows as [|r0 [|r1 rows]]; [done| |done].
      cbn [length Nat.eqb andb].
      assert (Nat.eqb (c mod 8) 0 = false) as ->; [|done].
      apply Nat.eqb_neq. rewrite Nat.mod_small by lia. lia. }
    destruct rows as [|r0 rows]; [done|].
    cbn [shape_at shape lookup list_lookup mbind option_bind length Nat.eqb].
    unfold Live.by_columns.
    cbn [shape_at shape lookup list_lookup mbind option_bind].
    destruct c as [|[|[|[|[|[|[|c]]]]]]]; try lia;
      cbn [Nat.eqb slice_cols mbind option_bind];
      unfold Live._generate_default_info;
      cbn [slice_cols mbind option_bind Live.type_id_of fmap option_fmap
           option_map from_option id];
      unfold ones, zeros, full;
      rewrite !repeat_as_map, map_map, concatenate4_map;
      cbn [mbind option_bind from_option id]; eexists; reflexivity. }
  unfold Live.tracking_step. cbn [dets shape_at shape lookup list_lookup].
  destruct c as [|[|[|[|[|[|[|c]]]]]]]; try lia; done.
Qed.

(** Before [Birth] there is no tracker to ask for the type id: whatever
    array arrives, the exception is swallowed and the normalizer returns
    the empty detections. *)
Theorem no_tracker_no_detections a :
  Live._parse_detection_input (C := C) None (PyArray a) = empty_dets_all.
Proof.
  unfold Live._parse_detection_input, Live.parse_ndarray.
  destruct (shape_at a 0) as [n0|]; [|done]. cbn [mbind option_bind].
  destruct (Nat.eqb n0 0); [done|].
  destruct (Live.unflatten a) as [a'|]; [|done]. cbn [mbind option_bind].
  unfold Live.by_columns.
  destruct (shape_at a' 0) as [N|]; [|done]. cbn [mbind option_bind].
  destruct (shape_at a' 1) as [c|]; [|done]. cbn [mbind option_bind].
  unfold Live._generate_default_info.
  repeat match goal with
         | |- context [if ?b then _ else _] => destruct b
         | |- context [slice_cols ?lo ?hi ?x] =>
             destruct (slice_cols lo hi x); cbn [mbind option_bind]; [|done]
         end; done.
Qed.

End NormalizerEdges.

Lemma flattened_row_is_split_witness :
  length (rows_of (dets (Live._parse_detection_input (Some kitti_car)
            (PyArray (Mat 16 [[1.5; 1.8; 4.5; 10; 0; 30; 0.1; 0.9;
                               1.6; 1.9; 4.8; 15; 0; 35; 0.2; 0.8]%Q])))))
  = 2%nat.
Proof.
  refine (proj1 (proj2 (flattened_row_is_split kitti_car 16
            [1.5; 1.8; 4.5; 10; 0; 30; 0.1; 0.9;
             1.6; 1.9; 4.8; 15; 0; 35; 0.2; 0.8]%Q _ _ _))).
  - reflexivity.
  - reflexivity.
  - discriminate.
Defined.

Lemma narrow_input_not_tracked_witness :
  Live.tracking_step (frame 100 one_car)
    (Live._parse_detection_input (Some kitti_car)
       (PyArray (Mat 5 [[1; 2; 3; 4; 5]%Q]))) 0
  = (empty 15, false).
Proof.
  refine (narrow_input_not_tracked kitti_car 5 [[1; 2; 3; 4; 5]%Q]
            (frame 100 one_car) 0 _ _).
  - lia.
  - discriminate.
Defined.

(** ** The fallback tracking *)

Lemma fallback_rows_lookup frame_idx k (ds infs : list (list Q)) :
  Forall (fun r => length r = 7%nat) ds ->
  Forall (fun r => length r = 7%nat) infs ->
  exists rows,
    Live.fallback_rows frame_idx k (map Some ds) (map Some infs) = Some rows
    /\ length rows = Nat.min (length ds) (length infs)
    /\ forall (i : nat) det inf,
         ds !! i = Some det -> infs !! i = Some inf ->
         exists row,
           rows !! i = Some row
           /\ take 7 row = det
           /\ row !! 7%nat = Some (inject_Z (frame_idx * 100 + (k + Z.of_nat i)))
           /\ row !! 14%nat = inf !! 6%nat
           /\ length row = 15%nat.
Proof.
  intros Hds. revert k infs.
  induction Hds as [|det ds Hdet _ IH]; intros k infs Hinfs.
  { exists []. split; [done|]. split; [done|]. intros i ? ? Hi. done. }
  destruct Hinfs as [|inf infs Hinf Hinfs].
  { exists []. split; [done|]. split; [done|]. intros i ? ? _ Hi. done. }
  destruct (IH (k + 1) infs Hinfs) as (rest & Hrest & Hlen & Hrows).
  do 8 (destruct det as [|? det]; try done).
  do 8 (destruct inf as [|? inf]; try done).
  cbn [map Live.fallback_rows Live.unpack7 mbind option_bind].
  rewrite Hrest. cbn [mbind option_bind].
  eexists. split; [done|]. split; [cbn [length]; by rewrite Hlen|].
  intros [|i] d' i' Hd Hi; cbn in Hd, Hi; simplify_eq.
  - eexists. split; [done|]. cbn. repeat split; try done.
    do 3 f_equal. lia.
  - destruct (Hrows i d' i' Hd Hi) as (row & Hrow & H7 & Hid & Hconf & Hl).
    exists row. split; [done|]. repeat split; try done.
    rewrite Hid. do 3 f_equal. lia.
Qed.

Lemma fallback_result_rows frame_idx (ds infs : list (list Q)) :
  Forall (fun r => length r = 7%nat) ds ->
  Forall (fun r => length r = 7%nat) infs ->
  Live.fallback_rows frame_idx 0 (map Some ds) (map Some infs)
  = Some (rows_of (Live._simple_tracking_fallback (Mat 7 ds) (Mat 7 infs)
                     frame_idx)).
Proof.
  intros Hds Hinfs.
  destruct (fallback_rows_lookup frame_idx 0 ds infs Hds Hinfs)
    as (rows & Hrows & Hlen & _).
  destruct ds as [|d0 ds]; [done|].
  unfold Live._simple_tracking_fallback.
  cbn [len shape_at shape lookup list_lookup mbind option_bind length
       Nat.eqb Live.elements].
  rewrite Hrows. cbn [mbind option_bind from_option id].
  by destruct rows.
Qed.

(** The fallback tracking turns detection i of frame f into result row i:
    the box is the detection, the track id is 100 f + i, and the confidence
    is the score of info row i, unchanged. There are as many results as
    there are detection/info pairs. *)
Theorem fallback_tracking_rows frame_idx (ds infs : list (list Q)) :
  Forall (fun r => length r = 7%nat) ds ->
  Forall (fun r => length r = 7%nat) infs ->
  let out := Live._simple_tracking_fallback (Mat 7 ds) (Mat 7 infs) frame_idx in
  length (rows_of out) = Nat.min (length ds) (length infs)
  /\ forall (i : nat) det inf,
       ds !! i = Some det -> infs !! i = Some inf ->
       exists row,
         rows_of out !! i = Some row
         /\ take 7 row = det
         /\ row !! 7%nat = Some (inject_Z (frame_idx * 100 + Z.of_nat i))
         /\ row !! 14%nat = inf !! 6%nat
         /\ length row = 15%nat.
Proof.
  intros Hds Hinfs out.
  destruct (fallback_rows_lookup frame_idx 0 ds infs Hds Hinfs)
    as (rows & Hrows & Hlen & Hlook).
  rewrite (fallback_result_rows frame_idx ds infs Hds Hinfs) in Hrows.
  fold out in Hrows. injection Hrows as <-.
  split; [done|]. intros i det inf Hd Hi.
  destruct (Hlook i det inf Hd Hi) as (row & ? & ? & Hid & ? & ?).
  exists row. by rewrite Z.add_0_l in Hid.
Qed.

Lemma fallback_tracking_rows_witness :
  exists row,
    rows_of (Live._simple_tracking_fallback
               (Mat 7 [[1.5; 1.8; 4.5; 10; 0; 30; 0.1]%Q;
                       [1.6; 1.9; 4.8; 15; 0; 35; 0.2]%Q])
               (Mat 7 [[0.1; 0; 0; 0; 0; 2; 0.9]%Q; [0.2; 0; 0; 0; 0; 2; 0.8]%Q])
               3) !! 1%nat
    = Some row
    /\ row !! 7%nat = Some 301%Q
    /\ row !! 14%nat = Some 0.8%Q.
Proof.
  destruct (proj2 (fallback_tracking_rows 3
              [[1.5; 1.8; 4.5; 10; 0; 30; 0.1]%Q; [1.6; 1.9; 4.8; 15; 0; 35; 0.2]%Q]
              [[0.1; 0; 0; 0; 0; 2; 0.9]%Q; [0.2; 0; 0; 0; 0; 2; 0.8]%Q]
              ltac:(repeat constructor) ltac:(repeat constructor))
            1%nat _ _ eq_refl eq_refl) as (row & Hrow & _ & Hid & Hconf & _).
  exists row. exact (conj Hrow (conj Hid Hconf)).
Defined.

(** ** [Core]: what a frame leaves behind *)

Lemma fits_int32_all (ids : list Z) :
  forallb Live.fits_int32 ids = true
  <-> Forall (fun i => - 2 ^ 31 <= i < 2 ^ 31) ids.
Proof.
  rewrite forallb_forall, Forall_forall. unfold Live.fits_int32.
  split; intros H i Hi.
  - apply list_elem_of_In, H in Hi. apply andb_prop in Hi as [?%Z.leb_le ?%Z.ltb_lt].
    lia.
  - apply list_elem_of_In, H in Hi. apply andb_true_intro.
    split; [apply Z.leb_le|apply Z.ltb_lt]; lia.
Qed.

Section CoreFrames.
Context {C : Type} {core : TrackingCore C}.
Implicit Types (s : Live.rtmaps_python C) (e : Live.frame_env).

Lemma limit_output_coherent r out n :
  Live.limit_output r = Ok (out, n) -> len out = Some n /\ (n <= 1)%nat.
Proof.
  unfold Live.limit_output.
  destruct (len r) as [n0|]; [|done]. cbn [or_raise bind].
  set (r1 := if Nat.ltb 1 n0 then Live.take_rows 1 r else r).
  destruct (len r1) as [n1|] eqn:Hr1; [|done]. cbn [or_raise bind].
  set (r2 := if Nat.ltb 1 n1 then empty 15 else r1).
  assert (exists n2, len r2 = Some n2 /\ (n2 <= 1)%nat) as (n2 & Hr2 & Hle).
  { unfold r2. destruct (Nat.ltb_spec 1 n1).
    - exists O. split; [done|lia].
    - exists n1. split; [done|lia]. }
  rewrite Hr2. cbn [or_raise bind]. intros [= <- <-].
  destruct (Nat.ltb_spec 1 n2); [lia|]. done.
Qed.

(** A frame that [Core] completes writes at most three elements, all with
    the timestamp of the input, in the order tracks, num_tracks,
    track_ids. Each of the three writes is guarded and leaves its element
    out when it fails: the tracks element is the capped result of 0 or 1
    rows, or the empty element when that write fails and the retry does
    not; [num_tracks] is the row count of the capped result; the track ids
    are missing also when an active id does not fit int32. With no write
    failing and ids that fit, the frame writes exactly the three. *)
Theorem completed_frame_outputs s e s' frame_idx invoked tracking_results :
  Live.Core s e = (s', Live.Processed frame_idx invoked tracking_results) ->
  let active_track_ids :=
    default [] (RT.get_active_tracks ∘ snd <$> Live.tracker s) in
  exists timestamp input_data out n,
    Live.det_ioelt e = Some (timestamp, Some input_data)
    /\ len out = Some n /\ (n <= 1)%nat
    /\ Live.outputs s'
       = Live.outputs s
         ++ (if Live.tracks_write_fault e then
               if Live.minimal_write_fault e then []
               else [{| Live.port := "tracks"; Live.ts := timestamp;
                        Live.data := Live.Tracks (empty 15) |}]
             else [{| Live.port := "tracks"; Live.ts := timestamp;
                      Live.data := Live.Tracks out |}])
         ++ (if Live.num_tracks_block_fault e then []
             else [{| Live.port := "num_tracks"; Live.ts := timestamp;
                      Live.data := Live.NumTracks n |}])
         ++ (if Live.track_ids_block_fault e
                || negb (forallb Live.fits_int32 active_track_ids)
             then []
             else [{| Live.port := "track_ids"; Live.ts := timestamp;
                      Live.data := Live.TrackIds active_track_ids |}])
    /\ (Live.tracks_write_fault e = false ->
        Live.num_tracks_block_fault e = false ->
        Live.track_ids_block_fault e = false ->
        Forall (fun i => - 2 ^ 31 <= i < 2 ^ 31) active_track_ids ->
        Live.outputs s'
        = Live.outputs s
          ++ [{| Live.port := "tracks"; Live.ts := timestamp;
                 Live.data := Live.Tracks out |};
              {| Live.port := "num_tracks"; Live.ts := timestamp;
                 Live.data := Live.NumTracks n |};
              {| Live.port := "track_ids"; Live.ts := timestamp;
                 Live.data := Live.TrackIds active_track_ids |}]).
Proof.
  intros Hcore ids.
  destruct (Core_cases s e)
    as [[_ E]|[_ [[_ E]|[_ [E|[[inv' E]|
          (ts & input & inv' & r' & out & k & Hio & Hlim & E)]]]]]];
    rewrite E in Hcore; simplify_eq.
  destruct (limit_output_coherent _ _ _ Hlim) as [Hlen Hk].
  exists ts, input, out, k. split; [done|]. split; [done|]. split; [done|].
  rewrite completed_outputs. fold ids. split; [done|].
  intros -> -> -> Hids. by rewrite (proj2 (fits_int32_all ids) Hids).
Qed.

Lemma uncompleted_fields s e s' o :
  Live.Core s e = (s', o) -> Live.is_processed o = false ->
  Live.frame_count s' = Live.frame_count s
  /\ Live.last_process_time s' = Live.last_process_time s
  /\ Live.tracker s' = Live.tracker s.
Proof.
  intros Hcore Ho.
  destruct (Core_cases s e)
    as [[_ E]|[_ [[_ E]|[_ [E|[[inv' E]|
          (ts & input & inv' & r' & out & k & Hio & Hlim & E)]]]]]];
    rewrite E in Hcore; simplify_eq; try (repeat split; auto; done).
  destruct (on_error_fields s e) as (Hl & _ & _ & _ & Hf & Ht).
  done.
Qed.


(** The frame counter of the component counts the frames [Core] has
    completed: skipped and failed frames are not counted. *)
Theorem frame_count_counts_completed s es :
  Live.frame_count (fst (Live.run s es))
  = Live.frame_count s
    + Z.of_nat (length (List.filter Live.is_processed (snd (Live.run s es)))).
Proof.
  revert s. induction es as [|e es IH]; intros s; [cbn; lia|].
  cbn [Live.run].
  destruct (Live.Core s e) as [s1 o] eqn:Hcore.
  specialize (IH s1). destruct (Live.run s1 es) as [s2 os].
  cbn [fst snd List.filter] in *. rewrite IH.
  destruct (Live.is_processed o) eqn:Ho.
  - destruct o; try done.
    destruct (Core_cases s e)
      as [[_ E]|[_ [[_ E]|[_ [E|[[inv' E]|
            (ts & input & inv' & r' & out & k & Hio & Hlim & E)]]]]]];
      rewrite E in Hcore; simplify_eq.
    destruct (completed_fields s e ts out k) as (_ & _ & _ & _ & -> & _).
    cbn [length]. lia.
  - destruct (uncompleted_fields s e s1 o Hcore Ho) as (-> & _). lia.
Qed.

(** Once the error count has reached the threshold the breaker stays open:
    every later frame is dropped by the rate limiter or skipped by the
    breaker, and the state never changes again, so nothing in [Core] closes
    it. *)
Theorem breaker_open_persists s es :
  Live.max_errors s <= Live.error_count s ->
  fst (Live.run s es) = s
  /\ Forall (fun o => o = Live.RateLimited \/ o = Live.CircuitOpen)
       (snd (Live.run s es)).
Proof.
  intros Hopen. induction es as [|e es [IH1 IH2]]; [by split|].
  cbn [Live.run].
  assert (exists o, Live.Core s e = (s, o)
                    /\ (o = Live.RateLimited \/ o = Live.CircuitOpen))
    as (o & -> & Ho).
  { unfold Live.Core. destruct (Qltb _ _); [eauto|].
    apply Z.leb_le in Hopen. rewrite Hopen. eauto. }
  destruct (Live.run s es) as [s2 os]. cbn [fst snd] in *.
  split; [done|]. by constructor.
Qed.

(** [Birth] fails exactly when the constructor of the tracker fails. When
    it succeeds it installs the new tracker, sets the frame counter to 0
    and derives a positive minimum interval from max_fps; it leaves the
    error count and the clock of the rate limiter as they were, so an open
    breaker stays open across [Birth]. *)
Theorem Birth_state (self : Live.rtmaps_python C) :
  match Live.Birth self with
  | Raise _ => raised (RT.__init__ (Live.tracker_args_of (Live.props self)))
  | Ok s =>
      (exists t, RT.__init__ (Live.tracker_args_of (Live.props self)) = Ok t
                 /\ Live.tracker s = Some (Live.constructed self, t))
      /\ Live.frame_count s = 0
      /\ (0 < Live.min_process_interval s)%Q
      /\ Live.max_errors s = Live.p_max_errors (Live.props self)
      /\ Live.error_count s = Live.error_count self
      /\ Live.last_process_time s = Live.last_process_time self
  end.
Proof.
  unfold Live.Birth.
  destruct (RT.__init__ _) as [t|x]; cbn [bind]; [|done].
  split; [eauto|]. split; [done|]. split; [|done].
  cbn [Live.min_process_interval].
  destruct (Qltb 0 _) eqn:Hfps; [|done].
  apply Qltb_lt in Hfps. unfold Qdiv. rewrite Qmult_1_l.
  by apply Qinv_lt_0_compat.
Qed.

End CoreFrames.

Lemma completed_frame_outputs_witness :
  exists timestamp input_data out n,
    Live.det_ioelt (frame 100 two_cars) = Some (timestamp, Some input_data)
    /\ len out = Some n /\ (n <= 1)%nat
    /\ Live.outputs (fst (Live.Core (core := idle_core) born (frame 100 two_cars)))
       = Live.outputs born
         ++ [{| Live.port := "tracks"; Live.ts := timestamp;
                Live.data := Live.Tracks out |};
             {| Live.port := "num_tracks"; Live.ts := timestamp;
                Live.data := Live.NumTracks n |};
             {| Live.port := "track_ids"; Live.ts := timestamp;
                Live.data := Live.TrackIds [] |}].
Proof.
  destruct (completed_frame_outputs (core := idle_core) born (frame 100 two_cars)
              (fst (Live.Core (core := idle_core) born (frame 100 two_cars)))
              0 true
              (Mat 15 [[1.5; 1.8; 4.5; 10; 0; 30; 0.1; 0; 0.1; 2; 0; 0; 0; 0; 1]%Q;
                       [1.6; 1.9; 4.8; 15; 0; 35; 0.2; 1; 0.2; 2; 0; 0; 0; 0; 1]%Q])
              eq_refl)
    as (timestamp & input_data & out & n & Hio & Hlen & Hn & _ & Hall).
  exists timestamp, input_data, out, n.
  split; [exact Hio|]. split; [exact Hlen|]. split; [exact Hn|].
  exact (Hall eq_refl eq_refl eq_refl (List.Forall_nil _)).
Defined.


Lemma breaker_open_persists_witness :
  Live.max_errors tripped <= Live.error_count tripped
  /\ fst (Live.run (core := idle_core) tripped
            [frame 101 one_car; frame 102 one_car])
     = tripped.
Proof.
  assert (Live.max_errors tripped <= Live.error_count tripped) as Hopen
    by (vm_compute; discriminate).
  split; [exact Hopen|].
  exact (proj1 (breaker_open_persists (core := idle_core) tripped
                  [frame 101 one_car; frame 102 one_car] Hopen)).
Defined.

(** ** From the input to the emitted track *)

Section EndToEnd.
Context {C : Type} {core : TrackingCore C}.
Implicit Types (s : Live.rtmaps_python C) (e : Live.frame_env).

Lemma fallback_len d i frame_idx :
  exists n, len (Live._simple_tracking_fallback d i frame_idx) = Some n.
Proof.
  unfold Live._simple_tracking_fallback.
  destruct (len d) as [n|]; cbn [mbind option_bind from_option id]; [|by eexists].
  destruct (Nat.eqb n 0); cbn [from_option id]; [by eexists|].
  destruct (Live.elements d); cbn [mbind option_bind from_option id]; [|by eexists].
  destruct (Live.elements i); cbn [mbind option_bind from_option id]; [|by eexists].
  destruct (Live.fallback_rows _ _ _ _) as [[|r rows]|];
    cbn [mbind option_bind from_option id]; by eexists.
Qed.

Lemma tracking_step_len e dets_data frame_idx :
  exists n, len (fst (Live.tracking_step e dets_data frame_idx)) = Some n.
Proof.
  unfold Live.tracking_step.
  repeat case_match; cbn [fst]; try (by eexists). apply fallback_len.
Qed.

Lemma limit_output_total r n :
  len r = Some n -> exists out k, Live.limit_output r = Ok (out, k).
Proof.
  intros Hlen. unfold Live.limit_output. rewrite Hlen. cbn [or_raise bind].
  destruct r as [|l|c rows]; [done| |];
    repeat (case_match; cbn [or_raise bind len shape_at shape lookup list_lookup
                             Live.take_rows empty]); eauto.
Qed.

(** With both gates passed, the input present and no exception on the way,
    [Core] completes the frame on what the tracking step returns. *)
Lemma Core_completes s e timestamp input_data v out n :
  accepted s e ->
  Live.input_fault e = false -> Live.output_fault e = false ->
  Live.det_has_data e = true ->
  Live.det_ioelt e = Some (timestamp, Some input_data) ->
  Live.verbose s = Some v ->
  (v = true ->
   is_Some (len (dets (Live._parse_detection_input (Live.tracker s) input_data)))) ->
  let frame_idx := default (Live.frame_count s) (Live.frame_idx_in e) in
  let step :=
    Live.tracking_step e (Live._parse_detection_input (Live.tracker s) input_data)
      frame_idx in
  Live.limit_output (fst step) = Ok (out, n) ->
  Nat.ltb 0 n
  && (Live.first_track_log_fault e || negb (Live.first_track_indexable out))
  = false ->
  Live.Core s e
  = (Live.completed s e timestamp out n,
     Live.Processed frame_idx (snd step) (fst step)).
Proof.
  intros [Hrate Hbreak] Hin Hout Hdata Hio Hverb Hlen frame_idx. cbn zeta.
  intros Hlim Hlog.
  unfold Live.Core. rewrite Hrate, Hbreak. unfold Live.Core_body.
  cbn [Live.input_fault Live.det_has_data Live.det_ioelt Live.verbose
       Live.set_error_count Live.output_fault Live.frame_idx_in
       Live.tracker Live.frame_count Live.first_track_log_fault].
  rewrite Hin, Hdata, Hio, Hverb. cbn [negb]. fold frame_idx.
  assert (v && negb (is_Some_b
                       (len (dets (Live._parse_detection_input
                                     (Live.tracker s) input_data))))
          = false) as ->.
  { destruct v; [|done]. by destruct (Hlen eq_refl) as [k ->]. }
  destruct (Live.tracking_step e _ frame_idx) as [r inv].
  cbn [fst snd] in *.
  rewrite Hout, Hlim, Hlog.
  unfold Live.completed. cbn [Live.frame_count Live.tracker Live.set_error_count].
  by rewrite write_outputs_frame_count.
Qed.

Lemma info_of_row c type_id (r : list Q) :
  length r = c -> c = 7%nat \/ c = 8%nat \/ c = 15%nat ->
  length (info_of c type_id r) = 7%nat
  /\ info_of c type_id r !! 6%nat = score_of c r.
Proof.
  intros Hr [-> | [-> | ->]]; do 16 (destruct r as [|? r]; try done).
Qed.

Lemma box_row (a : ndarray) (r : list Q) :
  supported a -> length r = columns_seen a ->
  length (take 7 (drop (box_offset a) r)) = 7%nat.
Proof.
  intros [_ Hsup] Hr. rewrite length_take, length_drop, Hr.
  destruct a as [|l|c rows]; [done|cbn; lia|].
  destruct Hsup as [-> | [-> | ->]]; cbn; lia.
Qed.

Lemma limit_output_first_row c (row : list Q) rest :
  Live.limit_output (Mat c (row :: rest)) = Ok (Mat c [row], 1%nat).
Proof. by destruct rest. Qed.

Lemma fallback_array frame_idx (ds infs : list (list Q)) :
  Forall (fun r => length r = 7%nat) ds ->
  Forall (fun r => length r = 7%nat) infs ->
  ds <> [] -> infs <> [] ->
  Live._simple_tracking_fallback (Mat 7 ds) (Mat 7 infs) frame_idx
  = Mat 15 (rows_of (Live._simple_tracking_fallback (Mat 7 ds) (Mat 7 infs)
                       frame_idx)).
Proof.
  intros Hds Hinfs Hd Hi.
  destruct (fallback_rows_lookup frame_idx 0 ds infs Hds Hinfs)
    as (rows & Hrows & Hlen & _).
  unfold Live._simple_tracking_fallback.
  destruct ds as [|d0 ds]; [done|]. destruct infs as [|i0 infs]; [done|].
  cbn [len shape_at shape lookup list_lookup mbind option_bind length
       Nat.eqb Live.elements].
  rewrite Hrows. cbn [mbind option_bind from_option id].
  destruct rows; [done|]. done.
Qed.

(** From the input to the output, on a frame that passes the gates after
    [Birth], with the host raising nowhere and the log line on the first
    result going through, as it does when the first height is finite: a
    supported input with at least one object is tracked as a whole, one
    result per object, and the element written on the tracks output is the
    result of the first object alone. It carries that object's box
    unchanged, the track id 100 times the frame index, and as confidence
    the object's score as it came in (1 without a score column). *)
Theorem first_detection_emitted s e timestamp trk a (r0 : list Q) rest v :
  accepted s e -> quiet e ->
  Live.first_track_log_fault e = false ->
  Live.det_has_data e = true ->
  Live.det_ioelt e = Some (timestamp, Some (PyArray a)) ->
  Live.verbose s = Some v ->
  Live.tracker s = Some trk ->
  supported a -> logical_rows a = r0 :: rest ->
  let frame_idx := default (Live.frame_count s) (Live.frame_idx_in e) in
  exists s' tracking_results row,
    Live.Core s e = (s', Live.Processed frame_idx true tracking_results)
    /\ length (rows_of tracking_results) = logical_objects a
    /\ Live.outputs s' !! length (Live.outputs s)
       = Some {| Live.port := "tracks"; Live.ts := timestamp;
                 Live.data := Live.Tracks (Mat 15 [row]) |}
    /\ take 7 row = take 7 (drop (box_offset a) r0)
    /\ row !! 7%nat = Some (inject_Z (frame_idx * 100))
    /\ row !! 14%nat = score_of (columns_seen a) r0.
Proof.
  intros Hacc (Hin & Hblock & Hout & Hw & _ & _) Hlog Hdata Hio Hverb Htrk Hsup
    Hrows frame_idx.
  pose proof (parsed_supported trk a Hsup) as Hp.
  set (ds := map (fun r => take 7 (drop (box_offset a) r)) (logical_rows a)) in *.
  set (infs := map (info_of (columns_seen a) (RT._get_type_id (snd trk)))
                 (logical_rows a)) in *.
  pose proof (logical_rows_wf a Hsup) as Hwf.
  assert (columns_seen a = 7%nat \/ columns_seen a = 8%nat
          \/ columns_seen a = 15%nat) as Hcols.
  { destruct Hsup as [_ Hs]. destruct a as [|l|c rows]; [done|cbn; tauto|done]. }
  assert (Forall (fun r => length r = 7%nat) ds) as Hds.
  { unfold ds. rewrite Forall_map. eapply Forall_impl; [exact Hwf|].
    intros r Hr. by apply box_row. }
  assert (Forall (fun r => length r = 7%nat) infs) as Hinfs.
  { unfold infs. rewrite Forall_map. eapply Forall_impl; [exact Hwf|].
    intros r Hr. by apply info_of_row. }
  assert (Live.tracking_step e
            (Live._parse_detection_input (Some trk) (PyArray a)) frame_idx
          = (Live._simple_tracking_fallback (Mat 7 ds) (Mat 7 infs) frame_idx,
             true)) as Hstep.
  { unfold Live.tracking_step. rewrite Hp. cbn [dets info].
    cbn [shape_at shape lookup list_lookup Nat.eqb negb]. by rewrite Hblock. }
  destruct (fallback_rows_lookup frame_idx 0 ds infs Hds Hinfs)
    as (frows & Hfrows & Hlen & Hlook).
  rewrite (fallback_result_rows frame_idx ds infs Hds Hinfs) in Hfrows.
  injection Hfrows as <-.
  assert (ds !! 0%nat = Some (take 7 (drop (box_offset a) r0))) as Hd0
    by (unfold ds; by rewrite Hrows).
  assert (infs !! 0%nat
          = Some (info_of (columns_seen a) (RT._get_type_id (snd trk)) r0))
    as Hi0 by (unfold infs; by rewrite Hrows).
  destruct (Hlook 0%nat _ _ Hd0 Hi0) as (row & Hrow & Hbox & Hid & Hconf & Hrl).
  rewrite fallback_array in Hstep
    by (try done; unfold ds, infs; by rewrite Hrows).
  destruct (rows_of (Live._simple_tracking_fallback (Mat 7 ds) (Mat 7 infs)
                       frame_idx)) as [|row' rows'] eqn:Hout_rows; [done|].
  cbn in Hrow. simplify_eq.
  pose proof (Core_completes s e timestamp (PyArray a) v (Mat 15 [row]) 1%nat
                Hacc Hin Hout Hdata Hio Hverb) as Hcore.
  cbn zeta in Hcore. fold frame_idx in Hcore. rewrite Htrk, Hstep in Hcore.
  cbn [fst snd] in Hcore.
  rewrite Hcore.
  - eexists _, _, row. split; [reflexivity|].
    split.
    { cbn [rows_of]. rewrite Hlen. unfold ds, infs, logical_objects.
      rewrite !length_map. lia. }
    split.
    { rewrite completed_outputs, Hw.
      by rewrite lookup_app_r, Nat.sub_diag by lia. }
    split; [done|]. split.
    { rewrite Hid. do 2 f_equal. cbn [Z.of_nat]. lia. }
    rewrite Hconf. apply info_of_row; [|done].
    rewrite Forall_forall in Hwf. apply Hwf. rewrite Hrows. by left.
  - intros _. rewrite Hp. cbn [dets len shape_at shape lookup list_lookup].
    by eexists.
  - apply limit_output_first_row.
  - rewrite Hlog. cbn [Live.first_track_indexable orb negb].
    rewrite Hrl. done.
Qed.

End EndToEnd.

Lemma first_detection_emitted_witness :
  exists s' tracking_results row,
    Live.Core (core := idle_core) born
      (frame 100 (PyArray (Vec [1.5; 1.8; 4.5; 10; 0; 30; 0.1; 0.9;
                                1.6; 1.9; 4.8; 15; 0; 35; 0.2; 0.8]%Q)))
    = (s', Live.Processed 0 true tracking_results)
    /\ length (rows_of tracking_results) = 2%nat
    /\ Live.outputs s' !! 0%nat
       = Some {| Live.port := "tracks"; Live.ts := 0;
                 Live.data := Live.Tracks (Mat 15 [row]) |}
    /\ row !! 14%nat = Some 0.9%Q.
Proof.
  destruct (first_detection_emitted (core := idle_core) born
              (frame 100 (PyArray (Vec [1.5; 1.8; 4.5; 10; 0; 30; 0.1; 0.9;
                                        1.6; 1.9; 4.8; 15; 0; 35; 0.2; 0.8]%Q)))
              0 kitti_car
              (Vec [1.5; 1.8; 4.5; 10; 0; 30; 0.1; 0.9;
                    1.6; 1.9; 4.8; 15; 0; 35; 0.2; 0.8]%Q)
              [1.5; 1.8; 4.5; 10; 0; 30; 0.1; 0.9]%Q
              [[1.6; 1.9; 4.8; 15; 0; 35; 0.2; 0.8]%Q] false)
    as (s' & r & row & Hcore & Hlen & Hout & _ & _ & Hconf).
  - split; vm_compute; reflexivity.
  - repeat split.
  - reflexivity.
  - reflexivity.
  - reflexivity.
  - reflexivity.
  - reflexivity.
  - split; [exact I|reflexivity].
  - reflexivity.
  - exists s', r, row. exact (conj Hcore (conj Hlen (conj Hout Hconf))).
Defined.

(** ** [track_frame]: what goes to the core and what comes back *)

Section TrackerFrames.
Context {C : Type} {core : TrackingCore C}.
Implicit Types (self : RT.RealtimeTracker C).

(** The constructor succeeds exactly when the core can be built and the
    dataset is KITTI or nuScenes; any other dataset is a ValueError, raised
    after the core was built. *)
Theorem init_succeeds_iff args :
  (exists self, RT.__init__ args = Ok self)
  <-> (exists c, core_new args = Ok c)
      /\ (arg_dataset args = "KITTI" \/ arg_dataset args = "nuScenes").
Proof.
  unfold RT.__init__. split.
  - intros [self Hinit]. destruct (core_new args) as [c|]; [|done].
    split; [eauto|]. cbn [bind] in Hinit.
    destruct (String.eqb_spec (arg_dataset args) "KITTI"); [auto|].
    destruct (String.eqb_spec (arg_dataset args) "nuScenes"); [auto|done].
  - intros [[c ->] Hds]. cbn [bind].
    destruct Hds as [-> | ->]; cbn [bind]; eauto.
Qed.

Lemma extract_raises results e : RT.extract results = Raise e -> e = TypeError.
Proof.
  unfold RT.extract. destruct results as [|r0 rest]; [done|].
  destruct (len r0); cbn [or_raise bind]; [done|]. by intros [= <-].
Qed.

(** A call of [track_frame] that raises anything but a TypeError has not
    advanced the frame counter: a frame that fails is not counted. *)
Theorem track_frame_failure_keeps_counter self d frame_idx additional_info
    self' e :
  RT.track_frame self d frame_idx additional_info = (self', Raise e) ->
  e <> TypeError ->
  RT.frame_count self' = RT.frame_count self.
Proof.
  unfold RT.track_frame. intros Ht He.
  destruct (len d) as [n0|]; [|by simplify_eq].
  match type of Ht with
  | context [match ?prep with Ok _ => _ | Raise _ => _ end] =>
      destruct prep as [da|]; [|by simplify_eq]
  end.
  destruct (core_track _ _ _ _) as [core' [results|x]]; [|by simplify_eq].
  injection Ht as <- Hex. by apply extract_raises in Hex.
Qed.

(** Detections with a score column are the same call as the boxes with the
    info rows spelled out: for a non-empty input of 7 or 8 columns and no
    info of the caller's, [track_frame] hands the core the first seven
    columns as detections and, per detection, the yaw as orientation, a
    zero 2D box, the type id of the category and the score, 1 when the
    input has no score column. *)
Theorem track_frame_splits_scores self c (rows : list (list Q)) frame_idx :
  Forall (fun r => length r = c) rows -> rows <> [] ->
  c = 7%nat \/ c = 8%nat ->
  RT.track_frame self (Mat c rows) frame_idx None
  = RT.track_frame self (Mat 7 (map (take 7) rows)) frame_idx
      (Some (Mat 7 (map (info_of c (RT._get_type_id self)) rows))).
Proof.
  intros Hwf Hne Hc. unfold RT.track_frame.
  cbn [len shape_at shape lookup list_lookup]. rewrite length_map.
  destruct rows as [|r0 rows']; [done|]. set (rows := r0 :: rows') in *.
  cbn [length Nat.eqb]. f_equal.
  assert (RT.prepare self (Mat c rows) None
          = Ok {| dets := Mat 7 (map (take 7) rows);
                  info := Mat 7 (map (info_of c (RT._get_type_id self)) rows) |})
    as ->.
  { unfold RT.prepare.
    cbn [shape_at shape lookup list_lookup or_raise bind].
    destruct Hc as [-> | ->]; cbn [Nat.eqb slice_cols or_raise bind];
      unfold ones, zeros, full; rewrite !repeat_as_map.
    - rewrite concatenate4_map. cbn [or_raise bind].
      assert (map (take 7) rows = rows) as ->; [|done].
      clear -Hwf. induction Hwf as [|r rs Hr _ IH]; [done|].
      cbn [map]. rewrite IH. f_equal. apply firstn_all2. lia.
    - rewrite map_map.
      rewrite (concatenate4_map
                 (fun r => take (7 - 6) (drop 6 (take (7 - 0) (drop 0 r))))
                 (fun _ => repeat 0%Q 4)
                 (fun _ => repeat (inject_Z (RT._get_type_id self)) 1)
                 (fun r => take (8 - 7) (drop 7 r))).
      cbn [or_raise bind]. do 3 f_equal.
      apply map_ext_in. intros r Hr%list_elem_of_In.
      rewrite Forall_forall in Hwf. specialize (Hwf r Hr).
      unfold info_of. do 1 f_equal.
      do 9 (destruct r as [|? r]; try done). }
  unfold RT.prepare.
  cbn [shape_at shape lookup list_lookup or_raise bind Nat.eqb]. done.
Qed.

(** What [track_frame] returns is the first hypothesis of the core when
    that holds a result, and the empty 0x15 array otherwise: an empty
    result always has the canonical shape, and further hypotheses are
    dropped. *)
Theorem track_frame_first_hypothesis self d frame_idx additional_info self' r :
  RT.track_frame self d frame_idx additional_info = (self', Ok r) ->
  exists prepared results,
    core_track (RT.tracker self) prepared
      (default (RT.frame_count self) frame_idx) "realtime"
    = (RT.tracker self', Ok results)
    /\ (r = empty 15
        \/ exists n rest, results = r :: rest /\ len r = Some n /\ (0 < n)%nat).
Proof.
  unfold RT.track_frame. intros Ht.
  destruct (len d) as [n0|]; [|by simplify_eq].
  match type of Ht with
  | context [match ?prep with Ok _ => _ | Raise _ => _ end] =>
      destruct prep as [da|]; [|by simplify_eq]
  end.
  destruct (core_track _ _ _ _) as [core' [results|x]] eqn:Hcore;
    [|by simplify_eq].
  injection Ht as <- Hex. exists da, results. split; [done|].
  unfold RT.extract in Hex. destruct results as [|r0 rest]; [left; by simplify_eq|].
  destruct (len r0) as [n|] eqn:Hn; cbn [or_raise bind] in Hex; [|done].
  destruct (Nat.ltb_spec 0 n); simplify_eq; [right; eauto|by left].
Qed.

End TrackerFrames.

Lemma track_frame_failure_keeps_counter_witness :
  RT.frame_count
    (fst (RT.track_frame (core := faulty_core) (snd kitti_car)
            (Mat 7 [[1.5; 1.8; 4.5; 10; 0; 30; 0.1]%Q]) None None))
  = RT.frame_count (snd kitti_car).
Proof.
  refine (track_frame_failure_keeps_counter (core := faulty_core) (snd kitti_car)
            (Mat 7 [[1.5; 1.8; 4.5; 10; 0; 30; 0.1]%Q]) None None _ CoreFault
            _ _).
  - reflexivity.
  - discriminate.
Defined.

Lemma track_frame_splits_scores_witness :
  RT.track_frame (core := idle_core) (snd kitti_car)
    (Mat 8 [[1.5; 1.8; 4.5; 10; 0; 30; 0.1; 0.9]%Q]) None None
  = RT.track_frame (core := idle_core) (snd kitti_car)
      (Mat 7 [[1.5; 1.8; 4.5; 10; 0; 30; 0.1]%Q]) None
      (Some (Mat 7 [[0.1; 0; 0; 0; 0; 2; 0.9]%Q])).
Proof.
  refine (track_frame_splits_scores (core := idle_core) (snd kitti_car) 8
            [[1.5; 1.8; 4.5; 10; 0; 30; 0.1; 0.9]%Q] None _ _ _).
  - by repeat constructor.
  - discriminate.
  - by right.
Defined.

Lemma track_frame_first_hypothesis_witness :
  exists prepared results,
    core_track (TrackingCore := idle_core) (RT.tracker (snd kitti_car)) prepared
      (default (RT.frame_count (snd kitti_car)) None) "realtime"
    = (tt, Ok results).
Proof.
  destruct (track_frame_first_hypothesis (core := idle_core) (snd kitti_car)
              (Mat 7 [[1.5; 1.8; 4.5; 10; 0; 30; 0.1]%Q]) None None
              (fst (RT.track_frame (core := idle_core) (snd kitti_car)
                      (Mat 7 [[1.5; 1.8; 4.5; 10; 0; 30; 0.1]%Q]) None None))
              (empty 15) eq_refl)
    as (prepared & results & Hcore & _).
  exists prepared, results. exact Hcore.
Defined.

(** ** The exporter: closing, opening, errors *)

Lemma close_fold (files : gmap Z string) (disk : gmap string Csv.file) :
  let disk' :=
    map_fold (fun (_ : Z) path d => alter Csv.close_file path d) disk files in
  (forall p, Csv.rows <$> disk' !! p = Csv.rows <$> disk !! p)
  /\ (forall p, Csv.encoding <$> disk' !! p = Csv.encoding <$> disk !! p)
  /\ (forall h path f', files !! h = Some path -> disk' !! path = Some f' ->
                        Csv.closed f' = true).
Proof.
  cbn zeta.
  apply (map_fold_weak_ind
           (fun r (m : gmap Z string) =>
              (forall p, Csv.rows <$> r !! p = Csv.rows <$> disk !! p)
              /\ (forall p, Csv.encoding <$> r !! p = Csv.encoding <$> disk !! p)
              /\ (forall h path f', m !! h = Some path -> r !! path = Some f' ->
                                    Csv.closed f' = true))).
  - split; [done|]. split; [done|]. intros h path f' Hh. by rewrite lookup_empty in Hh.
  - intros i path m r Hi (Hrows & Henc & Hcl). split; [|split].
    + intros p. rewrite <- Hrows. destruct (decide (p = path)) as [->|Hne].
      * rewrite lookup_alter_eq. by destruct (r !! path).
      * by rewrite lookup_alter_ne.
    + intros p. rewrite <- Henc. destruct (decide (p = path)) as [->|Hne].
      * rewrite lookup_alter_eq. by destruct (r !! path).
      * by rewrite lookup_alter_ne.
    + intros h path' f' Hh Hf'.
      destruct (decide (path' = path)) as [->|Hne].
      * rewrite lookup_alter_eq in Hf'. destruct (r !! path); by simplify_eq/=.
      * rewrite lookup_alter_ne in Hf' by done.
        destruct (decide (h = i)) as [->|Hhi].
        { rewrite lookup_insert_eq in Hh. by simplify_eq. }
        rewrite lookup_insert_ne in Hh by done. by eapply Hcl.
Qed.

(** [close_files] forgets every handle and writer and closes the files it
    held, keeping their rows; it can be called again at no effect, and an
    [export_result] after it writes nothing, for any hypothesis. *)
Theorem close_files_effect self disk :
  let st := Csv.close_files self disk in
  Csv.csv_files (fst st) = ∅ /\ Csv.csv_writers (fst st) = ∅
  /\ (forall p, Csv.rows <$> snd st !! p = Csv.rows <$> disk !! p)
  /\ (forall h path f', Csv.csv_files self !! h = Some path ->
                        snd st !! path = Some f' -> Csv.closed f' = true)
  /\ Csv.close_files (fst st) (snd st) = st
  /\ (forall result_data hypo det_id2str frame T,
        Csv.export_result (fst st) (snd st) result_data hypo det_id2str frame T
        = Ok (snd st)).
Proof.
  destruct (close_fold (Csv.csv_files self) disk) as (Hrows & _ & Hcl).
  cbn zeta in *. split; [done|]. split; [done|]. split; [exact Hrows|].
  split; [exact Hcl|]. split.
  - unfold Csv.close_files. cbn [fst snd Csv.csv_files Csv.save_dir Csv.num_hypo].
    by rewrite map_fold_empty.
  - intros. unfold Csv.export_result. cbn [fst Csv.close_files Csv.csv_writers].
    by rewrite lookup_empty.
Qed.

Lemma foldl_open_other seq_name hs st p :
  (forall h, h ∈ hs -> p <> export_path (Csv.save_dir (fst st)) h seq_name) ->
  snd (foldl (Csv.open_one seq_name) st hs) !! p = snd st !! p.
Proof.
  revert st. induction hs as [|h0 hs IH]; intros st Hp; [done|].
  cbn [foldl].
  destruct (open_one_fields seq_name st h0) as (Hd & _ & Hdisk). cbn zeta in *.
  rewrite IH.
  - rewrite Hdisk, lookup_insert_ne; [done|]. intros Heq. apply (Hp h0); [by left|done].
  - intros h Hh. rewrite Hd. apply Hp. by right.
Qed.

Lemma foldl_open_writers seq_name hs st h :
  is_Some (Csv.csv_writers (fst (foldl (Csv.open_one seq_name) st hs)) !! h)
  <-> h ∈ hs \/ is_Some (Csv.csv_writers (fst st) !! h).
Proof.
  revert st. induction hs as [|h0 hs IH]; intros st.
  - cbn. split; [auto|]. intros [Hin|?]; [|done]. by apply elem_of_nil in Hin.
  - cbn [foldl]. rewrite IH.
    destruct (open_one_fields seq_name st h0) as (_ & Hw & _). cbn zeta in Hw.
    rewrite Hw, elem_of_cons. destruct (decide (h = h0)) as [->|Hne].
    + rewrite lookup_insert_eq. split; [auto|]. intros _. right. eauto.
    + rewrite lookup_insert_ne by done. tauto.
Qed.

(** [init_sequence_files] opens a writer for the configured hypotheses
    0 .. num_hypo - 1 and for no other, and leaves the rows of every file
    that is not a file of this sequence as they were; with num_hypo <= 0 it
    opens nothing. *)
Theorem init_sequence_files_scope self disk seq_name :
  let st := Csv.init_sequence_files self disk seq_name in
  (forall h, is_Some (Csv.csv_writers (fst st) !! h)
             <-> 0 <= h < Csv.num_hypo self)
  /\ (forall p,
        (forall h, 0 <= h < Csv.num_hypo self ->
                   p <> export_path (Csv.save_dir self) h seq_name) ->
        Csv.rows <$> snd st !! p = Csv.rows <$> disk !! p).
Proof.
  cbn zeta. unfold Csv.init_sequence_files. split.
  - intros h. rewrite foldl_open_writers, elem_of_seqZ.
    cbn [fst Csv.close_files Csv.csv_writers]. rewrite lookup_empty.
    split; [intros [?|[? ?]]; [lia|done]|intros ?; left; lia].
  - intros p Hp. rewrite foldl_open_other.
    + cbn [snd Csv.close_files]. apply close_fold.
    + intros h Hh%elem_of_seqZ. apply Hp. lia.
Qed.

(** With an open sink, a result whose type id the table does not hold
    raises KeyError, above or below the threshold, and a result array of
    fewer than 15 entries raises as well; in both cases no row is
    written. *)
Theorem export_result_errors self disk hypo path det_id2str frame T :
  Csv.csv_writers self !! hypo = Some path ->
  (forall r, Csv.lookup_type det_id2str (tr_type_id r) = None ->
             Csv.export_result self disk (as_array r) hypo det_id2str frame T
             = Raise KeyError)
  /\ (forall result_data, (length result_data < 15)%nat ->
        raised (Csv.export_result self disk result_data hypo det_id2str frame T)).
Proof.
  intros Hw. split.
  - intros r Hty. unfold Csv.export_result, Csv.csv_row, as_array. rewrite Hw.
    cbn [lookup list_lookup or_raise bind]. by rewrite Hty.
  - intros rd Hlen. unfold Csv.export_result, Csv.csv_row. rewrite Hw.
    assert (rd !! 14%nat = None) as H14 by (apply lookup_ge_None; lia).
    repeat match goal with
           | |- context [or_raise ?e (rd !! ?i)] =>
               destruct (rd !! i); cbn [or_raise bind]; [|done]
           | |- context [or_raise KeyError ?o] =>
               destruct o; cbn [or_raise bind]; [|done]
           end; done.
Qed.

Lemma export_result_errors_witness :
  let st := Csv.init_sequence_files (Csv.__init__ "out" 1) ∅ "0001" in
  raised (Csv.export_result (fst st) (snd st) [1.5; 1.8; 4.5]%Q 0
            RT.kitti_id2str 0 0.5%Q).
Proof.
  intros st.
  refine (proj2 (export_result_errors (fst st) (snd st) 0
                   (export_path "out" 0 "0001") RT.kitti_id2str 0 0.5%Q _)
            [1.5; 1.8; 4.5]%Q _).
  - vm_compute. reflexivity.
  - cbn. lia.
Defined.

(** [int] gives back the integer an integral value stands for, and cuts a
    non-negative value down to its integer part. *)
Lemma int_truncates :
  (forall k, Csv.int (inject_Z k) = k)
  /\ (forall q, (0 <= q)%Q ->
        (inject_Z (Csv.int q) <= q)%Q /\ (q < inject_Z (Csv.int q) + 1)%Q).
Proof.
  split.
  - intros k. unfold Csv.int. cbn. apply Z.quot_1_r.
  - intros [n d] Hq. unfold Csv.int. cbn [Qnum Qden].
    assert (0 <= n) as Hn by (unfold Qle in Hq; cbn in Hq; lia).
    rewrite Z.quot_div_nonneg by lia.
    pose proof (Z.div_mod n (Z.pos d) ltac:(lia)) as Hdm.
    pose proof (Z.mod_pos_bound n (Z.pos d) ltac:(lia)) as Hmod.
    unfold Qle, Qlt, Qplus, inject_Z. cbn [Qnum Qden]. split; nia.
Qed.

(** The row written for a result starts with the frame given by the
    caller, the integer part of the track id (the id itself when it is
    integral) and the category name of the result's type id, and has 18
    cells. *)
Theorem exported_row_identity r det_id2str frame T object_type :
  Csv.lookup_type det_id2str (tr_type_id r) = Some object_type ->
  (T <= tr_conf r)%Q ->
  (0 <= tr_id r)%Q ->
  exists row k,
    Csv.csv_row (as_array r) det_id2str frame T = Ok (Some row)
    /\ length row = 18%nat
    /\ row !! 0%nat = Some (Csv.CInt frame)
    /\ row !! 1%nat = Some (Csv.CInt k)
    /\ (inject_Z k <= tr_id r)%Q /\ (tr_id r < inject_Z k + 1)%Q
    /\ (forall j, tr_id r = inject_Z j -> k = j)
    /\ row !! 2%nat = Some (Csv.CStr object_type).
Proof.
  intros Hty Hle%Qle_bool_iff Hid.
  exists (export_row r frame object_type), (Csv.int (tr_id r)).
  rewrite (csv_row_result _ _ _ _ _ Hty), Hle. split; [done|]. split; [done|].
  split; [done|]. split; [done|].
  destruct (proj2 int_truncates (tr_id r) Hid) as [Hlo Hhi].
  split; [done|]. split; [done|]. split; [|done].
  intros j ->. apply (proj1 int_truncates).
Qed.

Lemma exported_row_identity_witness :
  exists row,
    Csv.csv_row (as_array car_result) RT.kitti_id2str 7 0.5%Q = Ok (Some row)
    /\ row !! 1%nat = Some (Csv.CInt 1)
    /\ row !! 2%nat = Some (Csv.CStr "Car").
Proof.
  destruct (exported_row_identity car_result RT.kitti_id2str 7 0.5%Q "Car"
              eq_refl ltac:(by vm_compute) ltac:(by vm_compute))
    as (row & k & Hrow & _ & _ & Hid & _ & _ & Hk & Hty).
  exists row. rewrite (Hk 1 eq_refl) in Hid.
  exact (conj Hrow (conj Hid Hty)).
Defined.

(** ** The standalone export *)

Lemma with_rows_nil f : with_rows f [] = f.
Proof. destruct f. unfold with_rows. cbn. by rewrite app_nil_r. Qed.

Lemma with_rows_app f xs ys : with_rows (with_rows f xs) ys = with_rows f (xs ++ ys).
Proof. unfold with_rows. cbn. by rewrite app_assoc. Qed.

(** The results of one hypothesis, exported into its file. *)
Lemma export_results_rows self rs disk hypo det_id2str frame T path f :
  Csv.csv_writers self !! hypo = Some path ->
  disk !! path = Some f ->
  known_types det_id2str rs ->
  Csv.export_results self disk (map as_array rs) hypo det_id2str frame T
  = Ok (<[path := with_rows f (exported_rows det_id2str frame T rs)]> disk).
Proof.
  intros Hw. revert disk f.
  induction rs as [|r rs IH]; intros disk f Hf Hknown.
  - cbn. rewrite with_rows_nil. by rewrite insert_id.
  - apply Forall_cons in Hknown as [[ty Hty] Hknown].
    cbn [map Csv.export_results].
    unfold Csv.export_result at 1. rewrite Hw, (csv_row_result _ _ _ _ _ Hty).
    unfold exported_rows. cbn [List.filter bind].
    destruct (Qle_bool T (tr_conf r)) eqn:Hle; cbn [bind map].
    + rewrite (alter_present _ _ _ f Hf).
      rewrite (IH _ (Csv.append_row (export_row r frame ty) f))
        by (by rewrite ?lookup_insert_eq).
      rewrite insert_insert_eq. do 2 f_equal.
      unfold object_type_of. rewrite Hty. cbn [from_option id].
      unfold with_rows, exported_rows. cbn. by rewrite <- app_assoc.
    + by rewrite (IH _ f).
Qed.

(** What is on disk under the path of a hypothesis once the loop over the
    hypotheses [hs] is through. *)
Lemma export_hypotheses_rows self hs disk (data : list (list TrackingResult))
    det_id2str frame T seq_name :
  NoDup hs ->
  (forall h, h ∈ hs ->
     0 <= h
     /\ Csv.csv_writers self !! h = Some (export_path (Csv.save_dir self) h seq_name)
     /\ disk !! export_path (Csv.save_dir self) h seq_name = Some header_file) ->
  Forall (known_types det_id2str) data ->
  exists disk',
    Csv.export_hypotheses self disk hs (map (map as_array) data) det_id2str
      frame T = Ok disk'
    /\ (forall h, h ∈ hs ->
          disk' !! export_path (Csv.save_dir self) h seq_name
          = Some (with_rows header_file
                    (exported_rows det_id2str frame T
                       (default [] (data !! Z.to_nat h)))))
    /\ (forall p, (forall h, h ∈ hs ->
                     p <> export_path (Csv.save_dir self) h seq_name) ->
                  disk' !! p = disk !! p).
Proof.
  intros Hnd Hhs Hknown. revert disk Hhs.
  induction hs as [|h0 hs IH]; intros disk Hhs.
  { exists disk. split; [done|]. split; [|done].
    intros h Hh. by apply elem_of_nil in Hh. }
  apply NoDup_cons in Hnd as [Hh0 Hnd].
  destruct (Hhs h0 ltac:(by left)) as (Hpos & Hw & Hf).
  set (path0 := export_path (Csv.save_dir self) h0 seq_name) in *.
  set (rs0 := default [] (data !! Z.to_nat h0)).
  assert (known_types det_id2str rs0) as Hk0.
  { unfold rs0. destruct (data !! Z.to_nat h0) as [rs|] eqn:Hrs; [|by constructor].
    rewrite Forall_forall in Hknown. apply Hknown.
    by eapply list_elem_of_lookup_2. }
  cbn [Csv.export_hypotheses].
  assert ((if Z.ltb h0 (Z.of_nat (length (map (map as_array) data)))
           then Csv.export_results self disk
                  (default [] (map (map as_array) data !! Z.to_nat h0)) h0
                  det_id2str frame T
           else Ok disk)
          = Ok (<[path0 := with_rows header_file
                             (exported_rows det_id2str frame T rs0)]> disk))
    as ->.
  { rewrite length_map, list_lookup_fmap.
    destruct (Z.ltb_spec h0 (Z.of_nat (length data))) as [Hlt|Hge].
    - destruct (data !! Z.to_nat h0) as [rs|] eqn:Hrs.
      + unfold rs0 in *.
        cbn [fmap option_fmap option_map from_option id] in *.
        by apply export_results_rows.
      + apply lookup_ge_None in Hrs. lia.
    - assert (data !! Z.to_nat h0 = None) as Hnone
        by (apply lookup_ge_None; lia).
      unfold rs0. rewrite Hnone. cbn [from_option id].
      unfold exported_rows. cbn. rewrite with_rows_nil. by rewrite insert_id. }
  cbn [bind].
  destruct (IH Hnd (<[path0 := with_rows header_file
                               (exported_rows det_id2str frame T rs0)]> disk))
    as (disk' & Hex & Hin & Hout).
  { intros h Hh. destruct (Hhs h ltac:(by right)) as (? & ? & ?).
    split; [done|]. split; [done|].
    rewrite lookup_insert_ne; [done|].
    intros Heq%export_path_inj. by subst. }
  exists disk'. split; [done|]. split.
  - intros h [->|Hh]%elem_of_cons; [|by apply Hin].
    rewrite Hout; [by rewrite lookup_insert_eq|].
    intros h Hh Heq%export_path_inj. by subst.
  - intros p Hp. rewrite Hout by (intros h Hh; apply Hp; by right).
    rewrite lookup_insert_ne; [done|]. intros Heq. by apply (Hp h0); [left|].
Qed.

Lemma foldl_open_files seq_name hs st :
  Csv.csv_files (fst st) = Csv.csv_writers (fst st) ->
  Csv.csv_files (fst (foldl (Csv.open_one seq_name) st hs))
  = Csv.csv_writers (fst (foldl (Csv.open_one seq_name) st hs)).
Proof.
  revert st. induction hs as [|h hs IH]; intros st Heq; [done|].
  cbn [foldl]. apply IH. destruct st as [self disk]. cbn in *. by rewrite Heq.
Qed.

Lemma foldl_open_save_dir seq_name hs st :
  Csv.save_dir (fst (foldl (Csv.open_one seq_name) st hs)) = Csv.save_dir (fst st).
Proof.
  revert st. induction hs as [|h hs IH]; intros st; [done|].
  cbn [foldl]. rewrite IH. by destruct st.
Qed.

(** [export_tracking_results_csv] starts the files of the sequence afresh
    on every call: whatever the disk held, the file of a configured
    hypothesis afterwards is closed and holds the header followed by one
    row for each result of this call that reaches the threshold, in order,
    and nothing of an earlier call. Results are taken to have type ids of
    the table. *)
Theorem standalone_export_overwrites dir seq_name (data : list (list TrackingResult))
    det_id2str frame T n disk hypo :
  0 <= hypo < n ->
  Forall (known_types det_id2str) data ->
  exists disk',
    Csv.export_tracking_results_csv dir seq_name (map (map as_array) data)
      det_id2str frame T n disk = Ok disk'
    /\ disk' !! export_path dir hypo seq_name
       = Some {| Csv.encoding := "utf-8";
                 Csv.rows :=
                   map Csv.CStr Csv.get_csv_header
                   :: exported_rows det_id2str frame T
                        (default [] (data !! Z.to_nat hypo));
                 Csv.closed := true |}.
Proof.
  intros Hh Hknown. unfold Csv.export_tracking_results_csv.
  destruct (Csv.init_sequence_files (Csv.__init__ dir n) disk seq_name)
    as [exporter disk1] eqn:Hinit.
  assert (Csv.save_dir exporter = dir) as Hdir.
  { apply (f_equal fst) in Hinit. cbn [fst] in Hinit. rewrite <- Hinit.
    unfold Csv.init_sequence_files. by rewrite foldl_open_save_dir. }
  assert (Csv.csv_files exporter = Csv.csv_writers exporter) as Hfiles.
  { apply (f_equal fst) in Hinit. cbn [fst] in Hinit. rewrite <- Hinit.
    unfold Csv.init_sequence_files. by apply foldl_open_files. }
  assert (forall h, 0 <= h < n ->
            Csv.csv_writers exporter !! h = Some (export_path dir h seq_name)
            /\ disk1 !! export_path dir h seq_name = Some header_file) as Hopen.
  { intros h Hr.
    pose proof (init_sequence_files_creates (Csv.__init__ dir n) disk seq_name h Hr)
      as Hc.
    cbn zeta in Hc. by rewrite Hinit in Hc. }
  destruct (export_hypotheses_rows exporter (seqZ 0 n) disk1 data det_id2str
              frame T seq_name) as (disk2 & Hex & Hin & _).
  { apply NoDup_seqZ. }
  { intros h Hr%elem_of_seqZ. rewrite Hdir.
    destruct (Hopen h ltac:(lia)). split; [lia|done]. }
  { done. }
  rewrite Hex. cbn [bind]. eexists. split; [done|].
  specialize (Hin hypo ltac:(apply elem_of_seqZ; lia)). rewrite Hdir in Hin.
  destruct (close_fold (Csv.csv_files exporter) disk2) as (Hrows & Henc & Hcl).
  cbn zeta in *. unfold Csv.close_files. cbn [snd].
  specialize (Hrows (export_path dir hypo seq_name)).
  specialize (Henc (export_path dir hypo seq_name)).
  rewrite Hin in Hrows, Henc.
  destruct (map_fold _ disk2 (Csv.csv_files exporter) !! export_path dir hypo seq_name)
    as [f'|] eqn:Hf'; [|done].
  specialize (Hcl hypo (export_path dir hypo seq_name) f').
  destruct (Hopen hypo Hh) as [Hw _]. rewrite <- Hfiles in Hw.
  specialize (Hcl Hw Hf'). cbn in Hrows, Henc. simplify_eq.
  destruct f' as [enc rws cl]. cbn in *. by subst.
Qed.

Lemma type_id_round_trip_witness :
  RT._get_type_id (snd kitti_car) = 2
  /\ Csv.lookup_type (RT.det_id2str (snd kitti_car))
       (inject_Z (RT._get_type_id (snd kitti_car)))
     = Some (RT.category (snd kitti_car)).
Proof.
  refine (proj1 (type_id_round_trip (core := idle_core)
                   (Live.tracker_args_of default_properties) (snd kitti_car) _)
            2 _).
  - reflexivity.
  - right. left.
Defined.

Lemma standalone_export_overwrites_witness :
  let old_disk : gmap string Csv.file :=
    {[ export_path "out" 0 "0001" :=
         Csv.append_row (export_row faint_result 1 "Car") header_file ]} in
  exists disk',
    Csv.export_tracking_results_csv "out" "0001"
      [[as_array car_result; as_array faint_result]] RT.kitti_id2str 2 0.5%Q 1
      old_disk = Ok disk'
    /\ disk' !! export_path "out" 0 "0001"
       = Some {| Csv.encoding := "utf-8";
                 Csv.rows := [map Csv.CStr Csv.get_csv_header;
                              export_row car_result 2 "Car"];
                 Csv.closed := true |}.
Proof.
  intros old_disk.
  refine (standalone_export_overwrites "out" "0001" [[car_result; faint_result]]
            RT.kitti_id2str 2 0.5%Q 1 old_disk 0 _ _).
  - lia.
  - repeat constructor; by eexists.
Defined.

Lemma track_frame_result_len {C : Type} {core : TrackingCore C}
    (self : RT.RealtimeTracker C) d frame_idx additional_info self' r :
  RT.track_frame self d frame_idx additional_info = (self', Ok r) ->
  exists n, len r = Some n.
Proof.
  unfold RT.track_frame. intros Ht.
  destruct (len d) as [n0|]; [|by simplify_eq].
  match type of Ht with
  | context [match ?prep with Ok _ => _ | Raise _ => _ end] =>
      destruct prep as [da|]; [|by simplify_eq]
  end.
  destruct (core_track _ _ _ _) as [core' [results|x]]; [|by simplify_eq].
  injection Ht as <- Hex.
  unfold RT.extract in Hex. destruct results as [|r0 rest]; [exists O; by simplify_eq|].
  destruct (len r0) as [n|] eqn:Hn; cbn [or_raise bind] in Hex; [|done].
  destruct (Nat.ltb_spec 0 n); simplify_eq; [eauto|by exists O].
Qed.

(** ** The first version of [Core] *)

Section BridgeCore.
Context {C : Type} {core : TrackingCore C}.

(** The first version of [Core] emits what [track_frame] returns, with no
    cap on the number of rows, then the row count. When every active track
    id fits int32 it emits the ids as well and advances its frame counter;
    otherwise the conversion raises after the two writes, the handler adds
    an empty 0x15 tracks element and the counter stays. When [track_frame]
    raises, [Core] emits a single empty 0x15 tracks element and leaves the
    counter alone. In none of these cases an exception leaves [Core];
    without an input element the handler fails too and the exception
    does. *)
Theorem bridge_Core_outputs (self : Bridge.rtmaps_python C) (e : Live.frame_env) :
  (Live.det_ioelt e = None -> Bridge.Core self e = (self, Some AttributeError))
  /\ (forall timestamp input_data oid t dets_data,
        Live.det_ioelt e = Some (timestamp, Some input_data) ->
        Bridge.verbose self = false ->
        Bridge.tracker self = Some (oid, t) ->
        Bridge._parse_detection_input (Bridge.tracker self) input_data
        = Some dets_data ->
        let frame_idx := default (Bridge.frame_count self) (Live.frame_idx_in e) in
        let call := RT.track_frame t (dets dets_data) (Some frame_idx)
                      (Some (info dets_data)) in
        let active_track_ids := RT.get_active_tracks (fst call) in
        let empty_output := {| Live.port := "tracks"; Live.ts := timestamp;
                               Live.data := Live.Tracks (empty 15) |} in
        exists s',
          Bridge.Core self e = (s', None)
          /\ Bridge.tracker s' = Some (oid, fst call)
          /\ match snd call with
             | Ok tracking_results =>
                 exists n,
                   len tracking_results = Some n
                   /\ let written :=
                        [{| Live.port := "tracks"; Live.ts := timestamp;
                            Live.data := Live.Tracks tracking_results |};
                         {| Live.port := "num_tracks"; Live.ts := timestamp;
                            Live.data := Live.NumTracks n |}] in
                      (Forall (fun i => - 2 ^ 31 <= i < 2 ^ 31) active_track_ids ->
                       Bridge.frame_count s' = Bridge.frame_count self + 1
                       /\ Bridge.outputs s'
                          = Bridge.outputs self ++ written
                            ++ [{| Live.port := "track_ids"; Live.ts := timestamp;
                                   Live.data := Live.TrackIds active_track_ids |}])
                      /\ (~ Forall (fun i => - 2 ^ 31 <= i < 2 ^ 31)
                              active_track_ids ->
                          Bridge.frame_count s' = Bridge.frame_count self
                          /\ Bridge.outputs s'
                             = Bridge.outputs self ++ written ++ [empty_output])
             | Raise _ =>
                 Bridge.frame_count s' = Bridge.frame_count self
                 /\ Bridge.outputs s' = Bridge.outputs self ++ [empty_output]
             end).
Proof.
  split.
  - intros Hio. unfold Bridge.Core. by rewrite Hio.
  - intros ts input oid t dd Hio Hverb Htrk Hparse frame_idx call ids empty_output.
    unfold Bridge.Core. rewrite Hio. cbn [from_option id].
    rewrite Hparse, Hverb, Htrk. cbn [andb]. fold frame_idx. fold call.
    subst ids. destruct call as [t' [r|x]] eqn:Hcall; cbn [fst snd].
    + destruct (track_frame_result_len t (dets dd) (Some frame_idx)
                  (Some (info dd)) t' r Hcall) as [n Hn].
      rewrite Hn.
      destruct (forallb Live.fits_int32 (RT.get_active_tracks t')) eqn:Hids;
        cbn [negb].
      * eexists. split; [done|]. split; [done|].
        exists n. split; [done|]. cbn zeta. split.
        -- intros _. split; [done|].
           cbn [Bridge.outputs Bridge.write Bridge.set_frame_count
                Bridge.set_tracker].
           by rewrite <- !app_assoc.
        -- intros Hno. by apply fits_int32_all in Hids.
      * eexists. split; [done|]. split; [done|].
        exists n. split; [done|]. cbn zeta. split.
        -- intros Hall%fits_int32_all. congruence.
        -- intros _. split; [done|].
           cbn [Bridge.outputs Bridge.write Bridge.on_error Bridge.set_tracker].
           unfold Bridge.on_error.
           cbn [Bridge.outputs Bridge.write Bridge.set_tracker].
           by rewrite <- !app_assoc.
    + eexists. split; [done|]. by split.
Qed.

End BridgeCore.

Lemma bridge_Core_outputs_witness :
  (exists s',
     Bridge.Core (core := idle_core) bridge_born (frame 100 two_cars) = (s', None)
     /\ Bridge.frame_count s' = 1)
  /\ (exists s',
        Bridge.Core (core := wide_id_core) bridge_wide_id (frame 100 two_cars)
        = (s', None)
        /\ Bridge.frame_count s' = 0
        /\ Bridge.outputs s'
           = [{| Live.port := "tracks"; Live.ts := 0;
                 Live.data := Live.Tracks (empty 15) |};
              {| Live.port := "num_tracks"; Live.ts := 0;
                 Live.data := Live.NumTracks 0 |};
              {| Live.port := "tracks"; Live.ts := 0;
                 Live.data := Live.Tracks (empty 15) |}]).
Proof.
  split.
  - destruct (proj2 (bridge_Core_outputs (core := idle_core) bridge_born
                       (frame 100 two_cars))
                0 two_cars O (snd kitti_car)
                (Live._parse_detection_input (Some kitti_car) two_cars)
                eq_refl eq_refl eq_refl eq_refl)
      as (s' & Hcore & _ & Hres).
    exists s'. split; [exact Hcore|].
    cbn in Hres. destruct Hres as (n & _ & Hfits & _).
    exact (proj1 (Hfits (List.Forall_nil _))).
  - destruct (proj2 (bridge_Core_outputs (core := wide_id_core) bridge_wide_id
                       (frame 100 two_cars))
                0 two_cars O wide_id_tracker
                (Live._parse_detection_input (Some (O, wide_id_tracker)) two_cars)
                eq_refl eq_refl eq_refl eq_refl)
      as (s' & Hcore & _ & Hres).
    exists s'. split; [exact Hcore|].
    cbn in Hres. destruct Hres as (n & Hn & _ & Hwide).
    injection Hn as <-. apply Hwide.
    intros Hall. apply Forall_inv in Hall. lia.
Defined.

(** ** The two normalizers on a flat buffer *)

Section FlatBuffer.
Context {C : Type} {core : TrackingCore C}.

(** The first version of the normalizer takes a non-empty 1-D array for a
    single row, whatever its length: it returns one detection, the first 7
    entries (entries 6 to 12 for a length of 15), with one info row. The
    later version splits a 1-D array of 8k entries into k detections. *)
Theorem first_version_flat_is_one_row (trk : nat * RT.RealtimeTracker C)
    (l : list Q) :
  l <> [] ->
  (exists out,
     Bridge._parse_detection_input (Some trk) (PyArray (Vec l)) = Some out
     /\ dets out
        = Mat (Nat.min 7 (length l))
            [take 7 (drop (if Nat.eqb (length l) 15 then 6 else 0) l)]
     /\ length (rows_of (info out)) = 1%nat)
  /\ ((length l mod 8 = 0)%nat ->
      length (rows_of (dets (Live._parse_detection_input (Some trk)
                               (PyArray (Vec l)))))
      = (length l / 8)%nat).
Proof.
  intros Hne. split.
  - unfold Bridge._parse_detection_input, Bridge.parse_ndarray.
    destruct l as [|q l]; [done|].
    cbn [shape_at shape lookup list_lookup mbind option_bind length Nat.eqb].
    unfold ensure_2d, reshape_row. cbn [ndim shape length Nat.eqb flat].
    change (length l =? 14)%nat with (length (q :: l) =? 15)%nat.
    change (S (length l)) with (length (q :: l)).
    generalize (q :: l) as r. intros r.
    remember (length r) as c eqn:Hr. symmetry in Hr.
    unfold Live.by_columns.
    cbn [shape_at shape lookup list_lookup mbind option_bind length].
    destruct (Nat.eqb_spec c 7) as [->|H7];
      [|destruct (Nat.eqb_spec c 8) as [->|H8];
        [|destruct (Nat.eqb_spec c 15) as [->|H15]]];
      unfold Live._generate_default_info;
      cbn [slice_cols mbind option_bind Live.type_id_of fmap option_fmap
           option_map from_option id map];
      unfold ones, zeros, full;
      cbn [repeat concatenate_axis1 hcat2 zip_rows mbind option_bind fmap
           option_fmap option_map];
      (eexists; split; [reflexivity|]); cbn [dets info rows_of length];
      (split; [|done]).
    + cbn [Nat.eqb]. rewrite drop_0. by rewrite firstn_all2 by lia.
    + done.
    + done.
    + by replace (Nat.min 7 c - Nat.min 0 c)%nat with (Nat.min 7 c) by lia.
  - intros Hmod.
    assert (supported (Vec l)) as Hsup by (split; [exact I|exact Hmod]).
    rewrite (parsed_supported trk (Vec l) Hsup). cbn [dets rows_of].
    rewrite length_map. cbn [logical_rows]. by rewrite chunks_length.
Qed.

End FlatBuffer.

Lemma first_version_flat_is_one_row_witness :
  length (rows_of (dets (Live._parse_detection_input (Some kitti_car)
            (PyArray (Vec [1.5; 1.8; 4.5; 10; 0; 30; 0.1; 0.9;
                           1.6; 1.9; 4.8; 15; 0; 35; 0.2; 0.8]%Q)))))
  = 2%nat.
Proof.
  refine (proj2 (first_version_flat_is_one_row kitti_car
                   [1.5; 1.8; 4.5; 10; 0; 30; 0.1; 0.9;
                    1.6; 1.9; 4.8; 15; 0; 35; 0.2; 0.8]%Q _) _).
  - discriminate.
  - reflexivity.
Defined.
